(** * Course-Wizard: the course normalizer, the LLM client's JSON wrapper
      and the IMSCC exporter, embedded and verified

    The development follows the TypeScript sources:
    - [src/lib/imscc] (the exporter: [escapeXml], [generateManifest],
      [generatePageHtml], [generateAssignmentHtml], [generateDiscussionHtml],
      [generateQuizQti], [exportToIMSCC]);
    - [src/lib/llm/client] ([getProvider], [extractResourceName],
      [generateLLMResponse], [generateJSONResponse]);
    - [src/lib/llm/prompts] ([buildCanvasGenerationSystemPrompt] and the
      three user prompts with their helper [getAnswer]);
    - [src/app/api/generate-canvas/route.ts] ([POST] and its normalizing
      tail).

    JavaScript strings are modelled by [string]; a character stands for a
    code unit below 256.  Numbers that the code prints or compares are
    integers and are modelled by [Z].  *)

From Stdlib Require Import String Ascii List ZArith QArith Bool Lia DecimalString.
From Stdlib Require Import DecimalZ.
Import ListNotations.
Close Scope Q_scope.
Open Scope string_scope.
Set Warnings "-register-all".

(* ===================================================================== *)
(** * Part I.  Definitions                                                *)
(* ===================================================================== *)

(** ** JavaScript string primitives *)

Module JsString.

(** The double quote and the line feed, by code. *)
Definition dquote_char : ascii := "034"%char.
Definition dq : string := String dquote_char "".
Definition nl : string := String "010"%char "".

(** Template literals of the sources contain double quotes.  The literals
    of this file write an apostrophe where the source has a double quote
    (no template of the exporter contains an apostrophe) and [T] puts the
    double quotes back. *)
Fixpoint T (s : string) : string :=
  match s with
  | "" => ""
  | String c s' =>
      String (if Ascii.eqb c "'"%char then dquote_char else c) (T s')
  end.

(** [Number.prototype.toString] on an integer (the indices and points
    that the code prints, which JavaScript writes in plain decimal):
    decimal digits, a leading minus sign for negatives. *)
Definition Number_toString (z : Z) : string :=
  NilEmpty.string_of_int (Z.to_int z).

(** [text.replace(/c/g, r)] for a pattern that is a single character. *)
Fixpoint replaceAll (c : ascii) (r : string) (text : string) : string :=
  match text with
  | "" => ""
  | String x rest =>
      if Ascii.eqb x c then r ++ replaceAll c r rest
      else String x (replaceAll c r rest)
  end.

(** [parts.join(sep)] *)
Definition join (sep : string) (parts : list string) : string :=
  String.concat sep parts.

(** [s.startsWith(p)] *)
Definition startsWith (p s : string) : bool := String.prefix p s.

(** [s.includes(needle)] *)
Fixpoint includes (needle s : string) : bool :=
  if String.prefix needle s then true
  else match s with
       | "" => false
       | String _ s' => includes needle s'
       end.

(** [s.slice(n)] for [n >= 0]. *)
Fixpoint slice_from (n : nat) (s : string) : string :=
  match n, s with
  | O, _ => s
  | S n', String _ s' => slice_from n' s'
  | S _, "" => ""
  end.

(** [s.slice(0, -n)]: everything but the last [n] code units. *)
Definition slice_drop_last (n : nat) (s : string) : string :=
  String.substring 0 (String.length s - n) s.

(** [s.endsWith(p)] *)
Definition endsWith (p s : string) : bool :=
  (String.length p <=? String.length s)%nat
  && String.eqb (slice_from (String.length s - String.length p) s) p.

(** White space and line terminators among the code units below 256:
    TAB, LF, VT, FF, CR, SP and NBSP. *)
Definition isWhiteSpace (c : ascii) : bool :=
  let n := nat_of_ascii c in
  ((9 <=? n) && (n <=? 13) || (n =? 32) || (n =? 160))%nat.

Fixpoint trimStart (s : string) : string :=
  match s with
  | "" => ""
  | String c s' => if isWhiteSpace c then trimStart s' else s
  end.

(** [trimEnd] keeps a character when it is not white space or when
    something is kept after it. *)
Fixpoint trimEnd (s : string) : string :=
  match s with
  | "" => ""
  | String c s' =>
      match trimEnd s' with
      | "" => if isWhiteSpace c then "" else String c ""
      | t => String c t
      end
  end.

(** [s.trim()] *)
Definition trim (s : string) : string := trimEnd (trimStart s).

(** [xs.map((x, index) => f(x, index))] *)
Fixpoint mapi_from {A B : Type} (f : A -> nat -> B) (start : nat)
    (xs : list A) : list B :=
  match xs with
  | [] => []
  | x :: xs' => f x start :: mapi_from f (S start) xs'
  end.

Definition mapi {A B : Type} (f : A -> nat -> B) (xs : list A) : list B :=
  mapi_from f 0 xs.

(** *** Vocabulary for statements about the emitted text *)

(** [c] occurs in [s]. *)
Fixpoint mem_char (c : ascii) (s : string) : bool :=
  match s with
  | "" => false
  | String x s' => Ascii.eqb x c || mem_char c s'
  end.

(** A text is transparent for a needle when no occurrence of the needle
    starts inside it, whatever follows it. *)
Definition transparent (n x : string) : Prop :=
  forall r, includes n (x ++ r) = includes n r.

(** [a] is a prefix of [n] and shorter than it. *)
Fixpoint proper_prefix (a n : string) : bool :=
  match a, n with
  | "", String _ _ => true
  | String x a', String y n' => Ascii.eqb x y && proper_prefix a' n'
  | _, "" => false
  end.

(** A literal passes when the needle does not occur in it and none of its
    non-empty suffixes begins the needle. *)
Fixpoint literal_ok (n a : string) : bool :=
  match a with
  | "" => true
  | String _ a' =>
      negb (String.prefix n a) && negb (proper_prefix a n) && literal_ok n a'
  end.

End JsString.
Import JsString.

(** ** The course document *)

Module Types.

(** Modelled from the spec: the type declarations of [@/types], which the
    exporter and the route import, are not among the sources; the records
    follow the Data Model section (an optional field [f?] is an [option]).
    [type] fields stay strings, as the code compares them with string
    literals and has a default branch for any other value. *)
Record QuizAnswer := {
  answer_text : string;
  answer_correct : bool
}.

(** Modelled from the spec: [Question] of the Data Model. *)
Record QuizQuestion := {
  question_type : string;
  question_text : string;
  question_points : Z;
  question_answers : option (list QuizAnswer)
}.

(** Modelled from the spec: a rating of a rubric criterion. *)
Record RubricRating := {
  rating_description : string;
  rating_points : Z
}.

(** Modelled from the spec: a criterion of [Rubric]. *)
Record RubricCriterion := {
  criterion_description : string;
  criterion_points : Z;
  criterion_ratings : list RubricRating
}.

(** Modelled from the spec: [Rubric] of the Data Model. *)
Record Rubric := {
  rubric_title : string;
  rubric_criteria : list RubricCriterion
}.

(** Modelled from the spec: [ModuleItem] of the Data Model. *)
Record CanvasModuleItem := {
  item_id : string;
  item_type : string;
  item_title : string;
  item_content : option string;
  item_position : Z;
  item_points : option Z;
  item_rubric : option Rubric;
  item_questions : option (list QuizQuestion);
  item_prompt : option string
}.

(** Modelled from the spec: [Module] of the Data Model. *)
Record CanvasModule := {
  module_id : string;
  module_name : string;
  module_position : Z;
  module_items : list CanvasModuleItem
}.

(** Modelled from the spec: [Generated Course] of the Data Model. *)
Record GeneratedCourse := {
  course_title : string;
  course_description : string;
  course_welcomeMessage : string;
  course_modules : list CanvasModule
}.

(** [s || d] on an optional string: the empty string is falsy. *)
Definition str_or (s : option string) (d : string) : string :=
  match s with
  | Some x => if String.eqb x "" then d else x
  | None => d
  end.

(** [n || 0] on an optional number. *)
Definition num_or (n : option Z) (d : Z) : Z :=
  match n with
  | Some x => if Z.eqb x 0 then d else x
  | None => d
  end.

Definition QuizAnswer_eqb (a b : QuizAnswer) : bool :=
  String.eqb (answer_text a) (answer_text b)
  && Bool.eqb (answer_correct a) (answer_correct b).

End Types.
Import Types.

(** ** The IMSCC exporter *)

Module Imscc.

(** [escapeXml]: five global replacements, the ampersand first. *)
Definition escapeXml (text : string) : string :=
  replaceAll "'"%char "&apos;"
    (replaceAll dquote_char "&quot;"
      (replaceAll ">"%char "&gt;"
        (replaceAll "<"%char "&lt;"
          (replaceAll "&"%char "&amp;" text)))).

(** The replacement of one character, and the text obtained by replacing
    every character on its own: what [escapeXml] is meant to compute
    (lemma [escapeXml_escapeEach]). *)
Definition escapeChar (c : ascii) : string :=
  if Ascii.eqb c "&"%char then "&amp;"
  else if Ascii.eqb c "<"%char then "&lt;"
  else if Ascii.eqb c ">"%char then "&gt;"
  else if Ascii.eqb c dquote_char then "&quot;"
  else if Ascii.eqb c "'"%char then "&apos;"
  else String c "".

Fixpoint escapeEach (text : string) : string :=
  match text with
  | "" => ""
  | String c rest => escapeChar c ++ escapeEach rest
  end.

(** The [if / else if] chain of [generateManifest] that selects the
    resource type and the href of an item. *)
Definition resourceTypeAndHref (item : CanvasModuleItem) : string * string :=
  if String.eqb (item_type item) "assignment" then
    ("assignment", "assignments/" ++ item_id item ++ ".html")
  else if String.eqb (item_type item) "discussion" then
    ("discussion", "discussions/" ++ item_id item ++ ".html")
  else if String.eqb (item_type item) "quiz" then
    ("assessment", "quizzes/" ++ item_id item ++ ".xml")
  else
    ("webcontent", item_id item ++ ".html").

Definition resourceXml (resourceId resourceType href : string) : string :=
  T "
    <resource identifier='" ++ resourceId ++ T "' type='" ++ resourceType ++ T "' href='" ++ href ++ T "'>
      <file href='" ++ href ++ T "'/>
    </resource>".

Definition moduleItemXml (itemId resourceId : string) (title : string) : string :=
  T "
          <item identifier='" ++ itemId ++ T "' identifierref='" ++ resourceId ++ T "'>
            <title>" ++ escapeXml title ++ "</title>
          </item>".

(** The body of the inner loop of [generateManifest]: one [push] onto
    [resources] and one onto [moduleItems]. *)
Definition manifestItemStep (acc : list string * list string)
    (item : CanvasModuleItem) : list string * list string :=
  let '(resources, moduleItems) := acc in
  let itemId := "item_" ++ item_id item in
  let resourceId := "res_" ++ item_id item in
  let '(resourceType, href) := resourceTypeAndHref item in
  ((resources ++ [resourceXml resourceId resourceType href])%list,
   (moduleItems ++ [moduleItemXml itemId resourceId (item_title item)])%list).

Definition moduleXml (moduleId name : string) (moduleItems : list string) : string :=
  T "
      <item identifier='" ++ moduleId ++ T "'>
        <title>" ++ escapeXml name ++ "</title>
        " ++ join "" moduleItems ++ "
      </item>".

(** The body of the outer loop of [generateManifest]. *)
Definition manifestModuleStep (acc : list string * list string)
    (courseModule : CanvasModule) : list string * list string :=
  let '(resources, items) := acc in
  let moduleId := "mod_" ++ module_id courseModule in
  let '(resources, moduleItems) :=
    fold_left manifestItemStep (module_items courseModule) (resources, []) in
  (resources,
   (items ++ [moduleXml moduleId (module_name courseModule) moduleItems])%list).

Definition overviewResourceXml (overviewId : string) : string :=
  T "
    <resource identifier='" ++ overviewId ++ T "' type='webcontent' href='course_overview.html'>
      <file href='course_overview.html'/>
    </resource>".

Definition overviewItemXml (overviewId : string) : string :=
  T "
      <item identifier='overview_item' identifierref='" ++ overviewId ++ T "'>
        <title>Course Overview</title>
      </item>".

Definition manifestXml (manifestId title description : string)
    (items resources : list string) : string :=
  T "<?xml version='1.0' encoding='UTF-8'?>
<manifest identifier='course_" ++ manifestId ++ T "'
  xmlns='http://www.imsglobal.org/xsd/imsccv1p1/imscp_v1p1'
  xmlns:lom='http://ltsc.ieee.org/xsd/imsccv1p1/LOM/resource'
  xmlns:lomimscc='http://ltsc.ieee.org/xsd/imsccv1p1/LOM/manifest'
  xmlns:xsi='http://www.w3.org/2001/XMLSchema-instance'
  xsi:schemaLocation='http://www.imsglobal.org/xsd/imsccv1p1/imscp_v1p1 http://www.imsglobal.org/profile/cc/ccv1p1/ccv1p1_imscp_v1p2_v1p0.xsd'>
  <metadata>
    <schema>IMS Common Cartridge</schema>
    <schemaversion>1.1.0</schemaversion>
    <lomimscc:lom>
      <lomimscc:general>
        <lomimscc:title>
          <lomimscc:string>" ++ escapeXml title ++ "</lomimscc:string>
        </lomimscc:title>
        <lomimscc:description>
          <lomimscc:string>" ++ escapeXml description ++ T "</lomimscc:string>
        </lomimscc:description>
      </lomimscc:general>
    </lomimscc:lom>
  </metadata>
  <organizations>
    <organization identifier='org_1' structure='rooted-hierarchy'>
      <item identifier='root'>
        " ++ join "" items ++ "
      </item>
    </organization>
  </organizations>
  <resources>
    " ++ join "" resources ++ "
  </resources>
</manifest>".

(** [generateManifest].  [generateId] reads the clock and the random
    generator; the two identifiers it returns during one call (first for
    the overview resource, then for the manifest) are arguments here. *)
Definition generateManifest (overviewId manifestId : string)
    (course : GeneratedCourse) : string :=
  let resources := [overviewResourceXml overviewId] in
  let items := [overviewItemXml overviewId] in
  let '(resources, items) :=
    fold_left manifestModuleStep (course_modules course) (resources, items) in
  manifestXml manifestId (course_title course) (course_description course)
    items resources.

(** The manifest entries of one item and of one module, and the manifest
    written from them by mapping over the arrays in their order: what the
    loops of [generateManifest] amount to (lemma
    [generateManifest_in_order]). *)
Definition itemResourceXml (item : CanvasModuleItem) : string :=
  resourceXml ("res_" ++ item_id item)
    (fst (resourceTypeAndHref item)) (snd (resourceTypeAndHref item)).

Definition itemLeafXml (item : CanvasModuleItem) : string :=
  moduleItemXml ("item_" ++ item_id item) ("res_" ++ item_id item)
    (item_title item).

Definition moduleNodeXml (courseModule : CanvasModule) : string :=
  moduleXml ("mod_" ++ module_id courseModule) (module_name courseModule)
    (map itemLeafXml (module_items courseModule)).

Definition allItems (course : GeneratedCourse) : list CanvasModuleItem :=
  flat_map module_items (course_modules course).

Definition manifestInOrder (overviewId manifestId : string)
    (course : GeneratedCourse) : string :=
  manifestXml manifestId (course_title course) (course_description course)
    (overviewItemXml overviewId :: map moduleNodeXml (course_modules course))
    (overviewResourceXml overviewId :: map itemResourceXml (allItems course)).

Definition generatePageHtml (title content : string) : string :=
  T "<!DOCTYPE html>
<html>
<head>
  <meta charset='UTF-8'>
  <title>" ++ escapeXml title ++ "</title>
</head>
<body>
" ++ content ++ "
</body>
</html>".

Definition ratingText (r : RubricRating) : string :=
  escapeXml (rating_description r) ++ " (" ++ Number_toString (rating_points r) ++ " pts)".

Definition criterionRow (c : RubricCriterion) : string :=
  "
    <tr>
      <td>" ++ escapeXml (criterion_description c) ++ "</td>
      <td>" ++ Number_toString (criterion_points c) ++ "</td>
      <td>" ++ join "<br>" (map ratingText (criterion_ratings c)) ++ "</td>
    </tr>".

Definition rubricTable (r : Rubric) : string :=
  "
<h3>Rubric: " ++ escapeXml (rubric_title r) ++ T "</h3>
<table border='1' cellpadding='8' cellspacing='0'>
  <thead>
    <tr>
      <th>Criterion</th>
      <th>Points</th>
      <th>Ratings</th>
    </tr>
  </thead>
  <tbody>
    " ++ join "" (map criterionRow (rubric_criteria r)) ++ "
  </tbody>
</table>".

Definition generateAssignmentHtml (item : CanvasModuleItem) : string :=
  let rubricHtml :=
    match item_rubric item with
    | Some r => rubricTable r
    | None => ""
    end in
  T "<!DOCTYPE html>
<html>
<head>
  <meta charset='UTF-8'>
  <title>" ++ escapeXml (item_title item) ++ "</title>
</head>
<body>
<h1>" ++ escapeXml (item_title item) ++ "</h1>
<p><strong>Points:</strong> " ++ Number_toString (num_or (item_points item) 0) ++ "</p>

<h2>Instructions</h2>
" ++ str_or (item_content item) "<p>No instructions provided.</p>" ++ "

" ++ rubricHtml ++ "
</body>
</html>".

Definition generateDiscussionHtml (item : CanvasModuleItem) : string :=
  T "<!DOCTYPE html>
<html>
<head>
  <meta charset='UTF-8'>
  <title>" ++ escapeXml (item_title item) ++ "</title>
</head>
<body>
<h1>" ++ escapeXml (item_title item) ++ "</h1>
" ++ str_or (item_prompt item)
       (str_or (item_content item) "<p>Discussion topic.</p>") ++ "
</body>
</html>".

(** [answers.indexOf(x)].  Strict equality on objects is identity; the
    answers of a question are distinct objects, and an answer that is
    structurally equal to the one [find] returned and stands before it
    would itself have been returned, so comparing contents finds the
    same slot (lemma [indexOf_find_correct]). *)
Fixpoint indexOf_from (x : QuizAnswer) (answers : list QuizAnswer) (i : Z) : Z :=
  match answers with
  | [] => (-1)%Z
  | a :: rest =>
      if QuizAnswer_eqb a x then i else indexOf_from x rest (i + 1)%Z
  end.

Definition indexOf (answers : list QuizAnswer) (x : QuizAnswer) : Z :=
  indexOf_from x answers 0%Z.


Definition responseLabelXml (a : QuizAnswer) (aIndex : nat) : string :=
  T "
            <response_label ident='ans_" ++ Number_toString (Z.of_nat aIndex) ++ T "'>
              <material>
                <mattext texttype='text/plain'>" ++ escapeXml (answer_text a) ++ "</mattext>
              </material>
            </response_label>".

Definition respconditionXml (answerIndex points : Z) : string :=
  T "
        <respcondition continue='No'>
          <conditionvar>
            <varequal respident='response1'>ans_" ++ Number_toString answerIndex ++ T "</varequal>
          </conditionvar>
          <setvar action='Set' varname='SCORE'>" ++ Number_toString points ++ "</setvar>
        </respcondition>".

Definition choiceItemXml (qId : string) (index : nat) (q : QuizQuestion)
    (answers : list QuizAnswer) : string :=
  let correctAnswer := find answer_correct answers in
  T "
    <item ident='" ++ qId ++ T "' title='Question " ++ Number_toString (Z.of_nat (index + 1)) ++ T "'>
      <presentation>
        <material>
          <mattext texttype='text/html'>" ++ escapeXml (question_text q) ++ T "</mattext>
        </material>
        <response_lid ident='response1' rcardinality='Single'>
          <render_choice>
            " ++ join "" (mapi responseLabelXml answers) ++ T "
          </render_choice>
        </response_lid>
      </presentation>
      <resprocessing>
        <outcomes>
          <decvar maxvalue='" ++ Number_toString (question_points q) ++ T "' minvalue='0' varname='SCORE' vartype='Decimal'/>
        </outcomes>
        " ++ match correctAnswer with
             | Some a => respconditionXml (indexOf answers a) (question_points q)
             | None => ""
             end ++ "
      </resprocessing>
    </item>".

Definition freeResponseItemXml (qId : string) (index : nat) (q : QuizQuestion) : string :=
  T "
    <item ident='" ++ qId ++ T "' title='Question " ++ Number_toString (Z.of_nat (index + 1)) ++ T "'>
      <presentation>
        <material>
          <mattext texttype='text/html'>" ++ escapeXml (question_text q) ++ T "</mattext>
        </material>
        <response_str ident='response1' rcardinality='Single'>
          <render_fib>
            <response_label ident='answer1' rshuffle='No'/>
          </render_fib>
        </response_str>
      </presentation>
      <resprocessing>
        <outcomes>
          <decvar maxvalue='" ++ Number_toString (question_points q) ++ T "' minvalue='0' varname='SCORE' vartype='Decimal'/>
        </outcomes>
      </resprocessing>
    </item>".

(** The callback of [questions.map] in [generateQuizQti]. *)
Definition questionXml (q : QuizQuestion) (index : nat) : string :=
  let qId := "q_" ++ Number_toString (Z.of_nat (index + 1)) in
  match String.eqb (question_type q) "multiple_choice", question_answers q with
  | true, Some answers => choiceItemXml qId index q answers
  | _, _ => (* Essay or short answer *) freeResponseItemXml qId index q
  end.

Definition quizXml (id title questionItems : string) : string :=
  T "<?xml version='1.0' encoding='UTF-8'?>
<questestinterop xmlns='http://www.imsglobal.org/xsd/ims_qtiasiv1p2'>
  <assessment ident='quiz_" ++ id ++ T "' title='" ++ escapeXml title ++ T "'>
    <section ident='root_section'>
      " ++ questionItems ++ "
    </section>
  </assessment>
</questestinterop>".

(** No answer of the question is marked correct (none, when the
    question has no answers). *)
Definition noAnswerMarkedCorrect (q : QuizQuestion) : Prop :=
  forall answers a,
    question_answers q = Some answers -> In a answers ->
    answer_correct a = false.

Definition generateQuizQti (item : CanvasModuleItem) : string :=
  let questions :=
    match item_questions item with
    | Some qs => qs
    | None => []
    end in
  let questionItems := join "" (mapi questionXml questions) in
  quizXml (item_id item) (item_title item) questionItems.

(** *** The archive

    JSZip (the library behind [zip.file] and [zip.folder], version 3 with
    its defaults) keeps its entries in an object keyed by path: a write
    to a new path adds an entry at the end, a write to a known path
    replaces the entry where it stands (the names that the exporter
    writes end in .xml, .html or a slash: none is an array index, which
    an object would list first).  Before it sets an entry,
    [fileAdd] makes sure that the folder above it exists ([createFolders]
    is on by default): [folderAdd] adds the folder when the archive has
    no entry of its name, and adding it makes sure of the folder above it
    in turn.  A folder created through [zip.folder] shares the table of
    entries of the archive and prefixes its own path to the names written
    through it. *)
Inductive ZipEntry :=
  | ZipFolder
  | ZipFile (data : string).

Definition Zip := list (string * ZipEntry).

Fixpoint zip_set (path : string) (e : ZipEntry) (zip : Zip) : Zip :=
  match zip with
  | [] => [(path, e)]
  | (p, e0) :: rest =>
      if String.eqb p path then (p, e) :: rest
      else (p, e0) :: zip_set path e rest
  end.

Fixpoint zip_get (path : string) (zip : Zip) : option ZipEntry :=
  match zip with
  | [] => None
  | (p, e) :: rest => if String.eqb p path then Some e else zip_get path rest
  end.

(** [path.lastIndexOf("/")], [None] standing for -1. *)
Fixpoint lastIndexOfSlash (path : string) : option nat :=
  match path with
  | "" => None
  | String c rest =>
      match lastIndexOfSlash rest with
      | Some i => Some (S i)
      | None => if Ascii.eqb c "/" then Some 0 else None
      end
  end.

(** [forceTrailingSlash] *)
Definition forceTrailingSlash (path : string) : string :=
  if endsWith "/" path then path else path ++ "/".

(** [parentFolder]: the path up to its last slash, a slash that ends the
    path not counting, and the empty string when there is no slash after
    the first character. *)
Definition parentFolder (path : string) : string :=
  let path := if endsWith "/" path then slice_drop_last 1 path else path in
  match lastIndexOfSlash path with
  | Some lastSlash =>
      if (0 <? lastSlash)%nat then String.substring 0 lastSlash path else ""
  | None => ""
  end.

(** [fileAdd], for a file with its content and for a folder.  The folder
    above the entry is shorter than the entry's name, so that the length
    of the name bounds the depth of the recursion: this is the [fuel]
    that [zip_file] and [folderAdd] give (more would change nothing,
    lemma [fileAdd_fuel]). *)
Fixpoint fileAdd (fuel : nat) (name : string) (e : ZipEntry) (zip : Zip) : Zip :=
  let name :=
    match e with
    | ZipFolder => forceTrailingSlash name
    | ZipFile _ => name
    end in
  let parent := parentFolder name in
  let zip :=
    if String.eqb parent "" then zip
    else
      match fuel with
      | O => zip
      | S fuel' =>
          (* folderAdd(parent, true) *)
          let folder := forceTrailingSlash parent in
          match zip_get folder zip with
          | Some _ => zip
          | None => fileAdd fuel' folder ZipFolder zip
          end
      end in
  zip_set name e zip.

(** [folderAdd] *)
Definition folderAdd (name : string) (zip : Zip) : string * Zip :=
  let name := forceTrailingSlash name in
  (name, match zip_get name zip with
         | Some _ => zip
         | None => fileAdd (String.length name) name ZipFolder zip
         end).

(** [folder.file(name, data)], [root] being the folder's path prefix
    (empty for the archive itself). *)
Definition zip_file (root name data : string) (zip : Zip) : Zip :=
  let name := root ++ name in
  fileAdd (String.length name) name (ZipFile data) zip.

(** [zip.folder(name)] on the archive itself: the folder is added when
    absent; the result is the prefix of the new folder and the archive. *)
Definition zip_folder (name : string) (zip : Zip) : string * Zip :=
  folderAdd name zip.

(** The entries that are files, in the order of the archive. *)
Definition isFile (entry : string * ZipEntry) : bool :=
  match snd entry with
  | ZipFile _ => true
  | ZipFolder => false
  end.

Definition zipFiles (zip : Zip) : Zip := filter isFile zip.

Definition folderEntry (name : string) : string * ZipEntry := (name, ZipFolder).

(** The name under which [fileAdd] sets an entry. *)
Definition entryName (name : string) (e : ZipEntry) : string :=
  match e with
  | ZipFolder => forceTrailingSlash name
  | ZipFile _ => name
  end.

(** The [switch] of [exportToIMSCC] on one item. *)
Definition exportItem (assignmentsFolder discussionsFolder quizzesFolder : string)
    (zip : Zip) (item : CanvasModuleItem) : Zip :=
  if String.eqb (item_type item) "page" then
    zip_file "" (item_id item ++ ".html")
      (generatePageHtml (item_title item) (str_or (item_content item) "")) zip
  else if String.eqb (item_type item) "assignment" then
    zip_file assignmentsFolder (item_id item ++ ".html")
      (generateAssignmentHtml item) zip
  else if String.eqb (item_type item) "discussion" then
    zip_file discussionsFolder (item_id item ++ ".html")
      (generateDiscussionHtml item) zip
  else if String.eqb (item_type item) "quiz" then
    zip_file quizzesFolder (item_id item ++ ".xml") (generateQuizQti item) zip
  else
    (* Default to page *)
    zip_file "" (item_id item ++ ".html")
      (generatePageHtml (item_title item) (str_or (item_content item) "")) zip.

(** [exportToIMSCC], up to the table of entries that [generateAsync]
    serializes. *)
Definition exportToIMSCC (overviewId manifestId : string)
    (course : GeneratedCourse) : Zip :=
  let zip : Zip := [] in
  let zip := zip_file "" "imsmanifest.xml"
               (generateManifest overviewId manifestId course) zip in
  let zip := zip_file "" "course_overview.html"
               (generatePageHtml "Welcome"
                  (str_or (Some (course_welcomeMessage course))
                     "<p>Welcome to the course!</p>")) zip in
  let '(assignmentsFolder, zip) := zip_folder "assignments" zip in
  let '(discussionsFolder, zip) := zip_folder "discussions" zip in
  let '(quizzesFolder, zip) := zip_folder "quizzes" zip in
  fold_left
    (fun zip courseModule =>
       fold_left (exportItem assignmentsFolder discussionsFolder quizzesFolder)
         (module_items courseModule) zip)
    (course_modules course) zip.

(** The archive before the loop over the modules: the manifest, the
    overview page and the three folders. *)
Definition initialZip (overviewId manifestId : string)
    (course : GeneratedCourse) : Zip :=
  [ ("imsmanifest.xml", ZipFile (generateManifest overviewId manifestId course));
    ("course_overview.html",
     ZipFile (generatePageHtml "Welcome"
                (str_or (Some (course_welcomeMessage course))
                   "<p>Welcome to the course!</p>")));
    ("assignments/", ZipFolder);
    ("discussions/", ZipFolder);
    ("quizzes/", ZipFolder) ].

(** The path and the content of the file written for one item. *)
Definition itemPath (item : CanvasModuleItem) : string :=
  if String.eqb (item_type item) "assignment" then
    "assignments/" ++ item_id item ++ ".html"
  else if String.eqb (item_type item) "discussion" then
    "discussions/" ++ item_id item ++ ".html"
  else if String.eqb (item_type item) "quiz" then
    "quizzes/" ++ item_id item ++ ".xml"
  else item_id item ++ ".html".

Definition itemData (item : CanvasModuleItem) : string :=
  if String.eqb (item_type item) "assignment" then generateAssignmentHtml item
  else if String.eqb (item_type item) "discussion" then generateDiscussionHtml item
  else if String.eqb (item_type item) "quiz" then generateQuizQti item
  else generatePageHtml (item_title item) (str_or (item_content item) "").

(** One write of the loop, by path and content. *)
Definition writeItem (zip : Zip) (item : CanvasModuleItem) : Zip :=
  zip_file "" (itemPath item) (itemData item) zip.

Definition itemEntry (item : CanvasModuleItem) : string * ZipEntry :=
  (itemPath item, ZipFile (itemData item)).

(** The course with every [position] overwritten by [p]. *)
Definition setItemPosition (p : Z) (item : CanvasModuleItem) : CanvasModuleItem :=
  {| item_id := item_id item;
     item_type := item_type item;
     item_title := item_title item;
     item_content := item_content item;
     item_position := p;
     item_points := item_points item;
     item_rubric := item_rubric item;
     item_questions := item_questions item;
     item_prompt := item_prompt item |}.

Definition setModulePositions (p : Z) (m : CanvasModule) : CanvasModule :=
  {| module_id := module_id m;
     module_name := module_name m;
     module_position := p;
     module_items := map (setItemPosition p) (module_items m) |}.

Definition setPositions (p : Z) (course : GeneratedCourse) : GeneratedCourse :=
  {| course_title := course_title course;
     course_description := course_description course;
     course_welcomeMessage := course_welcomeMessage course;
     course_modules := map (setModulePositions p) (course_modules course) |}.

End Imscc.
Import Imscc.

(** ** JavaScript values and exceptions *)

Module Js.

(** What [JSON.parse] can return, and [undefined] for a property that is
    not there.  An object is the list of its own properties. *)
Inductive value :=
  | VUndefined
  | VNull
  | VBool (b : bool)
  | VNum (n : Z)
  | VStr (s : string)
  | VArr (elems : list value)
  | VObj (props : list (string * value)).

Inductive JsError :=
  | TypeError
  | Error (message : string).

Inductive result (A : Type) :=
  | Ok (a : A)
  | Throw (e : JsError).
Arguments Ok {A} a.
Arguments Throw {A} e.

Definition bind {A B : Type} (r : result A) (k : A -> result B) : result B :=
  match r with
  | Ok a => k a
  | Throw e => Throw e
  end.

(** [ToBoolean] *)
Definition truthy (v : value) : bool :=
  match v with
  | VUndefined | VNull => false
  | VBool b => b
  | VNum n => negb (Z.eqb n 0)
  | VStr s => negb (String.eqb s "")
  | VArr _ | VObj _ => true
  end.

Definition nullish (v : value) : bool :=
  match v with
  | VUndefined | VNull => true
  | _ => false
  end.

(** [a || b] and [a ?? b] *)
Definition js_or (a b : value) : value := if truthy a then a else b.
Definition js_coalesce (a b : value) : value := if nullish a then b else a.

Fixpoint lookup (key : string) (props : list (string * value)) : value :=
  match props with
  | [] => VUndefined
  | (k, v) :: rest => if String.eqb k key then v else lookup key rest
  end.

(** [v.key] for the keys the route reads ([id], [name], [position],
    [items], [type], [title], [content], [points], [rubric], [questions],
    [prompt], [modules]): none of them is a property of a primitive, of an
    array or of [Object.prototype], so the read gives an own property of
    an object and [undefined] on anything else; on [undefined] and [null]
    it throws. *)
Definition get (v : value) (key : string) : result value :=
  match v with
  | VUndefined | VNull => Throw TypeError
  | VObj props => Ok (lookup key props)
  | _ => Ok VUndefined
  end.

(** The value read by [v.key] when the read does not throw. *)
Definition field (v : value) (key : string) : value :=
  match v with
  | VObj props => lookup key props
  | _ => VUndefined
  end.

Definition isArray (v : value) : bool :=
  match v with
  | VArr _ => true
  | _ => false
  end.

(** [xs.map((x, index) => f(x, index))] with a callback that may throw. *)
Fixpoint mapi_result_from {A B : Type} (f : A -> nat -> result B)
    (start : nat) (xs : list A) : result (list B) :=
  match xs with
  | [] => Ok []
  | x :: xs' =>
      bind (f x start) (fun y =>
      bind (mapi_result_from f (S start) xs') (fun ys =>
      Ok (y :: ys)))
  end.

Definition mapi_result {A B : Type} (f : A -> nat -> result B)
    (xs : list A) : result (list B) :=
  mapi_result_from f 0 xs.

End Js.
Import Js.

Notation "x <- e ;; k" := (bind e (fun x => k))
  (at level 61, e at next level, right associativity).

(** ** The route: validation and normalization of the generated course *)

Module Route.

Record NormalizedItem := {
  out_item_id : value;
  out_item_type : value;
  out_item_title : value;
  out_item_content : value;
  out_item_position : value;
  out_item_points : value;
  out_item_rubric : value;
  out_item_questions : value;
  out_item_prompt : value
}.

Record NormalizedModule := {
  out_module_id : value;
  out_module_name : value;
  out_module_position : value;
  out_module_items : list NormalizedItem
}.

Definition index1 (i : nat) : string := Number_toString (Z.of_nat (i + 1)).

(** The callback of the inner [map]. *)
Definition normalizeItem (moduleIndex : nat) (item : value) (itemIndex : nat)
    : result NormalizedItem :=
  id <- get item "id" ;;
  type <- get item "type" ;;
  title <- get item "title" ;;
  content <- get item "content" ;;
  position <- get item "position" ;;
  points <- get item "points" ;;
  rubric <- get item "rubric" ;;
  questions <- get item "questions" ;;
  prompt <- get item "prompt" ;;
  Ok {| out_item_id :=
          js_or id (VStr ("item-" ++ index1 moduleIndex ++ "-" ++ index1 itemIndex));
        out_item_type := js_or type (VStr "page");
        out_item_title := js_or title (VStr ("Item " ++ index1 itemIndex));
        out_item_content := content;
        out_item_position :=
          js_coalesce position (VNum (Z.of_nat (itemIndex + 1)));
        out_item_points := points;
        out_item_rubric := rubric;
        out_item_questions := questions;
        out_item_prompt := prompt |}.

(** The callback of the outer [map].  [(module.items || []).map] throws
    when [module.items] is truthy and has no [map] method. *)
Definition normalizeModule (module : value) (moduleIndex : nat)
    : result NormalizedModule :=
  id <- get module "id" ;;
  name <- get module "name" ;;
  position <- get module "position" ;;
  items <- get module "items" ;;
  items' <- match js_or items (VArr []) with
            | VArr elems => mapi_result (normalizeItem moduleIndex) elems
            | _ => Throw TypeError
            end ;;
  Ok {| out_module_id := js_or id (VStr ("module-" ++ index1 moduleIndex));
        out_module_name := js_or name (VStr ("Module " ++ index1 moduleIndex));
        out_module_position :=
          js_coalesce position (VNum (Z.of_nat (moduleIndex + 1)));
        out_module_items := items' |}.

(** The tail of [POST] from the validation of the LLM's object to the
    assignment of [course.modules]: the new value of [course.modules], or
    the exception that the handler turns into a 500 response. *)
Definition normalizeCourse (course : value) : result (list NormalizedModule) :=
  title <- get course "title" ;;
  modules <- get course "modules" ;;
  if negb (truthy title) || negb (truthy modules) || negb (isArray modules)
  then Throw (Error "Invalid course structure returned from LLM")
  else match modules with
       | VArr elems => mapi_result normalizeModule elems
       | _ => Throw TypeError
       end.

(** The property [key] is an own property of the object [v] (whatever
    its value, [null] and the empty string included). *)
Definition present (v : value) (key : string) : bool :=
  match v with
  | VObj props => existsb (fun kv => String.eqb (fst kv) key) props
  | _ => false
  end.

(** The shapes on which the two [map] calls do not throw: a module and an
    item may be anything but [undefined] and [null], and [module.items]
    is falsy or an array. *)
Definition itemOk (item : value) : bool := negb (nullish item).

Definition moduleOk (module : value) : bool :=
  negb (nullish module)
  && match js_or (field module "items") (VArr []) with
     | VArr items => forallb itemOk items
     | _ => false
     end.

Definition courseOk (course : value) : bool :=
  negb (nullish course)
  && truthy (field course "title")
  && match field course "modules" with
     | VArr modules => forallb moduleOk modules
     | _ => false
     end.

(** The items that the inner [map] runs over. *)
Definition itemsOf (module : value) : list value :=
  match js_or (field module "items") (VArr []) with
  | VArr items => items
  | _ => []
  end.

End Route.
Import Route.

(** ** The LLM client *)

Module LlmClient.

Inductive Role := system | user | assistant.

Definition Role_eqb (a b : Role) : bool :=
  match a, b with
  | system, system | user, user | assistant, assistant => true
  | _, _ => false
  end.

Record LLMMessage := {
  role : Role;
  content : string
}.

Record LLMOptions := {
  temperature : option Q;
  maxTokens : option Z
}.

(** Message objects live in a store and arrays hold references to them:
    [[...messages]] copies the references, not the objects. *)
Definition ref := nat.
Definition Store := list LLMMessage.

Definition deref (store : Store) (r : ref) : option LLMMessage :=
  nth_error store r.

Fixpoint assign (store : Store) (r : ref) (m : LLMMessage) : Store :=
  match store, r with
  | [], _ => []
  | _ :: rest, O => m :: rest
  | x :: rest, S r' => x :: assign rest r' m
  end.

(** What the program can observe and change besides its result: the
    message objects and the lines written by [console.error]. *)
Record World := {
  store : Store;
  console : list (string * string)
}.

(** The argument of [generateText].  The model, which [getModel] selects
    from the process environment, is part of the provider below. *)
Record GenerateTextRequest := {
  req_system : option string;
  req_messages : list (Role * string);
  req_temperature : Q;
  req_maxTokens : Z
}.

Definition default (A : Type) (o : option A) (d : A) : A :=
  match o with
  | Some a => a
  | None => d
  end.
Arguments default {A} o d.

Fixpoint derefAll (store : Store) (rs : list ref) : result (list LLMMessage) :=
  match rs with
  | [] => Ok []
  | r :: rs' =>
      match deref store r with
      | Some m => ms <- derefAll store rs' ;; Ok (m :: ms)
      | None => Throw TypeError
      end
  end.

Definition jsonInstruction : string :=
  nl ++ nl ++ "Respond with valid JSON only. No markdown, no explanation, just the JSON object.".

(** The body of the [try] block up to the argument of [JSON.parse]. *)
Definition cleanResponse (response : string) : string :=
  let cleanedResponse := trim response in
  let cleanedResponse :=
    if startsWith "```json" cleanedResponse then slice_from 7 cleanedResponse
    else if startsWith "```" cleanedResponse then slice_from 3 cleanedResponse
    else cleanedResponse in
  let cleanedResponse :=
    if endsWith "```" cleanedResponse then slice_drop_last 3 cleanedResponse
    else cleanedResponse in
  trim cleanedResponse.

(** The replies wrapped in a code fence. *)
Definition jsonFence (body : string) : string := "```json" ++ body ++ "```".
Definition bareFence (body : string) : string := "```" ++ body ++ "```".

(** The characters that can begin and end a JSON value (an object, an
    array, a string, a number, [true], [false] or [null]), and the test
    that a text, once trimmed, begins and ends with such characters: every
    JSON text passes it (lemma [JsonText_shape]). *)
Definition jsonValueStart (c : ascii) : bool :=
  existsb (Ascii.eqb c)
    [ "{"; "["; dquote_char; "-"; "0"; "1"; "2"; "3"; "4"; "5"; "6"; "7";
      "8"; "9"; "t"; "f"; "n" ]%char.

Definition jsonValueEnd (c : ascii) : bool :=
  existsb (Ascii.eqb c)
    [ "}"; "]"; dquote_char; "0"; "1"; "2"; "3"; "4"; "5"; "6"; "7"; "8";
      "9"; "e"; "l" ]%char.

Fixpoint lastChar (s : string) : option ascii :=
  match s with
  | "" => None
  | String c "" => Some c
  | String _ rest => lastChar rest
  end.

Definition jsonTextShape (text : string) : bool :=
  match trim text with
  | "" => false
  | String c rest =>
      jsonValueStart c
      && match lastChar (String c rest) with
         | Some d => jsonValueEnd d
         | None => false
         end
  end.

(** The grammar of JSON texts (RFC 8259, sections 2 to 7), on strings:
    [JsonText s] when [s] is a value with white space around it. *)
Definition isJsonSpace (c : ascii) : bool :=
  existsb (Ascii.eqb c) [" "; "009"; "010"; "013"]%char.

Fixpoint allChars (p : ascii -> bool) (s : string) : bool :=
  match s with
  | "" => true
  | String c rest => p c && allChars p rest
  end.

Definition isJsonWs (s : string) : bool := allChars isJsonSpace s.

Definition isDigit (c : ascii) : bool :=
  let n := nat_of_ascii c in ((48 <=? n) && (n <=? 57))%nat.

Definition isHexDigit (c : ascii) : bool :=
  let n := nat_of_ascii c in
  (isDigit c || (65 <=? n) && (n <=? 70) || (97 <=? n) && (n <=? 102))%nat.

(** One digit or more. *)
Definition digits (s : string) : bool :=
  negb (String.eqb s "") && allChars isDigit s.

Definition backslash : ascii := "092"%char.

Definition isEscapeLetter (c : ascii) : bool :=
  existsb (Ascii.eqb c)
    [dquote_char; backslash; "/"; "b"; "f"; "n"; "r"; "t"]%char.

(** The characters between the quotes of a string. *)
Inductive JsonChars : string -> Prop :=
  | JsonChars_nil : JsonChars ""
  | JsonChars_plain (c : ascii) (rest : string) :
      c <> dquote_char -> c <> backslash -> 32 <= nat_of_ascii c ->
      JsonChars rest -> JsonChars (String c rest)
  | JsonChars_escape (c : ascii) (rest : string) :
      isEscapeLetter c = true ->
      JsonChars rest -> JsonChars (String backslash (String c rest))
  | JsonChars_unicode (h1 h2 h3 h4 : ascii) (rest : string) :
      isHexDigit h1 = true -> isHexDigit h2 = true ->
      isHexDigit h3 = true -> isHexDigit h4 = true ->
      JsonChars rest ->
      JsonChars
        (String backslash
           (String "u" (String h1 (String h2 (String h3 (String h4 rest)))))).

(** [number = [ minus ] int [ frac ] [ exp ]] *)
Inductive JsonNumber : string -> Prop :=
  | JsonNumber_intro (minus int frac exp : string) :
      minus = "" \/ minus = "-" ->
      int = "0" \/ (digits int = true /\ String.prefix "0" int = false) ->
      frac = "" \/ (exists ds, digits ds = true /\ frac = "." ++ ds) ->
      exp = ""
      \/ (exists e sign ds,
            (e = "e" \/ e = "E") /\ (sign = "" \/ sign = "+" \/ sign = "-")
            /\ digits ds = true /\ exp = e ++ sign ++ ds) ->
      JsonNumber (minus ++ int ++ frac ++ exp).

Inductive JsonValue : string -> Prop :=
  | JsonValue_null : JsonValue "null"
  | JsonValue_true : JsonValue "true"
  | JsonValue_false : JsonValue "false"
  | JsonValue_number (s : string) : JsonNumber s -> JsonValue s
  | JsonValue_string (s : string) : JsonChars s -> JsonValue (dq ++ s ++ dq)
  | JsonValue_array_empty (ws : string) :
      isJsonWs ws = true -> JsonValue ("[" ++ ws ++ "]")
  | JsonValue_array (elements : string) :
      JsonElements elements -> JsonValue ("[" ++ elements ++ "]")
  | JsonValue_object_empty (ws : string) :
      isJsonWs ws = true -> JsonValue ("{" ++ ws ++ "}")
  | JsonValue_object (members : string) :
      JsonMembers members -> JsonValue ("{" ++ members ++ "}")
with JsonElements : string -> Prop :=
  | JsonElements_last (ws1 v ws2 : string) :
      isJsonWs ws1 = true -> JsonValue v -> isJsonWs ws2 = true ->
      JsonElements (ws1 ++ v ++ ws2)
  | JsonElements_more (ws1 v ws2 rest : string) :
      isJsonWs ws1 = true -> JsonValue v -> isJsonWs ws2 = true ->
      JsonElements rest ->
      JsonElements (ws1 ++ v ++ ws2 ++ "," ++ rest)
with JsonMembers : string -> Prop :=
  | JsonMembers_last (ws1 key ws2 ws3 v ws4 : string) :
      isJsonWs ws1 = true -> JsonChars key -> isJsonWs ws2 = true ->
      isJsonWs ws3 = true -> JsonValue v -> isJsonWs ws4 = true ->
      JsonMembers (ws1 ++ dq ++ key ++ dq ++ ws2 ++ ":" ++ ws3 ++ v ++ ws4)
  | JsonMembers_more (ws1 key ws2 ws3 v ws4 rest : string) :
      isJsonWs ws1 = true -> JsonChars key -> isJsonWs ws2 = true ->
      isJsonWs ws3 = true -> JsonValue v -> isJsonWs ws4 = true ->
      JsonMembers rest ->
      JsonMembers
        (ws1 ++ dq ++ key ++ dq ++ ws2 ++ ":" ++ ws3 ++ v ++ ws4 ++ "," ++ rest).

Inductive JsonText : string -> Prop :=
  | JsonText_intro (ws1 v ws2 : string) :
      isJsonWs ws1 = true -> JsonValue v -> isJsonWs ws2 = true ->
      JsonText (ws1 ++ v ++ ws2).

Section Client.

(** The provider call ([generateText] of the [ai] package, network
    included) and [JSON.parse]. *)
Variable generateText : GenerateTextRequest -> result string.
Variable JSON_parse : string -> option value.

Definition generateLLMResponse (messages : list ref) (options : LLMOptions)
    (w : World) : result string :=
  let temperature := default (temperature options) (7 # 10)%Q in
  let maxTokens := default (maxTokens options) 4096%Z in
  ms <- derefAll (store w) messages ;;
  let systemMessage := find (fun m => Role_eqb (role m) system) ms in
  let otherMessages := filter (fun m => negb (Role_eqb (role m) system)) ms in
  generateText
    {| req_system := option_map content systemMessage;
       req_messages := map (fun m => (role m, content m)) otherMessages;
       req_temperature := temperature;
       req_maxTokens := maxTokens |}.

(** The [try] / [catch] of [generateJSONResponse]. *)
Definition parseResponse (response : string) (w : World)
    : result value * World :=
  match JSON_parse (cleanResponse response) with
  | Some v => (Ok v, w)
  | None =>
      (Throw (Error "LLM response was not valid JSON"),
       {| store := store w;
          console := (console w
                      ++ [("Failed to parse LLM response as JSON:", response)])%list |})
  end.

(** The first statements of [generateJSONResponse]: the array is copied,
    the object of its last slot is not, and the instruction is appended
    to that object's [content] when its role is [user]. *)
Definition addJsonInstruction (messages : list ref) (w : World) : World :=
  let jsonMessages := messages in
  let lastMessage := nth_error jsonMessages (length jsonMessages - 1) in
  match lastMessage with
  | Some r =>
      match deref (store w) r with
      | Some m =>
          if Role_eqb (role m) user then
            {| store := assign (store w) r
                          {| role := role m;
                             content := content m ++ jsonInstruction |};
               console := console w |}
          else w
      | None => w
      end
  | None => w
  end.

Definition generateJSONResponse (messages : list ref) (options : LLMOptions)
    (w : World) : result value * World :=
  (* Add instruction for JSON output *)
  let jsonMessages := messages in
  let w := addJsonInstruction messages w in
  match generateLLMResponse jsonMessages options w with
  | Throw e => (Throw e, w)
  | Ok response => parseResponse response w
  end.

End Client.

End LlmClient.
Import LlmClient.

(** ** Well-formed XML

    A recognizer of well-formed XML 1.0 documents, for the XML that the
    exporter writes.  A document is the XML declaration that the exporter
    writes, or none, then white space, one root element and white space.
    Every character is one that XML allows.  Start tags have attributes
    of distinct names with double-quoted values, each after white space;
    end tags match; elements may be empty-element tags; character data
    and attribute values may hold the five predefined entity references.
    A raw [<] or [&] in an attribute value or in character data is
    refused.  The recognizer errs on the side of refusal: it takes no
    comment, processing instruction, CDATA section, document type
    declaration or character reference, no single-quoted value, no white
    space around [=] or before the [>] of an end tag, and no raw [>] in
    character data (XML forbids it there after two closing brackets
    only).  The exporter writes none of these.  Names are those of XML
    1.0 in ASCII, where a colon is a name character; the prefixes of the
    exporter's documents (lom, lomimscc, xsi) stand in fixed text and are
    declared on the root element. *)

Module Xml.

Inductive Mode :=
  | Text
  | TextEntity (ent : string)
  | TagStart
  | OpenName (name : string)
  | InTag (name : string) (attrs : list string)
  | AttrName (name : string) (attrs : list string) (attr : string)
  | AttrEq (name : string) (attrs : list string)
  | AttrValue (name : string) (attrs : list string)
  | AttrEntity (name : string) (attrs : list string) (ent : string)
  | AfterValue (name : string) (attrs : list string)
  | EmptySlash (name : string)
  | CloseName (name : string).

Record State := {
  mode : Mode;
  stack : list string;
  rootSeen : bool
}.

Definition isSpace (c : ascii) : bool :=
  existsb (Ascii.eqb c) [" "; "009"; "010"; "013"]%char.

Definition isNameStart (c : ascii) : bool :=
  let n := nat_of_ascii c in
  ((65 <=? n) && (n <=? 90) || (97 <=? n) && (n <=? 122)
   || (n =? 95) || (n =? 58))%nat.

Definition isNameChar (c : ascii) : bool :=
  let n := nat_of_ascii c in
  (isNameStart c || (48 <=? n) && (n <=? 57) || (n =? 45) || (n =? 46))%nat.

Definition predefinedEntity (ent : string) : bool :=
  existsb (String.eqb ent) ["amp"; "lt"; "gt"; "quot"; "apos"].

(** The characters of XML 1.0 among the code units below 256: tab, line
    feed, carriage return and everything from the space on. *)
Definition isXmlChar (c : ascii) : bool :=
  let n := nat_of_ascii c in
  ((n =? 9) || (n =? 10) || (n =? 13) || (32 <=? n))%nat.

Fixpoint xmlChars (text : string) : bool :=
  match text with
  | "" => true
  | String c rest => isXmlChar c && xmlChars rest
  end.

Definition snoc (s : string) (c : ascii) : string := s ++ String c "".

(** The end of a start tag: the element is opened. *)
Definition openElement (name : string) (st : State) : option State :=
  match stack st with
  | [] => if rootSeen st then None
          else Some {| mode := Text; stack := [name]; rootSeen := true |}
  | _ => Some {| mode := Text; stack := name :: stack st; rootSeen := rootSeen st |}
  end.

(** The end of an empty-element tag. *)
Definition emptyElement (st : State) : option State :=
  match stack st with
  | [] => if rootSeen st then None
          else Some {| mode := Text; stack := []; rootSeen := true |}
  | _ => Some {| mode := Text; stack := stack st; rootSeen := rootSeen st |}
  end.

(** The end of an end tag: it closes the innermost open element. *)
Definition closeElement (name : string) (st : State) : option State :=
  match stack st with
  | top :: rest =>
      if String.eqb top name
      then Some {| mode := Text; stack := rest; rootSeen := rootSeen st |}
      else None
  | [] => None
  end.

Definition goto (m : Mode) (st : State) : option State :=
  Some {| mode := m; stack := stack st; rootSeen := rootSeen st |}.

Definition step (st : State) (c : ascii) : option State :=
  match mode st with
  | Text =>
      if Ascii.eqb c "<" then goto TagStart st
      else match stack st with
           | [] => if isSpace c then Some st else None
           | _ => if Ascii.eqb c "&" then goto (TextEntity "") st
                  else if Ascii.eqb c ">" then None
                  else Some st
           end
  | TextEntity ent =>
      if Ascii.eqb c ";" then
        if predefinedEntity ent then goto Text st else None
      else if isNameChar c then goto (TextEntity (snoc ent c)) st
      else None
  | TagStart =>
      if Ascii.eqb c "/" then goto (CloseName "") st
      else if isNameStart c then goto (OpenName (String c "")) st
      else None
  | OpenName name =>
      if isNameChar c then goto (OpenName (snoc name c)) st
      else if isSpace c then goto (InTag name []) st
      else if Ascii.eqb c ">" then openElement name st
      else if Ascii.eqb c "/" then goto (EmptySlash name) st
      else None
  | InTag name attrs =>
      if isSpace c then Some st
      else if isNameStart c then goto (AttrName name attrs (String c "")) st
      else if Ascii.eqb c ">" then openElement name st
      else if Ascii.eqb c "/" then goto (EmptySlash name) st
      else None
  | AttrName name attrs attr =>
      if isNameChar c then goto (AttrName name attrs (snoc attr c)) st
      else if Ascii.eqb c "=" then
        if existsb (String.eqb attr) attrs then None
        else goto (AttrEq name (attr :: attrs)) st
      else None
  | AttrEq name attrs =>
      if Ascii.eqb c dquote_char then goto (AttrValue name attrs) st else None
  | AttrValue name attrs =>
      if Ascii.eqb c dquote_char then goto (AfterValue name attrs) st
      else if Ascii.eqb c "<" then None
      else if Ascii.eqb c "&" then goto (AttrEntity name attrs "") st
      else Some st
  | AttrEntity name attrs ent =>
      if Ascii.eqb c ";" then
        if predefinedEntity ent then goto (AttrValue name attrs) st else None
      else if isNameChar c then goto (AttrEntity name attrs (snoc ent c)) st
      else None
  | AfterValue name attrs =>
      if isSpace c then goto (InTag name attrs) st
      else if Ascii.eqb c ">" then openElement name st
      else if Ascii.eqb c "/" then goto (EmptySlash name) st
      else None
  | EmptySlash name =>
      if Ascii.eqb c ">" then emptyElement st else None
  | CloseName name =>
      if isNameChar c then goto (CloseName (snoc name c)) st
      else if Ascii.eqb c ">" then closeElement name st
      else None
  end.

Fixpoint run (text : string) (st : option State) : option State :=
  match text, st with
  | String c rest, Some s => run rest (step s c)
  | _, _ => st
  end.

Definition initial : State :=
  {| mode := Text; stack := []; rootSeen := false |}.

Definition accepting (st : option State) : bool :=
  match st with
  | Some {| mode := Text; stack := []; rootSeen := true |} => true
  | _ => false
  end.

(** The XML declaration of the exporter's documents.  A declaration
    stands at the very beginning of a document or nowhere. *)
Definition xmlDeclaration : string :=
  T "<?xml version='1.0' encoding='UTF-8'?>".

Definition afterDeclaration (text : string) : string :=
  if startsWith xmlDeclaration text
  then slice_from (String.length xmlDeclaration) text
  else text.

Definition wellFormed (text : string) : bool :=
  xmlChars text && accepting (run (afterDeclaration text) (Some initial)).

(** A text that can stand in a double-quoted attribute value as it is. *)
Definition attrSafe (s : string) : bool :=
  negb (mem_char dquote_char s) && negb (mem_char "<" s)
  && negb (mem_char "&" s).

(** The value that a reader of the document gets from the text between
    the quotes of an attribute: entity references are replaced, and white
    space is normalized, a line break of carriage return and line feed
    counting once.  [None] when the text cannot stand between quotes. *)
Definition entityChar (ent : string) : option ascii :=
  if String.eqb ent "amp" then Some "&"%char
  else if String.eqb ent "lt" then Some "<"%char
  else if String.eqb ent "gt" then Some ">"%char
  else if String.eqb ent "quot" then Some dquote_char
  else if String.eqb ent "apos" then Some "'"%char
  else None.

Fixpoint attrValueFrom (raw : string) (ent : option string) : option string :=
  match raw with
  | "" =>
      match ent with
      | None => Some ""
      | Some _ => None
      end
  | String c rest =>
      match ent with
      | Some e =>
          if Ascii.eqb c ";" then
            match entityChar e with
            | Some x => option_map (String x) (attrValueFrom rest None)
            | None => None
            end
          else if isNameChar c then attrValueFrom rest (Some (snoc e c))
          else None
      | None =>
          if Ascii.eqb c "&" then attrValueFrom rest (Some "")
          else if Ascii.eqb c "<" || Ascii.eqb c dquote_char
                  || negb (isXmlChar c) then None
          else if Ascii.eqb c "013" && String.prefix (String "010" "") rest
          then attrValueFrom rest None
          else if isSpace c
          then option_map (String " ") (attrValueFrom rest None)
          else option_map (String c) (attrValueFrom rest None)
      end
  end.

Definition attrValue (raw : string) : option string := attrValueFrom raw None.

End Xml.

(** ** Vocabulary for well-formed fragments *)

Module XmlText.

(** A text that can stand in the content of an element as it is. *)
Definition textSafe (s : string) : bool :=
  negb (mem_char "<" s) && negb (mem_char "&" s) && negb (mem_char ">" s).

(** A fragment that the recognizer reads through inside an element, coming
    back to where it was: elements opened in it are closed in it. *)
Definition balanced (x : string) : Prop :=
  forall top rest rootSeen,
    Xml.run x (Some {| Xml.mode := Xml.Text; Xml.stack := top :: rest;
                       Xml.rootSeen := rootSeen |})
    = Some {| Xml.mode := Xml.Text; Xml.stack := top :: rest;
              Xml.rootSeen := rootSeen |}.

(** A text that can stand anywhere as it is. *)
Definition plainText (s : string) : bool :=
  Xml.attrSafe s && textSafe s && Xml.xmlChars s.

(** An identifier that can be written into an attribute as it is: it
    holds no double quote, [<] or [&], and only characters of XML. *)
Definition idSafe (id : string) : bool :=
  Xml.attrSafe id && Xml.xmlChars id.

(** The ids that the manifest writes into attributes are safe there. *)
Definition courseIdsSafe (course : GeneratedCourse) : Prop :=
  Forall (fun m =>
            Xml.attrSafe (module_id m) = true
            /\ Forall (fun item => Xml.attrSafe (item_id item) = true)
                 (module_items m))
    (course_modules course).

(** Every text of the course that the manifest prints holds characters
    of XML only. *)
Definition courseCharsLegal (course : GeneratedCourse) : Prop :=
  Xml.xmlChars (course_title course) = true
  /\ Xml.xmlChars (course_description course) = true
  /\ Forall (fun m =>
               Xml.xmlChars (module_id m) = true
               /\ Xml.xmlChars (module_name m) = true
               /\ Forall (fun item =>
                            Xml.xmlChars (item_id item) = true
                            /\ Xml.xmlChars (item_title item) = true)
                    (module_items m))
       (course_modules course).

(** Every text of the quiz that its document prints holds characters of
    XML only: the id, the title, the text of each question and, for a
    choice question, the texts of its answers. *)
Definition answerCharsLegal (a : QuizAnswer) : bool :=
  Xml.xmlChars (answer_text a).

Definition questionCharsLegal (q : QuizQuestion) : bool :=
  Xml.xmlChars (question_text q)
  && (if String.eqb (question_type q) "multiple_choice"
      then match question_answers q with
           | Some answers => forallb answerCharsLegal answers
           | None => true
           end
      else true).

Definition quizCharsLegal (item : CanvasModuleItem) : bool :=
  Xml.xmlChars (item_id item) && Xml.xmlChars (item_title item)
  && match item_questions item with
     | Some questions => forallb questionCharsLegal questions
     | None => true
     end.

(** An id of letters, digits, [.], [_] and [-]: a path made of it reads
    the same as text, as an attribute value and as a URL. *)
Definition isPlainIdChar (c : ascii) : bool :=
  let n := nat_of_ascii c in
  ((65 <=? n) && (n <=? 90) || (97 <=? n) && (n <=? 122)
   || (48 <=? n) && (n <=? 57) || (n =? 45) || (n =? 46) || (n =? 95))%nat.

Fixpoint plainId (id : string) : bool :=
  match id with
  | "" => true
  | String c rest => isPlainIdChar c && plainId rest
  end.

(** A path of such names. *)
Fixpoint plainPath (path : string) : bool :=
  match path with
  | "" => true
  | String c rest => (isPlainIdChar c || Ascii.eqb c "/") && plainPath rest
  end.

End XmlText.
Import XmlText.

(** ** The normalized course as a JavaScript value *)

Module RouteValue.

(** The object literals that the two [map] callbacks of the route return,
    as values: what a second pass of the normalizer, or the serializer,
    reads. *)
Definition itemToValue (item : NormalizedItem) : value :=
  VObj [ ("id", out_item_id item);
         ("type", out_item_type item);
         ("title", out_item_title item);
         ("content", out_item_content item);
         ("position", out_item_position item);
         ("points", out_item_points item);
         ("rubric", out_item_rubric item);
         ("questions", out_item_questions item);
         ("prompt", out_item_prompt item) ].

Definition moduleToValue (m : NormalizedModule) : value :=
  VObj [ ("id", out_module_id m);
         ("name", out_module_name m);
         ("position", out_module_position m);
         ("items", VArr (map itemToValue (out_module_items m))) ].

(** The course object after [course.modules = ...]: the assigned
    property replaces the old one where it stands. *)
Fixpoint setProp (key : string) (v : value) (props : list (string * value))
    : list (string * value) :=
  match props with
  | [] => [(key, v)]
  | (k, old) :: rest =>
      if String.eqb k key then (k, v) :: rest
      else (k, old) :: setProp key v rest
  end.

Definition withModules (course : value) (modules : list NormalizedModule)
    : value :=
  match course with
  | VObj props => VObj (setProp "modules" (VArr (map moduleToValue modules)) props)
  | other => other
  end.

(** What the consumers of the course rely on: [id], [name], [type] and
    [title] are truthy and [position] is neither [undefined] nor [null]. *)
Definition itemComplete (item : NormalizedItem) : bool :=
  truthy (out_item_id item) && truthy (out_item_type item)
  && truthy (out_item_title item) && negb (nullish (out_item_position item)).

Definition moduleComplete (m : NormalizedModule) : bool :=
  truthy (out_module_id m) && truthy (out_module_name m)
  && negb (nullish (out_module_position m))
  && forallb itemComplete (out_module_items m).

End RouteValue.
Import RouteValue.

(** ** Provider selection *)

Module Provider.

Inductive LLMProvider := openai | anthropic | azure.

(** [process.env]: a variable that is not set reads as [undefined]. *)
Definition Env := string -> option string.

(** [String.prototype.toLowerCase] on code units below 256: the letters
    A to Z and the accented capitals of Latin-1 (all of 192 to 222 but
    the multiplication sign, 215) move up by 32. *)
Definition toLowerChar (c : ascii) : ascii :=
  let n := nat_of_ascii c in
  if ((65 <=? n) && (n <=? 90)
      || (192 <=? n) && (n <=? 222) && negb (n =? 215))%nat
  then ascii_of_nat (n + 32)
  else c.

Fixpoint toLowerCase (s : string) : string :=
  match s with
  | "" => ""
  | String c rest => String (toLowerChar c) (toLowerCase rest)
  end.

(** The truth value of [process.env.NAME]: set and not empty. *)
Definition envTruthy (env : Env) (name : string) : bool :=
  match env name with
  | Some s => negb (String.eqb s "")
  | None => false
  end.

(** [getProvider] *)
Definition getProvider (env : Env) : LLMProvider :=
  let provider := option_map toLowerCase (env "LLM_PROVIDER") in
  let selected (name : string) :=
    match provider with
    | Some p => String.eqb p name
    | None => false
    end in
  if selected "openai" then openai
  else if selected "anthropic" then anthropic
  else if selected "azure" then azure
  else
    (* Auto-detect based on available environment variables *)
    if envTruthy env "AZURE_OPENAI_API_KEY" && envTruthy env "AZURE_OPENAI_ENDPOINT"
    then azure
    else if envTruthy env "ANTHROPIC_API_KEY" then anthropic
    else openai.

(** [hostname.split(".")[0]] *)
Fixpoint beforeFirstDot (s : string) : string :=
  match s with
  | "" => ""
  | String c rest => if Ascii.eqb c "." then "" else String c (beforeFirstDot rest)
  end.

(** [extractResourceName].  [URL_hostname endpoint] is the [hostname] of
    [new URL(endpoint)], or [None] when the constructor throws. *)
Definition extractResourceName (URL_hostname : string -> option string)
    (endpoint : string) : string :=
  match URL_hostname endpoint with
  | Some hostname => beforeFirstDot hostname
  | None =>
      (* If URL parsing fails, return the endpoint as-is *)
      endpoint
  end.

(** The environment that sets exactly the listed variables. *)
Fixpoint envOf (vars : list (string * string)) : Env :=
  fun name =>
    match vars with
    | [] => None
    | (k, v) :: rest => if String.eqb k name then Some v else envOf rest name
    end.

End Provider.
Import Provider.

(** ** Conversations *)

Module Conversation.

(** A message of a role other than [system]. *)
Definition notSystem (m : LLMMessage) : Prop := role m <> system.

(** [n] calls of [generateJSONResponse] on the same array, one after the
    other, each with the world the one before left. *)
Fixpoint callAgain (n : nat)
    (call : World -> result value * World) (w : World) : World :=
  match n with
  | O => w
  | S n' => callAgain n' call (snd (call w))
  end.

End Conversation.
Import Conversation.

(** ** The prompts *)

Module Prompts.

(** [Record<string, string | string[]>]: an answer is a text or a list of
    choices, and [answers[id]] is [undefined] for a question without an
    answer. *)
Inductive Answer :=
  | Text (val : string)
  | Choices (val : list string).

Definition Answers := string -> option Answer.

(** [getAnswer], the helper of the three user prompts. *)
Definition getAnswer (answers : Answers) (id : string) : string :=
  match answers id with
  | Some (Choices val) => join ", " val
  | Some (Text val) => if String.eqb val "" then "" else val
  | None => ""
  end.

(** [buildCanvasGenerationSystemPrompt] *)
Definition buildCanvasGenerationSystemPrompt : string :=
  "You are an expert instructional designer specializing in Canvas LMS course development. Your role is to generate complete, ready-to-use course content based on the instructor's design specifications.

When generating content:
- Create professional, engaging content appropriate for the course level
- Ensure all content aligns with stated learning objectives
- Use clear, accessible language
- Include relevant examples and explanations
- Create detailed rubrics with clear criteria
- Design assessment items that measure learning objectives
- Maintain consistent formatting and structure

CRITICAL: You must respond with raw JSON only. Do NOT wrap your response in markdown code blocks (no ```). Do NOT include any text before or after the JSON. Start your response with { and end with }.".

(** [buildCanvasGenerationUserPrompt] *)
Definition buildCanvasGenerationUserPrompt (answers : Answers) : string :=
  "## Course Generation Task

Based on the following course design specifications, generate a complete Canvas course structure with full content.

### Course Overview:
- **Title:** "
  ++ getAnswer answers "course-title"
  ++ "
- **Code:** "
  ++ getAnswer answers "course-code"
  ++ "
- **Description:** "
  ++ getAnswer answers "course-description"
  ++ "
- **Target Audience:** "
  ++ getAnswer answers "target-audience"
  ++ "
- **Delivery Format:** "
  ++ getAnswer answers "delivery-format"
  ++ "
- **Duration:** "
  ++ getAnswer answers "course-duration"
  ++ "
- **Credit Hours:** "
  ++ getAnswer answers "credit-hours"
  ++ "

### Learning Objectives:
"
  ++ getAnswer answers "learning-objectives"
  ++ "

### Module Structure:
"
  ++ getAnswer answers "module-details"
  ++ "

### Pacing:
"
  ++ getAnswer answers "module-pacing"
  ++ "

### Resources:
"
  ++ getAnswer answers "key-resources"
  ++ "

### Assessment Types:
"
  ++ getAnswer answers "assignment-types"
  ++ "

### Major Assignments:
"
  ++ getAnswer answers "assignment-details"
  ++ "

### Quiz Structure:
"
  ++ getAnswer answers "quiz-structure"
  ++ "

### Discussion Strategy:
"
  ++ getAnswer answers "discussion-prompts"
  ++ "

### Grading:
"
  ++ getAnswer answers "grading-weights"
  ++ "

### Rubric Criteria:
"
  ++ getAnswer answers "rubric-criteria"
  ++ "

### Welcome Message Draft:
"
  ++ getAnswer answers "welcome-message"
  ++ "

### Instructor Introduction:
"
  ++ getAnswer answers "instructor-intro"
  ++ "

### Communication Policy:
"
  ++ getAnswer answers "communication-policy"
  ++ "

### Support Resources:
"
  ++ getAnswer answers "support-resources"
  ++ "

### Late Policy:
"
  ++ getAnswer answers "late-policy"
  ++ "

### Accessibility Statement:
"
  ++ getAnswer answers "accessibility-statement"
  ++ (T "

---

## Required Output Format:

Generate a JSON object with this structure:

{
  'title': '<course title>',
  'description': '<course description for Canvas>',
  'welcomeMessage': '<complete welcome message HTML>',
  'modules': [
    {
      'id': '<unique id>',
      'name': '<module name>',
      'position': <number>,
      'items': [
        {
          'id': '<unique id>',
          'type': 'page' | 'assignment' | 'discussion' | 'quiz',
          'title': '<item title>',
          'content': '<full HTML content for pages>',
          'position': <number>,
          'points': <number for assignments/quizzes>,
          'rubric': {
            'title': '<rubric title>',
            'criteria': [
              {
                'description': '<criterion description>',
                'points': <max points>,
                'ratings': [
                  {'description': '<rating level>', 'points': <points>}
                ]
              }
            ]
          },
          'questions': [
            {
              'type': 'multiple_choice' | 'short_answer' | 'essay',
              'text': '<question text>',
              'points': <points>,
              'answers': [{'text': '<answer>', 'correct': true|false}]
            }
          ],
          'prompt': '<discussion prompt for discussion items>'
        }
      ]
    }
  ]
}

Generate complete, substantive content for each item:
- For pages: Include clear lesson content (200-300 words) covering key concepts
- For assignments: Include clear instructions and requirements
- For discussions: Include engaging prompts with 2-3 guiding questions
- For quizzes: Include 3-5 questions per quiz

IMPORTANT: Keep the JSON response concise to avoid truncation. Focus on quality over quantity.").

(** [buildCourseStructureUserPrompt] *)
Definition buildCourseStructureUserPrompt (answers : Answers) : string :=
  "## Course Structure Generation

Based on the following specifications, generate ONLY the course structure (no detailed content yet).

### Course Overview:
- **Title:** "
  ++ getAnswer answers "course-title"
  ++ "
- **Code:** "
  ++ getAnswer answers "course-code"
  ++ "
- **Description:** "
  ++ getAnswer answers "course-description"
  ++ "
- **Target Audience:** "
  ++ getAnswer answers "target-audience"
  ++ "
- **Duration:** "
  ++ getAnswer answers "course-duration"
  ++ "

### Learning Objectives:
"
  ++ getAnswer answers "learning-objectives"
  ++ "

### Module Structure:
"
  ++ getAnswer answers "module-details"
  ++ "

### Assessment Types:
"
  ++ getAnswer answers "assignment-types"
  ++ "

### Welcome Message Draft:
"
  ++ getAnswer answers "welcome-message"
  ++ (T "

---

## Required Output Format:

Generate a JSON object with this structure (NO detailed content, just structure):

{
  'title': '<course title>',
  'description': '<course description>',
  'welcomeMessage': '<welcome message HTML>',
  'modules': [
    {
      'id': 'module-1',
      'name': '<module name>',
      'position': 1,
      'items': [
        {
          'id': 'item-1-1',
          'type': 'page' | 'assignment' | 'discussion' | 'quiz',
          'title': '<item title>',
          'position': 1
        }
      ]
    }
  ]
}

Create a logical structure with appropriate item types for each module. Do NOT include content, rubrics, or questions yet - just the skeleton.").

Record StructureItem := {
  structure_item_id : string;
  structure_item_type : string;
  structure_item_title : string;
  structure_item_position : Z
}.

Record ModuleStructure := {
  structure_id : string;
  structure_name : string;
  structure_position : Z;
  structure_items : list StructureItem
}.

Definition itemLine (item : StructureItem) : string :=
  "- " ++ structure_item_title item ++ " (" ++ structure_item_type item ++ ")".

(** [buildModuleContentUserPrompt] *)
Definition buildModuleContentUserPrompt (answers : Answers)
    (moduleStructure : ModuleStructure) (courseTitle : string) : string :=
  let itemsList := join nl (map itemLine (structure_items moduleStructure)) in
  "## Module Content Generation

Generate detailed content for Module "
  ++ Number_toString (structure_position moduleStructure)
  ++ (T ": '")
  ++ structure_name moduleStructure
  ++ (T "' in the course '")
  ++ courseTitle
  ++ (T "'.

### Course Context:
- **Learning Objectives:** ")
  ++ getAnswer answers "learning-objectives"
  ++ "
- **Target Audience:** "
  ++ getAnswer answers "target-audience"
  ++ "
- **Assessment Approach:** "
  ++ getAnswer answers "assignment-types"
  ++ "
- **Rubric Criteria:** "
  ++ getAnswer answers "rubric-criteria"
  ++ "

### Module Items to Generate Content For:
"
  ++ itemsList
  ++ (T "

---

## Required Output Format:

Generate a JSON object with detailed content for each item:

{
  'moduleId': '")
  ++ structure_id moduleStructure
  ++ (T "',
  'items': [
    {
      'id': '<item id>',
      'type': 'page' | 'assignment' | 'discussion' | 'quiz',
      'title': '<item title>',
      'content': '<full HTML content for pages, or instructions for assignments>',
      'position': <number>,
      'points': <number for assignments/quizzes, omit for pages>,
      'rubric': {
        'title': '<rubric title>',
        'criteria': [
          {
            'description': '<criterion>',
            'points': <max points>,
            'ratings': [{'description': '<level>', 'points': <points>}]
          }
        ]
      },
      'questions': [
        {
          'type': 'multiple_choice' | 'short_answer' | 'essay',
          'text': '<question>',
          'points': <points>,
          'answers': [{'text': '<answer>', 'correct': true|false}]
        }
      ],
      'prompt': '<discussion prompt if type is discussion>'
    }
  ]
}

Content guidelines:
- Pages: 200-300 words covering key concepts
- Assignments: Clear instructions, include rubric with 3-4 criteria
- Discussions: Engaging prompt with 2-3 guiding questions
- Quizzes: 3-5 questions with answers").

(** The question ids that the full-course prompt and the structure
    prompt name. *)
Definition canvasQuestionIds : list string :=
  [ "course-title"; "course-code"; "course-description"; "target-audience";
    "delivery-format"; "course-duration"; "credit-hours";
    "learning-objectives"; "module-details"; "module-pacing"; "key-resources";
    "assignment-types"; "assignment-details"; "quiz-structure";
    "discussion-prompts"; "grading-weights"; "rubric-criteria";
    "welcome-message"; "instructor-intro"; "communication-policy";
    "support-resources"; "late-policy"; "accessibility-statement" ].

Definition structureQuestionIds : list string :=
  [ "course-title"; "course-code"; "course-description"; "target-audience";
    "course-duration"; "learning-objectives"; "module-details";
    "assignment-types"; "welcome-message" ].

Definition moduleQuestionIds : list string :=
  [ "learning-objectives"; "target-audience"; "assignment-types";
    "rubric-criteria" ].

(** The answers of a form given as its fields in order, a later field of
    the same name replacing an earlier one. *)
Fixpoint answersOf (fields : list (string * Answer)) : Answers :=
  fun id =>
    match fields with
    | [] => None
    | (k, v) :: rest =>
        match answersOf rest id with
        | Some later => Some later
        | None => if String.eqb k id then Some v else None
        end
    end.

End Prompts.
Import Prompts.

(** ** Values as text *)

Module JsText.

(** [typeof v === "object"] *)
Definition typeofObject (v : value) : bool :=
  match v with
  | VNull | VArr _ | VObj _ => true
  | _ => false
  end.

(** [ToString] on the values that [JSON.parse] returns.  An array gives
    its elements joined by commas, [undefined] and [null] among them
    giving nothing.  An object gives [[object Object]], unless it has an
    own property [toString]: no property of a parsed object is callable,
    the inherited [valueOf] returns the object itself, and the conversion
    throws. *)
Fixpoint ToString (v : value) : result string :=
  match v with
  | VUndefined => Ok "undefined"
  | VNull => Ok "null"
  | VBool b => Ok (if b then "true" else "false")
  | VNum n => Ok (Number_toString n)
  | VStr s => Ok s
  | VArr elems =>
      parts <- (fix each (xs : list value) : result (list string) :=
                  match xs with
                  | [] => Ok []
                  | x :: xs' =>
                      s <- (if nullish x then Ok "" else ToString x) ;;
                      ss <- each xs' ;;
                      Ok (s :: ss)
                  end) elems ;;
      Ok (join "," parts)
  | VObj props =>
      if existsb (fun kv => String.eqb (fst kv) "toString") props
      then Throw TypeError
      else Ok "[object Object]"
  end.

(** The text of one element of [Array.prototype.join]. *)
Definition elementText (x : value) : result string :=
  if nullish x then Ok "" else ToString x.

Fixpoint elementTexts (xs : list value) : result (list string) :=
  match xs with
  | [] => Ok []
  | x :: xs' =>
      s <- elementText x ;;
      ss <- elementTexts xs' ;;
      Ok (s :: ss)
  end.

(** [elems.join(sep)] *)
Definition array_join (sep : string) (elems : list value) : result string :=
  parts <- elementTexts elems ;;
  Ok (join sep parts).

End JsText.
Import JsText.

(** ** The route handler *)

Module Post.

(** [getAnswer] of [buildCanvasGenerationUserPrompt] on the parsed body,
    before any type is assumed, and the text that the template makes of
    its result.  No question id is a property of arrays or of
    [Object.prototype], so [answers[id]] is an own property of an object
    and [undefined] on an array. *)
Definition getAnswer_value (answers : value) (id : string) : result string :=
  let val := field answers id in
  match val with
  | VArr elems => array_join ", " elems
  | _ => ToString (js_or val (VStr ""))
  end.

Fixpoint readAnswers (answers : value) (ids : list string)
    : result (list (string * Answer)) :=
  match ids with
  | [] => Ok []
  | id :: ids' =>
      text <- getAnswer_value answers id ;;
      rest <- readAnswers answers ids' ;;
      Ok ((id, Text text) :: rest)
  end.

(** [buildCanvasGenerationUserPrompt(answers)] on the parsed body: the
    template reads its 23 answers in order, each read can throw, and the
    prompt is the template at the 23 texts. *)
Definition userPromptOf (answers : value) : result string :=
  texts <- readAnswers answers canvasQuestionIds ;;
  Ok (buildCanvasGenerationUserPrompt (answersOf texts)).

(** [NextResponse.json(body, { status })], 200 when no status is given. *)
Record Response := {
  status : Z;
  body : value
}.

(** What [console.error] is given after its label: a text or an error. *)
Inductive Logged :=
  | LoggedText (text : string)
  | LoggedError (e : JsError).

Definition Log := list (string * Logged).

Section Handler.

Variable generateText : GenerateTextRequest -> result string.
Variable JSON_parse : string -> option value.

(** The [message] of a [TypeError] that the engine throws. *)
Variable typeErrorMessage : string.

Definition message (e : JsError) : string :=
  match e with
  | TypeError => typeErrorMessage
  | Error m => m
  end.

(** The [try] block of [POST]: the response it returns or the exception
    it throws, and the lines logged on the way.  [requestJson] is the
    outcome of [request.json()]. *)
Definition tryPOST (requestJson : result value) : result Response * Log :=
  match requestJson with
  | Throw e => (Throw e, [])
  | Ok body =>
      match get body "answers" with
      | Throw e => (Throw e, [])
      | Ok answers =>
          if negb (truthy answers) || negb (typeofObject answers) then
            (Ok {| status := 400;
                   body := VObj [("error",
                                  VStr "Missing required field: answers")] |},
             [])
          else
            (* Build prompts *)
            let systemPrompt := buildCanvasGenerationSystemPrompt in
            match userPromptOf answers with
            | Throw e => (Throw e, [])
            | Ok userPrompt =>
                let w :=
                  {| store := [ {| role := system; content := systemPrompt |};
                                {| role := user; content := userPrompt |} ];
                     console := [] |} in
                let (course, w') :=
                  generateJSONResponse generateText JSON_parse [0; 1]
                    {| temperature := Some (7 # 10)%Q;
                       maxTokens := Some 16000%Z |} w in
                let log :=
                  map (fun line : string * string =>
                         (fst line, LoggedText (snd line))) (console w') in
                match course with
                | Throw e => (Throw e, log)
                | Ok course =>
                    match normalizeCourse course with
                    | Throw e => (Throw e, log)
                    | Ok modules =>
                        (Ok {| status := 200;
                               body := VObj [("course",
                                              withModules course modules)] |},
                         log)
                    end
                end
            end
      end
  end.

(** [POST]: the [catch] turns every exception into a 500 response. *)
Definition POST (requestJson : result value) : Response * Log :=
  match tryPOST requestJson with
  | (Ok response, log) => (response, log)
  | (Throw error, log) =>
      ({| status := 500;
          body := VObj [("error",
                         js_or (VStr (message error))
                           (VStr "Course generation failed"))] |},
       (log ++ [("Canvas generation error:", LoggedError error)])%list)
  end.

End Handler.

(** The request that the handler sends for a user prompt, and the world
    of its two messages once the JSON instruction is added. *)
Definition courseRequest (userPrompt : string) : GenerateTextRequest :=
  {| req_system := Some buildCanvasGenerationSystemPrompt;
     req_messages := [(user, userPrompt ++ jsonInstruction)];
     req_temperature := (7 # 10)%Q;
     req_maxTokens := 16000%Z |}.

Definition courseWorld (userPrompt : string) : World :=
  {| store := [ {| role := system;
                   content := buildCanvasGenerationSystemPrompt |};
                {| role := user; content := userPrompt ++ jsonInstruction |} ];
     console := [] |}.

(** The body of an error response. *)
Definition errorBody (text : string) : value := VObj [("error", VStr text)].

(** The answers of a body as the types of the source describe them: a
    string is a text, an array gives the list of its strings. *)
Definition stringsOf (elems : list value) : list string :=
  flat_map (fun x => match x with VStr s => [s] | _ => [] end) elems.

Definition typedAnswers (answers : value) : Answers :=
  fun id =>
    match field answers id with
    | VStr s => Some (Text s)
    | VArr elems => Some (Choices (stringsOf elems))
    | _ => None
    end.

Definition isString (v : value) : bool :=
  match v with
  | VStr _ => true
  | _ => false
  end.

(** An answer of the type [string | string[]], or none. *)
Definition wellTyped (v : value) : bool :=
  match v with
  | VUndefined | VStr _ => true
  | VArr elems => forallb isString elems
  | _ => false
  end.

End Post.
Import Post.

(** ** Sample inputs *)

Module Samples.

Definition samplePage : CanvasModuleItem :=
  {| item_id := "item-1-1";
     item_type := "page";
     item_title := "Q&A: <intro>";
     item_content := Some "<p>Hello</p>";
     item_position := 7777;
     item_points := None;
     item_rubric := None;
     item_questions := None;
     item_prompt := None |}.

Definition sampleQuestion : QuizQuestion :=
  {| question_type := "multiple_choice";
     question_text := "Pick one";
     question_points := 10;
     question_answers :=
       Some [ {| answer_text := "A"; answer_correct := false |};
              {| answer_text := "B"; answer_correct := true |} ] |}.

Definition sampleEssay : QuizQuestion :=
  {| question_type := "essay";
     question_text := "Explain";
     question_points := 5;
     question_answers := None |}.


Definition sampleQuiz : CanvasModuleItem :=
  {| item_id := "item-1-2";
     item_type := "quiz";
     item_title := "Check";
     item_content := None;
     item_position := 7777;
     item_points := Some 10%Z;
     item_rubric := None;
     item_questions := Some [sampleQuestion];
     item_prompt := None |}.

Definition sampleVideo : CanvasModuleItem :=
  {| item_id := "item-2-1";
     item_type := "video";
     item_title := "Watch";
     item_content := None;
     item_position := 7777;
     item_points := None;
     item_rubric := None;
     item_questions := None;
     item_prompt := None |}.

Definition sampleEmptyQuiz : CanvasModuleItem :=
  {| item_id := "item-3-1";
     item_type := "quiz";
     item_title := "Q&A";
     item_content := None;
     item_position := 1;
     item_points := None;
     item_rubric := None;
     item_questions := None;
     item_prompt := None |}.

(** The same quiz with a double quote in its [id]. *)
Definition sampleQuotedIdQuiz : CanvasModuleItem :=
  {| item_id := T "a'b";
     item_type := "quiz";
     item_title := "Q&A";
     item_content := None;
     item_position := 1;
     item_points := None;
     item_rubric := None;
     item_questions := None;
     item_prompt := None |}.

Definition sampleCourse : GeneratedCourse :=
  {| course_title := "Intro to X";
     course_description := "Basics";
     course_welcomeMessage := "";
     course_modules :=
       [ {| module_id := "module-1";
            module_name := "Start";
            module_position := 7777;
            module_items := [samplePage; sampleQuiz] |};
         {| module_id := "module-2";
            module_name := "More";
            module_position := 7777;
            module_items := [sampleVideo] |} ] |}.

(** An LLM reply, parsed: one module whose [id] is the empty string and
    whose [position] is 0, with one item whose [title] is the empty
    string; a second module with nothing but an item with nothing. *)
Definition sampleRawItem : value :=
  VObj [("id", VStr "intro"); ("title", VStr ""); ("position", VNum 0);
        ("content", VStr "<p>Hi</p>")].

Definition sampleRawModule : value :=
  VObj [("id", VStr ""); ("name", VStr "Week one"); ("position", VNum 0);
        ("items", VArr [sampleRawItem])].

Definition sampleRawCourse : value :=
  VObj [("title", VStr "Intro to X");
        ("modules", VArr [sampleRawModule; VObj [("items", VArr [VObj []])]])].

(** A stand-in for [JSON.parse] that knows the two smallest documents. *)
Definition sampleParse (text : string) : option value :=
  if String.eqb text "{}" then Some (VObj [])
  else if String.eqb text "[]" then Some (VArr [])
  else None.

(** A caller's world: one user message, nothing logged. *)
Definition sampleWorld : World :=
  {| store := [ {| role := user; content := "List three colours" |} ];
     console := [] |}.

Definition sampleOptions : LLMOptions :=
  {| temperature := None; maxTokens := None |}.

End Samples.
Import Samples.

(** ** More sample inputs *)

Module MoreSamples.


(** A reply whose two modules carry nothing, and its normalization. *)
Definition sampleBareCourse : value :=
  VObj [("title", VStr "T"); ("modules", VArr [VObj []; VObj []])].

Definition sampleBareModules : list NormalizedModule :=
  [ {| out_module_id := VStr "module-1"; out_module_name := VStr "Module 1";
       out_module_position := VNum 1; out_module_items := [] |};
    {| out_module_id := VStr "module-2"; out_module_name := VStr "Module 2";
       out_module_position := VNum 2; out_module_items := [] |} ].

(** An item of an unrecognized type whose id holds a slash, a page whose
    id holds one, and a quiz whose title holds a vertical tab. *)
Definition sampleSlashVideo : CanvasModuleItem :=
  {| item_id := "assignments/x";
     item_type := "video";
     item_title := "Watch";
     item_content := None;
     item_position := 1;
     item_points := None;
     item_rubric := None;
     item_questions := None;
     item_prompt := None |}.

Definition sampleSlashPage : CanvasModuleItem :=
  {| item_id := "unit1/intro";
     item_type := "page";
     item_title := "Intro";
     item_content := None;
     item_position := 1;
     item_points := None;
     item_rubric := None;
     item_questions := None;
     item_prompt := None |}.

Definition sampleTabQuiz : CanvasModuleItem :=
  {| item_id := "quiz-1";
     item_type := "quiz";
     item_title := "Unit" ++ String "011" "1";
     item_content := None;
     item_position := 1;
     item_points := None;
     item_rubric := None;
     item_questions := None;
     item_prompt := None |}.

(** A page whose id holds an entity reference. *)
Definition sampleEntityPage : CanvasModuleItem :=
  {| item_id := "a&amp;b";
     item_type := "page";
     item_title := "Intro";
     item_content := None;
     item_position := 1;
     item_points := None;
     item_rubric := None;
     item_questions := None;
     item_prompt := None |}.

Definition sampleEntityCourse : GeneratedCourse :=
  {| course_title := "T";
     course_description := "";
     course_welcomeMessage := "";
     course_modules :=
       [ {| module_id := "m"; module_name := "M"; module_position := 1;
            module_items := [sampleEntityPage] |} ] |}.

(** A conversation with two system messages. *)
Definition sampleChat : World :=
  {| store := [ {| role := system; content := "Be brief" |};
                {| role := user; content := "Hi" |};
                {| role := system; content := "Be thorough" |};
                {| role := assistant; content := "Hello" |} ];
     console := [] |}.

(** The two fresh messages of a route: a system prompt and a request. *)
Definition samplePair : World :=
  {| store := [ {| role := system; content := "You design courses." |};
                {| role := user; content := "Design a course." |} ];
     console := [] |}.

(** The answers of a form, one of them a list of choices and one under an
    id that no prompt names. *)
Definition sampleAnswers : Answers :=
  answersOf
    [ ("course-title", Text "Logic");
      ("assignment-types", Choices ["Essays"; "Quizzes"]);
      ("office-hours", Text "Mondays") ].

Definition sampleStructure : ModuleStructure :=
  {| structure_id := "module-1";
     structure_name := "Proofs";
     structure_position := 1;
     structure_items :=
       [ {| structure_item_id := "item-1-1"; structure_item_type := "page";
            structure_item_title := "Induction";
            structure_item_position := 1 |};
         {| structure_item_id := "item-1-2"; structure_item_type := "quiz";
            structure_item_title := "Check";
            structure_item_position := 2 |} ] |}.

(** A request body, the reply of a provider and the course it holds. *)
Definition sampleBody : value :=
  VObj [("answers",
         VObj [("course-title", VStr "Logic");
               ("assignment-types", VArr [VStr "Essays"; VStr "Quizzes"])])].

Definition sampleReply : string := T "{'title':'Logic','modules':[{}]}".

Definition sampleReplyCourse : value :=
  VObj [("title", VStr "Logic"); ("modules", VArr [VObj []])].

Definition sampleProvider (req : GenerateTextRequest) : result string :=
  Ok sampleReply.

Definition sampleJsonParse (text : string) : option value :=
  if String.eqb text sampleReply then Some sampleReplyCourse else None.

End MoreSamples.
Import MoreSamples.

(* ===================================================================== *)
(** * Part II.  Properties                                                *)
(* ===================================================================== *)

(** ** The model at work *)

Example exportToIMSCC_sample_paths :
  map fst (exportToIMSCC "o1" "m1" sampleCourse)
  = [ "imsmanifest.xml"; "course_overview.html"; "assignments/";
      "discussions/"; "quizzes/"; "item-1-1.html"; "quizzes/item-1-2.xml";
      "item-2-1.html" ].
Proof. vm_compute. reflexivity. Qed.

Example normalizeCourse_sample_ids :
  option_map (map out_module_id)
    (match normalizeCourse sampleRawCourse with
     | Ok out => Some out
     | Throw _ => None
     end)
  = Some [VStr "module-1"; VStr "module-2"].
Proof. vm_compute. reflexivity. Qed.

Example normalizeCourse_null_module :
  normalizeCourse (VObj [("title", VStr "T"); ("modules", VArr [VNull])])
  = Throw TypeError.
Proof. vm_compute. reflexivity. Qed.

Example normalizeCourse_no_title :
  normalizeCourse (VObj [("modules", VArr [])])
  = Throw (Error "Invalid course structure returned from LLM").
Proof. vm_compute. reflexivity. Qed.

Example cleanResponse_fenced :
  cleanResponse ("  ```json" ++ nl ++ "[1, 2]" ++ nl ++ "```" ++ nl) = "[1, 2]".
Proof. vm_compute. reflexivity. Qed.

Example escapeXml_sample :
  escapeXml "1 < 2 && 3 > 2" = "1 &lt; 2 &amp;&amp; 3 &gt; 2".
Proof. vm_compute. reflexivity. Qed.

Example wellFormed_samples :
  Xml.wellFormed (generateQuizQti sampleQuiz) = true
  /\ Xml.wellFormed (generateManifest "o1" "m1" sampleCourse) = true
  /\ Xml.wellFormed "<a><b></a></b>" = false
  /\ Xml.wellFormed "<a>x & y</a>" = false.
Proof. repeat split; vm_compute; reflexivity. Qed.

(** What the recognizer refuses: a character that XML forbids, an
    attribute given twice, a declaration that does not begin the
    document, a reference to an entity that is not predefined, text
    outside the root, a second root. *)
Example wellFormed_refusals :
  Xml.wellFormed (T "<a b='1' c='2'>x &amp; y</a>") = true
  /\ Xml.wellFormed (Xml.xmlDeclaration ++ nl ++ "<a/>" ++ nl) = true
  /\ Xml.wellFormed ("<a>" ++ String "011" "" ++ "</a>") = false
  /\ Xml.wellFormed ("<a>" ++ String "001" "" ++ "</a>") = false
  /\ Xml.wellFormed (T "<a b='1' b='2'/>") = false
  /\ Xml.wellFormed (Xml.xmlDeclaration ++ Xml.xmlDeclaration ++ "<a/>") = false
  /\ Xml.wellFormed (nl ++ Xml.xmlDeclaration ++ "<a/>") = false
  /\ Xml.wellFormed "<a><?xml version='1.0'?></a>" = false
  /\ Xml.wellFormed "<a>&nbsp;</a>" = false
  /\ Xml.wellFormed "<a>]]></a>" = false
  /\ Xml.wellFormed (T "<a b='<'/>") = false
  /\ Xml.wellFormed (T "<a b='1'c='2'/>") = false
  /\ Xml.wellFormed "x<a/>" = false
  /\ Xml.wellFormed "<a/><b/>" = false
  /\ Xml.wellFormed "<a>" = false.
Proof. repeat split; vm_compute; reflexivity. Qed.

(** ** Facts about strings *)

Module StringFacts.

Lemma append_assoc (a b c : string) : (a ++ b) ++ c = a ++ (b ++ c).
Proof. induction a as [|x a IH]; simpl; [reflexivity | now rewrite IH]. Qed.

Lemma append_nil_r (a : string) : a ++ "" = a.
Proof. induction a as [|x a IH]; simpl; [reflexivity | now rewrite IH]. Qed.

Lemma length_append (a b : string) :
  String.length (a ++ b) = String.length a + String.length b.
Proof. induction a as [|x a IH]; simpl; [reflexivity | now rewrite IH]. Qed.

Lemma prefix_append (n r : string) : String.prefix n (n ++ r) = true.
Proof.
  induction n as [|x n IH]; simpl.
  - now destruct r.
  - destruct (ascii_dec x x) as [_|ne]; [exact IH | now elim ne].
Qed.

Lemma prefix_split (n s : string) :
  String.prefix n s = true -> exists r, s = n ++ r.
Proof.
  revert s; induction n as [|x n IH]; intros s H.
  - now exists s.
  - destruct s as [|y s]; simpl in H; [discriminate|].
    destruct (ascii_dec x y) as [->|]; [|discriminate].
    destruct (IH _ H) as [r ->]. now exists r.
Qed.

Lemma prefix_nil (s : string) : String.prefix "" s = true.
Proof. now destruct s. Qed.

(** [includes] is the substring relation. *)
Lemma includes_of_prefix (n s : string) :
  String.prefix n s = true -> includes n s = true.
Proof. destruct s; simpl; intros ->; reflexivity. Qed.

Lemma includes_cons (n : string) (x : ascii) (s : string) :
  includes n (String x s) = String.prefix n (String x s) || includes n s.
Proof. cbn [includes]. now destruct (String.prefix n (String x s)). Qed.

Lemma includes_intro (n a b : string) : includes n (a ++ n ++ b) = true.
Proof.
  induction a as [|x a IH].
  - cbn [append]. apply includes_of_prefix, prefix_append.
  - cbn [append]. rewrite includes_cons, IH. apply orb_true_r.
Qed.

Lemma includes_elim (n s : string) :
  includes n s = true -> exists a b, s = a ++ n ++ b.
Proof.
  induction s as [|x s IH]; intros H.
  - cbn [includes] in H.
    destruct (String.prefix n "") eqn:E; [|discriminate].
    destruct (prefix_split _ _ E) as [r ->]. now exists "", r.
  - rewrite includes_cons in H.
    destruct (String.prefix n (String x s)) eqn:E.
    + destruct (prefix_split _ _ E) as [r ->]. now exists "", r.
    + destruct (IH H) as (a & b & ->). now exists (String x a), b.
Qed.

Lemma includes_spec (n s : string) :
  includes n s = true <-> exists a b, s = a ++ n ++ b.
Proof.
  split; [apply includes_elim | intros (a & b & ->); apply includes_intro].
Qed.

Lemma includes_head (n r : string) : includes n (n ++ r) = true.
Proof. exact (includes_intro n "" r). Qed.

Lemma includes_refl (n : string) : includes n n = true.
Proof. rewrite <- (append_nil_r n) at 2. apply includes_head. Qed.

Lemma includes_append_r (n a b : string) :
  includes n b = true -> includes n (a ++ b) = true.
Proof.
  intros H. destruct (includes_elim _ _ H) as (x & y & ->).
  rewrite <- append_assoc. apply includes_intro.
Qed.

Lemma includes_append_l (n a b : string) :
  includes n a = true -> includes n (a ++ b) = true.
Proof.
  intros H. destruct (includes_elim _ _ H) as (x & y & ->).
  rewrite !append_assoc. apply includes_intro.
Qed.

Lemma includes_trans (a b c : string) :
  includes a b = true -> includes b c = true -> includes a c = true.
Proof.
  intros H1 H2.
  destruct (includes_elim _ _ H1) as (x & y & ->).
  destruct (includes_elim _ _ H2) as (u & v & ->).
  rewrite !append_assoc, <- (append_assoc u x). apply includes_intro.
Qed.

Lemma mem_char_append (c : ascii) (a b : string) :
  mem_char c (a ++ b) = mem_char c a || mem_char c b.
Proof.
  induction a as [|x a IH]; simpl; [reflexivity|].
  now rewrite IH, orb_assoc.
Qed.

Lemma transparent_nil (n : string) : transparent n "".
Proof. now intros r. Qed.

Lemma transparent_append (n a b : string) :
  transparent n a -> transparent n b -> transparent n (a ++ b).
Proof. intros Ha Hb r. now rewrite append_assoc, Ha, Hb. Qed.

Lemma transparent_absent (n x : string) :
  n <> "" -> transparent n x -> includes n x = false.
Proof.
  intros Hn H. rewrite <- (append_nil_r x), H.
  destruct n; [now elim Hn | reflexivity].
Qed.

Lemma prefix_head_mismatch (c x : ascii) (n s : string) :
  Ascii.eqb x c = false -> String.prefix (String c n) (String x s) = false.
Proof.
  intros H. simpl. destruct (ascii_dec c x) as [->|]; [|reflexivity].
  now rewrite Ascii.eqb_refl in H.
Qed.

(** Text without the needle's first character is transparent. *)
Lemma transparent_free (c : ascii) (n x : string) :
  mem_char c x = false -> transparent (String c n) x.
Proof.
  induction x as [|y x IH]; intros H r; [reflexivity|].
  simpl in H. apply orb_false_iff in H as [Hy Hx].
  cbn [append]. rewrite includes_cons, (prefix_head_mismatch _ _ _ _ Hy).
  now apply IH.
Qed.

Lemma prefix_append_cases (n a r : string) :
  String.prefix n (a ++ r) = true ->
  String.prefix n a = true \/ proper_prefix a n = true.
Proof.
  revert a; induction n as [|y n IH]; intros a H.
  - left. apply prefix_nil.
  - destruct a as [|x a]; [now right|].
    cbn [append] in H. simpl in H. simpl.
    destruct (ascii_dec y x) as [->|]; [|discriminate].
    rewrite Ascii.eqb_refl. simpl. now apply IH.
Qed.

Lemma transparent_literal (n a : string) :
  literal_ok n a = true -> transparent n a.
Proof.
  induction a as [|x a IH]; intros H r; [reflexivity|].
  cbn [literal_ok] in H.
  apply andb_true_iff in H as [H Ha]. apply andb_true_iff in H as [H1 H2].
  cbn [append]. rewrite includes_cons.
  destruct (String.prefix n (String x (a ++ r))) eqn:E.
  - apply (prefix_append_cases n (String x a) r) in E. destruct E as [E|E].
    + now rewrite E in H1.
    + now rewrite E in H2.
  - now apply IH.
Qed.

Lemma transparent_join (n : string) (parts : list string) :
  Forall (transparent n) parts -> transparent n (join "" parts).
Proof.
  unfold join. induction 1 as [|p ps Hp _ IH]; [apply transparent_nil|].
  destruct ps as [|q ps].
  - exact Hp.
  - cbn [String.concat]. apply transparent_append; [exact Hp|].
    cbn [append]. exact IH.
Qed.

Lemma prefix_cons (a : ascii) (p : string) (b : ascii) (s : string) :
  String.prefix (String a p) (String b s) = Ascii.eqb a b && String.prefix p s.
Proof.
  cbn [String.prefix]. destruct (ascii_dec a b) as [->|n].
  - now rewrite Ascii.eqb_refl.
  - apply Ascii.eqb_neq in n. now rewrite n.
Qed.

Lemma slice_from_split (k : nat) (s : string) :
  k <= String.length s ->
  exists a, s = a ++ slice_from k s /\ String.length a = k.
Proof.
  revert s; induction k as [|k IH]; intros s Hk.
  - now exists "".
  - destruct s as [|x s]; [simpl in Hk; lia|].
    simpl in Hk. destruct (IH s) as (a & E & L); [lia|].
    exists (String x a). cbn [slice_from append String.length].
    now rewrite <- E, L.
Qed.

Lemma endsWith_split (p s : string) :
  endsWith p s = true -> exists a, s = a ++ p.
Proof.
  unfold endsWith. intros H. apply andb_true_iff in H as [Hl He].
  apply Nat.leb_le in Hl. apply String.eqb_eq in He.
  destruct (slice_from_split (String.length s - String.length p) s) as (a & E & _);
    [lia|].
  exists a. now rewrite <- He.
Qed.

(** A text between two markers, found between a literal that ends with
    the first marker and one that starts with the second. *)
Lemma includes_between (u v a x b : string) :
  endsWith u a = true -> String.prefix v b = true ->
  includes (u ++ x ++ v) (a ++ x ++ b) = true.
Proof.
  intros Ha Hb.
  destruct (endsWith_split _ _ Ha) as [a' ->].
  destruct (prefix_split _ _ Hb) as [b' ->].
  apply includes_spec. exists a', b'. now rewrite !append_assoc.
Qed.

Lemma includes_join_In (n x : string) (parts : list string) :
  In x parts -> includes n x = true -> includes n (join "" parts) = true.
Proof.
  unfold join. induction parts as [|p ps IH]; intros Hin Hx; [easy|].
  assert (E : String.concat "" (p :: ps) = p ++ String.concat "" ps).
  { destruct ps; cbn [String.concat append]; [now rewrite append_nil_r | reflexivity]. }
  rewrite E. destruct Hin as [->|Hin].
  - now apply includes_append_l.
  - apply includes_append_r. now apply IH.
Qed.

End StringFacts.
Import StringFacts.

(** ** [escapeXml] *)

Lemma replaceAll_append (c : ascii) (r a b : string) :
  replaceAll c r (a ++ b) = replaceAll c r a ++ replaceAll c r b.
Proof.
  induction a as [|x a IH]; [reflexivity|].
  cbn [append replaceAll]. rewrite IH.
  destruct (Ascii.eqb x c); [now rewrite append_assoc | reflexivity].
Qed.

Lemma escapeXml_append (a b : string) :
  escapeXml (a ++ b) = escapeXml a ++ escapeXml b.
Proof. unfold escapeXml. now rewrite !replaceAll_append. Qed.

Lemma escapeXml_char (c : ascii) : escapeXml (String c "") = escapeChar c.
Proof. destruct c as [[] [] [] [] [] [] [] []]; reflexivity. Qed.

(** The five replacements in sequence amount to replacing every character
    on its own: an entity written by an earlier pass contains no character
    that a later pass replaces. *)
Lemma escapeXml_escapeEach (text : string) : escapeXml text = escapeEach text.
Proof.
  induction text as [|c text IH]; [reflexivity|].
  change (String c text) with (String c "" ++ text).
  rewrite escapeXml_append, escapeXml_char, IH. reflexivity.
Qed.

Lemma escapeChar_plain (c : ascii) :
  c <> "&"%char -> c <> "<"%char -> c <> ">"%char ->
  c <> dquote_char -> c <> "'"%char ->
  escapeChar c = String c "".
Proof.
  intros H1 H2 H3 H4 H5. unfold escapeChar.
  repeat match goal with
  | |- context [Ascii.eqb c ?x] =>
      destruct (Ascii.eqb_spec c x); [congruence|]
  end.
  reflexivity.
Qed.

Lemma escapeChar_no_markup (c : ascii) :
  mem_char "<"%char (escapeChar c) = false
  /\ mem_char ">"%char (escapeChar c) = false
  /\ mem_char dquote_char (escapeChar c) = false
  /\ mem_char "'"%char (escapeChar c) = false.
Proof. destruct c as [[] [] [] [] [] [] [] []]; repeat split; reflexivity. Qed.

Lemma escapeXml_no_lt (text : string) :
  mem_char "<"%char (escapeXml text) = false.
Proof.
  rewrite escapeXml_escapeEach.
  induction text as [|c text IH]; [reflexivity|].
  cbn [escapeEach]. rewrite mem_char_append, IH.
  now destruct (escapeChar_no_markup c) as (-> & _).
Qed.

Lemma string_of_uint_no_lt (d : Decimal.uint) :
  mem_char "<"%char (NilEmpty.string_of_uint d) = false.
Proof. induction d; simpl; auto. Qed.

Lemma Number_toString_no_lt (z : Z) :
  mem_char "<"%char (Number_toString z) = false.
Proof.
  unfold Number_toString. destruct (Z.to_int z); simpl;
    apply string_of_uint_no_lt.
Qed.
(** ** The loops of [generateManifest] *)

Lemma manifestItemStep_fold (items : list CanvasModuleItem)
    (resources moduleItems : list string) :
  fold_left manifestItemStep items (resources, moduleItems)
  = ((resources ++ map itemResourceXml items)%list,
     (moduleItems ++ map itemLeafXml items)%list).
Proof.
  revert resources moduleItems.
  induction items as [|item items IH]; intros resources moduleItems.
  - cbn [fold_left map]. now rewrite !app_nil_r.
  - cbn [fold_left map]. unfold manifestItemStep at 2.
    destruct (resourceTypeAndHref item) as [resourceType href] eqn:E.
    rewrite IH, <- !app_assoc. unfold itemResourceXml, itemLeafXml.
    rewrite E. reflexivity.
Qed.

Lemma manifestModuleStep_fold (modules : list CanvasModule)
    (resources items : list string) :
  fold_left manifestModuleStep modules (resources, items)
  = ((resources ++ map itemResourceXml (flat_map module_items modules))%list,
     (items ++ map moduleNodeXml modules)%list).
Proof.
  revert resources items.
  induction modules as [|m modules IH]; intros resources items.
  - cbn [fold_left map flat_map]. now rewrite !app_nil_r.
  - cbn [fold_left map flat_map]. unfold manifestModuleStep at 2.
    rewrite manifestItemStep_fold, IH, map_app, <- !app_assoc.
    reflexivity.
Qed.

Lemma generateManifest_in_order (overviewId manifestId : string)
    (course : GeneratedCourse) :
  generateManifest overviewId manifestId course
  = manifestInOrder overviewId manifestId course.
Proof.
  unfold generateManifest, manifestInOrder, allItems.
  now rewrite manifestModuleStep_fold.
Qed.

Lemma itemLeafXml_title (item : CanvasModuleItem) :
  includes ("<title>" ++ escapeXml (item_title item) ++ "</title>")
    (itemLeafXml item) = true.
Proof.
  unfold itemLeafXml, moduleItemXml.
  do 4 apply includes_append_r.
  apply includes_between; reflexivity.
Qed.

Lemma moduleNodeXml_name (m : CanvasModule) :
  includes ("<title>" ++ escapeXml (module_name m) ++ "</title>")
    (moduleNodeXml m) = true.
Proof.
  unfold moduleNodeXml, moduleXml.
  do 2 apply includes_append_r.
  apply includes_between; reflexivity.
Qed.

Lemma moduleNodeXml_leaf (m : CanvasModule) (item : CanvasModuleItem) :
  In item (module_items m) ->
  includes (itemLeafXml item) (moduleNodeXml m) = true.
Proof.
  intros Hi. unfold moduleNodeXml, moduleXml.
  do 5 apply includes_append_r. apply includes_append_l.
  apply includes_join_In with (x := itemLeafXml item).
  - now apply in_map.
  - apply includes_refl.
Qed.

Lemma manifestXml_item (manifestId title description x : string)
    (items resources : list string) :
  In x items ->
  includes x (manifestXml manifestId title description items resources) = true.
Proof.
  intros Hx. unfold manifestXml.
  do 7 apply includes_append_r. apply includes_append_l.
  apply includes_join_In with (x := x); [exact Hx | apply includes_refl].
Qed.

Lemma manifestXml_resource (manifestId title description x : string)
    (items resources : list string) :
  In x resources ->
  includes x (manifestXml manifestId title description items resources) = true.
Proof.
  intros Hx. unfold manifestXml.
  do 9 apply includes_append_r. apply includes_append_l.
  apply includes_join_In with (x := x); [exact Hx | apply includes_refl].
Qed.

Lemma manifestXml_title (manifestId title description : string)
    (items resources : list string) :
  includes ("<lomimscc:title>
          <lomimscc:string>" ++ escapeXml title ++ "</lomimscc:string>")
    (manifestXml manifestId title description items resources) = true.
Proof.
  unfold manifestXml.
  do 2 apply includes_append_r.
  apply includes_between; reflexivity.
Qed.

Lemma manifestXml_description (manifestId title description : string)
    (items resources : list string) :
  includes ("<lomimscc:description>
          <lomimscc:string>" ++ escapeXml description ++ "</lomimscc:string>")
    (manifestXml manifestId title description items resources) = true.
Proof.
  unfold manifestXml.
  do 4 apply includes_append_r.
  apply includes_between; reflexivity.
Qed.

Lemma generatePageHtml_title (title content : string) :
  includes ("<title>" ++ escapeXml title ++ "</title>")
    (generatePageHtml title content) = true.
Proof.
  unfold generatePageHtml. apply includes_between; reflexivity.
Qed.

Lemma itemHtml_title (item : CanvasModuleItem) :
  includes ("<title>" ++ escapeXml (item_title item) ++ "</title>")
    (generateAssignmentHtml item) = true
  /\ includes ("<title>" ++ escapeXml (item_title item) ++ "</title>")
       (generateDiscussionHtml item) = true.
Proof.
  split.
  - unfold generateAssignmentHtml. apply includes_between; reflexivity.
  - unfold generateDiscussionHtml. apply includes_between; reflexivity.
Qed.

(** C5.  [escapeXml] replaces each of the five characters by its entity
    and copies every other character; the manifest carries the course
    title and description, the module names and the item titles in this
    escaped form, and so does the [<title>] of every HTML page. *)
Theorem escapeXml_entities_and_use :
  (forall text, escapeXml text = escapeEach text)
  /\ escapeChar "&"%char = "&amp;"
  /\ escapeChar "<"%char = "&lt;"
  /\ escapeChar ">"%char = "&gt;"
  /\ escapeChar dquote_char = "&quot;"
  /\ escapeChar "'"%char = "&apos;"
  /\ (forall c, c <> "&"%char -> c <> "<"%char -> c <> ">"%char ->
        c <> dquote_char -> c <> "'"%char -> escapeChar c = String c "")
  /\ (forall overviewId manifestId course,
        let manifest := generateManifest overviewId manifestId course in
        includes ("<lomimscc:title>
          <lomimscc:string>" ++ escapeXml (course_title course) ++ "</lomimscc:string>")
          manifest = true
        /\ includes ("<lomimscc:description>
          <lomimscc:string>" ++ escapeXml (course_description course) ++ "</lomimscc:string>")
          manifest = true
        /\ forall m, In m (course_modules course) ->
             includes ("<title>" ++ escapeXml (module_name m) ++ "</title>")
               manifest = true
             /\ forall item, In item (module_items m) ->
                  includes ("<title>" ++ escapeXml (item_title item) ++ "</title>")
                    manifest = true)
  /\ (forall title content,
        includes ("<title>" ++ escapeXml title ++ "</title>")
          (generatePageHtml title content) = true)
  /\ (forall item,
        includes ("<title>" ++ escapeXml (item_title item) ++ "</title>")
          (generateAssignmentHtml item) = true
        /\ includes ("<title>" ++ escapeXml (item_title item) ++ "</title>")
             (generateDiscussionHtml item) = true).
Proof.
  split; [exact escapeXml_escapeEach|].
  do 5 (split; [reflexivity|]).
  split; [exact escapeChar_plain|].
  split; [|split; [exact generatePageHtml_title | exact itemHtml_title]].
  intros overviewId manifestId course manifest. subst manifest.
  rewrite generateManifest_in_order. unfold manifestInOrder.
  split; [apply manifestXml_title|].
  split; [apply manifestXml_description|].
  intros m Hm.
  assert (Hnode : includes (moduleNodeXml m)
            (manifestXml manifestId (course_title course)
               (course_description course)
               (overviewItemXml overviewId
                :: map moduleNodeXml (course_modules course))
               (overviewResourceXml overviewId
                :: map itemResourceXml (allItems course))) = true).
  { apply manifestXml_item. right. now apply in_map. }
  split.
  - exact (includes_trans _ _ _ (moduleNodeXml_name m) Hnode).
  - intros item Hi.
    apply (includes_trans _ (moduleNodeXml m)); [|exact Hnode].
    exact (includes_trans _ _ _ (itemLeafXml_title item)
             (moduleNodeXml_leaf m item Hi)).
Qed.

Lemma escapeXml_entities_and_use_witness :
  escapeXml (T "<a href='x'>Q&A" ++ "'s</a>")
  = "&lt;a href=&quot;x&quot;&gt;Q&amp;A&apos;s&lt;/a&gt;"
  /\ escapeChar "x" = "x"
  /\ includes "<title>Q&amp;A: &lt;intro&gt;</title>"
       (generateManifest "o1" "m1" sampleCourse) = true.
Proof.
  destruct escapeXml_entities_and_use
    as (Heach & _ & _ & _ & _ & _ & Hplain & Hmanifest & _ & _).
  split; [rewrite Heach; reflexivity|].
  split; [apply Hplain; discriminate|].
  destruct (Hmanifest "o1" "m1" sampleCourse) as (_ & _ & Hmod).
  destruct (Hmod {| module_id := "module-1"; module_name := "Start";
                    module_position := 7777;
                    module_items := [samplePage; sampleQuiz] |}
              (or_introl eq_refl)) as [_ Hitem].
  exact (Hitem samplePage (or_introl eq_refl)).
Defined.

(** ** Slicing *)

Lemma slice_from_length_append (a b : string) :
  slice_from (String.length a) (a ++ b) = b.
Proof. induction a as [|x a IH]; [now destruct b | exact IH]. Qed.

Lemma substring_length_append (a b : string) :
  String.substring 0 (String.length a) (a ++ b) = a.
Proof.
  induction a as [|x a IH]; [now destruct b|].
  cbn [String.length append String.substring]. now rewrite IH.
Qed.

Lemma endsWith_append (a p : string) : endsWith p (a ++ p) = true.
Proof.
  unfold endsWith. rewrite length_append.
  replace (String.length a + String.length p - String.length p)
    with (String.length a) by lia.
  rewrite slice_from_length_append, String.eqb_refl.
  apply andb_true_iff. split; [apply Nat.leb_le; lia | reflexivity].
Qed.

Lemma slice_drop_last_append (a p : string) :
  slice_drop_last (String.length p) (a ++ p) = a.
Proof.
  unfold slice_drop_last. rewrite length_append.
  replace (String.length a + String.length p - String.length p)
    with (String.length a) by lia.
  apply substring_length_append.
Qed.

Lemma lastChar_append (a : string) (c : ascii) (b : string) :
  lastChar (a ++ String c b) = lastChar (String c b).
Proof.
  induction a as [|x a IH]; [reflexivity|].
  cbn [append]. rewrite <- IH.
  cbn [lastChar]. now destruct (a ++ String c b) eqn:E; [destruct a|].
Qed.

(** ** The archive *)

Lemma zip_get_set_same (path : string) (e : ZipEntry) (zip : Zip) :
  zip_get path (zip_set path e zip) = Some e.
Proof.
  induction zip as [|[p e0] zip IH]; cbn [zip_set zip_get].
  - now rewrite String.eqb_refl.
  - destruct (String.eqb p path) eqn:E; cbn [zip_get]; now rewrite E.
Qed.

Lemma zip_get_set_other (path path' : string) (e : ZipEntry) (zip : Zip) :
  path' <> path ->
  zip_get path' (zip_set path e zip) = zip_get path' zip.
Proof.
  intros Hne. induction zip as [|[p e0] zip IH]; cbn [zip_set zip_get].
  - destruct (String.eqb_spec path path'); [congruence | reflexivity].
  - destruct (String.eqb_spec p path) as [->|]; cbn [zip_get].
    + destruct (String.eqb_spec path path'); [congruence | reflexivity].
    + now rewrite IH.
Qed.

Lemma zip_set_fresh (path : string) (e : ZipEntry) (zip : Zip) :
  zip_get path zip = None -> zip_set path e zip = (zip ++ [(path, e)])%list.
Proof.
  induction zip as [|[p e0] zip IH]; cbn [zip_set zip_get]; [reflexivity|].
  destruct (String.eqb p path); [discriminate|].
  intros H. now rewrite IH.
Qed.

Lemma zip_get_None (path : string) (zip : Zip) :
  ~ In path (map fst zip) -> zip_get path zip = None.
Proof.
  induction zip as [|[p e0] zip IH]; cbn [zip_get map fst]; [reflexivity|].
  intros H. destruct (String.eqb_spec p path) as [->|].
  - elim H. now left.
  - apply IH. intros Hin. apply H. now right.
Qed.

Lemma zip_get_In (path : string) (zip : Zip) :
  zip_get path zip = None -> ~ In path (map fst zip).
Proof.
  induction zip as [|[p e0] zip IH]; cbn [zip_get map fst]; [tauto|].
  destruct (String.eqb_spec p path) as [->|Hne]; [discriminate|].
  intros H [E | Hin]; [congruence | now apply IH].
Qed.

(** *** Folders above a path *)


Lemma lastIndexOfSlash_split (path : string) (i : nat) :
  lastIndexOfSlash path = Some i ->
  exists a b,
    path = a ++ "/" ++ b /\ String.length a = i /\ mem_char "/" b = false.
Proof.
  revert i. induction path as [|c path IH]; intros i H; [discriminate|].
  cbn [lastIndexOfSlash] in H.
  destruct (lastIndexOfSlash path) as [j|] eqn:E.
  - injection H as <-. destruct (IH j eq_refl) as (a & b & -> & Ha & Hb).
    exists (String c a), b. cbn [append String.length]. auto.
  - destruct (Ascii.eqb_spec c "/") as [->|]; [|discriminate].
    injection H as <-. exists "", path. repeat split.
    clear IH. induction path as [|x path IH]; [reflexivity|].
    cbn [lastIndexOfSlash] in E. cbn [mem_char].
    destruct (lastIndexOfSlash path); [discriminate|].
    destruct (Ascii.eqb x "/"); [discriminate|]. now apply IH.
Qed.

Lemma lastIndexOfSlash_none (path : string) :
  mem_char "/" path = false -> lastIndexOfSlash path = None.
Proof.
  induction path as [|c path IH]; [reflexivity|].
  cbn [mem_char lastIndexOfSlash]. intros H.
  apply orb_false_iff in H as [Hc Hp]. now rewrite (IH Hp), Hc.
Qed.

Lemma lastIndexOfSlash_last (a b : string) :
  mem_char "/" b = false ->
  lastIndexOfSlash (a ++ "/" ++ b) = Some (String.length a).
Proof.
  intros Hb. induction a as [|c a IH].
  - cbn [append lastIndexOfSlash String.length].
    now rewrite (lastIndexOfSlash_none _ Hb).
  - cbn [append lastIndexOfSlash String.length]. cbn [append] in IH.
    now rewrite IH.
Qed.

Lemma endsWith_slash_lastChar (path : string) :
  endsWith "/" path = true <-> lastChar path = Some "/"%char.
Proof.
  split.
  - intros H. destruct (endsWith_split _ _ H) as [a ->].
    now rewrite lastChar_append.
  - induction path as [|c path IH]; [discriminate|].
    destruct path as [|d path].
    + intros H. injection H as ->. reflexivity.
    + intros H. change (lastChar (String c (String d path)))
        with (lastChar (String d path)) in H.
      specialize (IH H). destruct (endsWith_split _ _ IH) as [a E].
      rewrite E. change (String c (a ++ "/")) with (String c a ++ "/").
      apply endsWith_append.
Qed.

Lemma forceTrailingSlash_lastChar (path : string) :
  lastChar (forceTrailingSlash path) = Some "/"%char.
Proof.
  unfold forceTrailingSlash. destruct (endsWith "/" path) eqn:E.
  - now apply endsWith_slash_lastChar.
  - apply lastChar_append.
Qed.

Lemma forceTrailingSlash_fixed (path : string) :
  lastChar path = Some "/"%char -> forceTrailingSlash path = path.
Proof.
  intros H. unfold forceTrailingSlash.
  now rewrite (proj2 (endsWith_slash_lastChar path) H).
Qed.

Lemma prefix_trans (a b c : string) :
  String.prefix a b = true -> String.prefix b c = true ->
  String.prefix a c = true.
Proof.
  intros H1 H2. destruct (prefix_split _ _ H1) as [r ->].
  destruct (prefix_split _ _ H2) as [r' ->].
  rewrite append_assoc. apply prefix_append.
Qed.

Lemma prefix_refl (a : string) : String.prefix a a = true.
Proof. rewrite <- (append_nil_r a) at 2. apply prefix_append. Qed.

(** The folder above a name is a proper beginning of the name: it is
    shorter, it ends in a slash and the name begins with it. *)
Lemma parentFolder_above (name : string) :
  parentFolder name <> "" ->
  let folder := forceTrailingSlash (parentFolder name) in
  String.length folder < String.length name
  /\ String.prefix folder name = true.
Proof.
  unfold parentFolder.
  set (path := if endsWith "/" name then slice_drop_last 1 name else name).
  assert (Hpath : String.prefix path name = true
                  /\ (path = name /\ endsWith "/" name = false
                      \/ name = path ++ "/")).
  { subst path. destruct (endsWith "/" name) eqn:E.
    - destruct (endsWith_split _ _ E) as [a ->].
      pose proof (slice_drop_last_append a "/") as Hs.
      cbn [String.length] in Hs. rewrite Hs. split; [apply prefix_append|].
      now right.
    - split; [apply prefix_refl | now left]. }
  clearbody path. destruct Hpath as [Hpre Hcase].
  destruct (lastIndexOfSlash path) as [i|] eqn:Ei; [|now intros H].
  destruct (0 <? i)%nat eqn:Hi; [|now intros H]. intros _. cbv zeta.
  destruct (lastIndexOfSlash_split _ _ Ei) as (a & b & -> & Ha & Hb).
  rewrite <- Ha, substring_length_append.
  assert (Hlen : String.length (forceTrailingSlash a) <= String.length a + 1).
  { unfold forceTrailingSlash. destruct (endsWith "/" a); [lia|].
    rewrite length_append. cbn [String.length]. lia. }
  assert (Hfa : String.prefix (forceTrailingSlash a) (a ++ "/" ++ b) = true).
  { unfold forceTrailingSlash. destruct (endsWith "/" a).
    - apply prefix_append.
    - rewrite <- append_assoc. apply prefix_append. }
  split; [|exact (prefix_trans _ _ _ Hfa Hpre)].
  destruct Hcase as [[<- Hend] | ->].
  - rewrite length_append. cbn [append String.length].
    destruct b as [|x b]; [|cbn [String.length]; lia].
    exfalso. change (a ++ "/" ++ "") with (a ++ "/") in Hend.
    rewrite (endsWith_append a "/") in Hend. discriminate.
  - rewrite !length_append. cbn [String.length]. lia.
Qed.

(** What [fileAdd] does: it appends the folders above the name that the
    archive lacks, the outermost first, and then sets the entry.  The
    folders are shorter than the name, end in a slash and begin the
    name. *)
Lemma fileAdd_folders (fuel : nat) (name : string) (e : ZipEntry) (zip : Zip) :
  exists folders,
    fileAdd fuel name e zip
    = zip_set (entryName name e) e (zip ++ map folderEntry folders)%list
    /\ Forall (fun f =>
                 zip_get f zip = None
                 /\ lastChar f = Some "/"%char
                 /\ String.length f < String.length (entryName name e)
                 /\ String.prefix f (entryName name e) = true) folders.
Proof.
  revert name e zip. induction fuel as [|fuel IH]; intros name e zip.
  - exists []. cbn [map]. rewrite app_nil_r. split; [|constructor].
    unfold fileAdd, entryName. now destruct (String.eqb (parentFolder _) "").
  - cbn [fileAdd]. fold (entryName name e).
    destruct (String.eqb_spec (parentFolder (entryName name e)) "") as [E|Hp].
    { exists []. cbn [map]. rewrite app_nil_r. split; [reflexivity | constructor]. }
    destruct (parentFolder_above _ Hp) as [Hlen Hpre].
    set (folder := forceTrailingSlash (parentFolder (entryName name e))) in *.
    destruct (zip_get folder zip) eqn:Eg.
    { exists []. cbn [map]. rewrite app_nil_r. split; [reflexivity | constructor]. }
    destruct (IH folder ZipFolder zip) as (folders & Ef & Hf).
    assert (Hfix : entryName folder ZipFolder = folder).
    { apply forceTrailingSlash_fixed. apply forceTrailingSlash_lastChar. }
    rewrite Hfix in Ef, Hf.
    exists (folders ++ [folder])%list. split.
    + rewrite Ef. f_equal. rewrite zip_set_fresh.
      * now rewrite map_app, app_assoc.
      * apply zip_get_None. rewrite map_app, map_map. cbn [folderEntry fst].
        rewrite map_id. intros Hin. apply in_app_or in Hin as [Hin | Hin].
        -- apply (zip_get_In _ _ Eg Hin).
        -- rewrite Forall_forall in Hf. destruct (Hf _ Hin) as (_ & _ & Hl & _).
           lia.
    + apply Forall_app. split.
      * eapply Forall_impl; [|exact Hf]. cbn beta.
        intros f (H1 & H2 & H3 & H4). repeat split; try assumption; [lia|].
        exact (prefix_trans _ _ _ H4 Hpre).
      * constructor; [|constructor]. repeat split; try assumption.
        apply forceTrailingSlash_lastChar.
Qed.

(** More fuel than the length of the name changes nothing. *)
Lemma fileAdd_fuel (n fuel : nat) (name : string) (e : ZipEntry) (zip : Zip) :
  String.length (entryName name e) <= n -> n <= fuel ->
  fileAdd fuel name e zip = fileAdd n name e zip.
Proof.
  revert fuel name e zip. induction n as [|n IH]; intros fuel name e zip Hn Hf.
  - assert (En : entryName name e = "")
      by (destruct (entryName name e); [reflexivity | cbn in Hn; lia]).
    destruct fuel; cbn [fileAdd]; fold (entryName name e); rewrite En;
      reflexivity.
  - destruct fuel as [|fuel]; [lia|].
    cbn [fileAdd]. fold (entryName name e).
    destruct (String.eqb_spec (parentFolder (entryName name e)) "") as [E|Hp];
      [reflexivity|].
    destruct (parentFolder_above _ Hp) as [Hlen _].
    set (folder := forceTrailingSlash (parentFolder (entryName name e))) in *.
    destruct (zip_get folder zip); [reflexivity|].
    f_equal. apply IH; [|lia].
    assert (Hfix : entryName folder ZipFolder = folder).
    { apply forceTrailingSlash_fixed. apply forceTrailingSlash_lastChar. }
    rewrite Hfix. lia.
Qed.
Lemma zip_get_app_some (k : string) (e : ZipEntry) (zip more : Zip) :
  zip_get k zip = Some e -> zip_get k (zip ++ more)%list = Some e.
Proof.
  induction zip as [|[p e0] zip IH]; cbn [zip_get app]; [discriminate|].
  destruct (String.eqb p k); [trivial | exact IH].
Qed.

Lemma zip_get_app_none (k : string) (zip more : Zip) :
  zip_get k zip = None -> zip_get k (zip ++ more)%list = zip_get k more.
Proof.
  induction zip as [|[p e0] zip IH]; cbn [zip_get app]; [reflexivity|].
  destruct (String.eqb p k); [discriminate | exact IH].
Qed.

Lemma zip_get_folders (k : string) (folders : list string) :
  zip_get k (map folderEntry folders) = None
  \/ zip_get k (map folderEntry folders) = Some ZipFolder /\ In k folders.
Proof.
  induction folders as [|f folders IH]; [now left|].
  cbn [map folderEntry zip_get].
  destruct (String.eqb_spec f k) as [->|_].
  - right. split; [reflexivity | now left].
  - destruct IH as [IH | [IH Hin]]; [now left | right; split; auto].
    now right.
Qed.

Lemma fileAdd_get_same (fuel : nat) (name : string) (e : ZipEntry) (zip : Zip) :
  zip_get (entryName name e) (fileAdd fuel name e zip) = Some e.
Proof.
  destruct (fileAdd_folders fuel name e zip) as (folders & -> & _).
  apply zip_get_set_same.
Qed.

(** An entry under another name is left as it was, or it is a folder
    above the name that the archive lacked. *)
Lemma fileAdd_get_other (fuel : nat) (name : string) (e : ZipEntry) (zip : Zip)
    (k : string) :
  k <> entryName name e ->
  zip_get k (fileAdd fuel name e zip) = zip_get k zip
  \/ (zip_get k zip = None
      /\ zip_get k (fileAdd fuel name e zip) = Some ZipFolder
      /\ lastChar k = Some "/"%char
      /\ String.prefix k (entryName name e) = true).
Proof.
  intros Hk. destruct (fileAdd_folders fuel name e zip) as (folders & -> & Hf).
  rewrite zip_get_set_other by exact Hk.
  destruct (zip_get k zip) as [e0|] eqn:E.
  - left. now apply zip_get_app_some.
  - rewrite (zip_get_app_none _ _ _ E).
    destruct (zip_get_folders k folders) as [-> | [-> Hin]]; [now left|].
    right. rewrite Forall_forall in Hf.
    destruct (Hf _ Hin) as (_ & H2 & _ & H4). auto.
Qed.

Lemma fileAdd_keeps (fuel : nat) (name : string) (e e0 : ZipEntry) (zip : Zip)
    (k : string) :
  k <> entryName name e -> zip_get k zip = Some e0 ->
  zip_get k (fileAdd fuel name e zip) = Some e0.
Proof.
  intros Hk E.
  destruct (fileAdd_get_other fuel name e zip k Hk) as [-> | (H & _)];
    [exact E | congruence].
Qed.

Lemma zipFiles_app (a b : Zip) :
  zipFiles (a ++ b)%list = (zipFiles a ++ zipFiles b)%list.
Proof. apply filter_app. Qed.

Lemma zipFiles_folders (folders : list string) :
  zipFiles (map folderEntry folders) = [].
Proof. induction folders as [|f folders IH]; [reflexivity | exact IH]. Qed.

(** A file written at a path that the archive lacks comes last among the
    files. *)
Lemma fileAdd_fresh_file (fuel : nat) (name data : string) (zip : Zip) :
  zip_get name zip = None -> lastChar name <> Some "/"%char ->
  zipFiles (fileAdd fuel name (ZipFile data) zip)
  = (zipFiles zip ++ [(name, ZipFile data)])%list.
Proof.
  intros E Hl.
  destruct (fileAdd_folders fuel name (ZipFile data) zip) as (folders & -> & Hf).
  cbn [entryName]. rewrite zip_set_fresh.
  - rewrite !zipFiles_app, zipFiles_folders, app_nil_r. reflexivity.
  - rewrite (zip_get_app_none _ _ _ E).
    destruct (zip_get_folders name folders) as [H | [_ Hin]]; [exact H|].
    rewrite Forall_forall in Hf. destruct (Hf _ Hin) as (_ & H2 & _).
    congruence.
Qed.

(** *** The loop of [exportToIMSCC] *)

Lemma itemPath_lastChar (item : CanvasModuleItem) :
  lastChar (itemPath item) = Some "l"%char.
Proof.
  unfold itemPath.
  destruct (String.eqb (item_type item) "assignment");
    [|destruct (String.eqb (item_type item) "discussion");
      [|destruct (String.eqb (item_type item) "quiz")]].
  - rewrite <- append_assoc. exact (lastChar_append _ "." "html").
  - rewrite <- append_assoc. exact (lastChar_append _ "." "html").
  - rewrite <- append_assoc. exact (lastChar_append _ "." "xml").
  - exact (lastChar_append _ "." "html").
Qed.

Lemma itemPath_not_folder (item : CanvasModuleItem) :
  lastChar (itemPath item) <> Some "/"%char.
Proof. rewrite itemPath_lastChar. discriminate. Qed.

Lemma exportItem_itemFile (zip : Zip) (item : CanvasModuleItem) :
  exportItem "assignments/" "discussions/" "quizzes/" zip item
  = writeItem zip item.
Proof.
  unfold exportItem, writeItem, itemPath, itemData.
  destruct (String.eqb_spec (item_type item) "page") as [E|_].
  - rewrite E. reflexivity.
  - destruct (String.eqb (item_type item) "assignment"); [reflexivity|].
    destruct (String.eqb (item_type item) "discussion"); [reflexivity|].
    destruct (String.eqb (item_type item) "quiz"); reflexivity.
Qed.

(** The nested loops are one pass over the items in array order. *)
Lemma exportToIMSCC_in_order (overviewId manifestId : string)
    (course : GeneratedCourse) :
  exportToIMSCC overviewId manifestId course
  = fold_left writeItem (allItems course)
      (initialZip overviewId manifestId course).
Proof.
  unfold exportToIMSCC, allItems.
  change (zip_folder "assignments" _) with
    ("assignments/", firstn 3 (initialZip overviewId manifestId course)).
  cbv beta iota.
  change (zip_folder "discussions" _) with
    ("discussions/", firstn 4 (initialZip overviewId manifestId course)).
  cbv beta iota.
  change (zip_folder "quizzes" _) with
    ("quizzes/", initialZip overviewId manifestId course).
  cbv beta iota.
  generalize (initialZip overviewId manifestId course) as zip.
  induction (course_modules course) as [|m modules IH]; intros zip.
  - reflexivity.
  - cbn [fold_left flat_map]. rewrite fold_left_app, IH. f_equal.
    clear IH. revert zip.
    induction (module_items m) as [|item items IHi]; intros zip; [reflexivity|].
    cbn [fold_left]. rewrite IHi, exportItem_itemFile. reflexivity.
Qed.

Lemma writeItem_get_same (zip : Zip) (item : CanvasModuleItem) :
  zip_get (itemPath item) (writeItem zip item)
  = Some (ZipFile (itemData item)).
Proof.
  unfold writeItem, zip_file. cbn [append].
  exact (fileAdd_get_same _ (itemPath item) (ZipFile (itemData item)) zip).
Qed.

Lemma writeItem_keeps (zip : Zip) (item : CanvasModuleItem) (k : string)
    (e : ZipEntry) :
  k <> itemPath item -> zip_get k zip = Some e ->
  zip_get k (writeItem zip item) = Some e.
Proof.
  intros Hk E. unfold writeItem, zip_file. cbn [append].
  exact (fileAdd_keeps _ (itemPath item) (ZipFile (itemData item)) e zip k Hk E).
Qed.

Lemma writeItem_get_other (zip : Zip) (item : CanvasModuleItem) (k : string) :
  k <> itemPath item ->
  zip_get k (writeItem zip item) = zip_get k zip
  \/ (zip_get k zip = None
      /\ zip_get k (writeItem zip item) = Some ZipFolder
      /\ lastChar k = Some "/"%char
      /\ String.prefix k (itemPath item) = true).
Proof.
  intros Hk. unfold writeItem, zip_file. cbn [append].
  exact (fileAdd_get_other _ (itemPath item) (ZipFile (itemData item)) zip k Hk).
Qed.

(** An entry of the archive stays through the loop unless an item is
    written at its path. *)
Lemma fold_writeItem_keeps (items : list CanvasModuleItem) (zip : Zip)
    (path : string) (e : ZipEntry) :
  zip_get path zip = Some e ->
  (forall x, In x items -> itemPath x <> path) ->
  zip_get path (fold_left writeItem items zip) = Some e.
Proof.
  revert zip. induction items as [|x items IH]; intros zip E H; [exact E|].
  cbn [fold_left]. apply IH.
  - apply writeItem_keeps; [|exact E].
    intros Hp. apply (H x (or_introl eq_refl)). now symmetry.
  - intros y Hy. apply H. now right.
Qed.

Lemma fold_writeItem_keeps_file (items : list CanvasModuleItem) (zip : Zip)
    (path : string) :
  (exists data, zip_get path zip = Some (ZipFile data)) ->
  exists data, zip_get path (fold_left writeItem items zip) = Some (ZipFile data).
Proof.
  revert zip. induction items as [|item items IH]; intros zip H; [exact H|].
  cbn [fold_left]. apply IH.
  destruct (string_dec path (itemPath item)) as [->|Hne].
  - eexists. apply writeItem_get_same.
  - destruct H as [data H]. exists data. now apply writeItem_keeps.
Qed.

Lemma fold_writeItem_has_file (items : list CanvasModuleItem) (zip : Zip)
    (item : CanvasModuleItem) :
  In item items ->
  exists data,
    zip_get (itemPath item) (fold_left writeItem items zip) = Some (ZipFile data).
Proof.
  revert zip. induction items as [|x items IH]; intros zip Hin; [easy|].
  cbn [fold_left]. destruct Hin as [->|Hin].
  - apply fold_writeItem_keeps_file. eexists. apply writeItem_get_same.
  - now apply IH.
Qed.

(** Every file of the archive was there before the loop or is the file
    of an item. *)
Lemma fold_writeItem_files (items : list CanvasModuleItem) (zip : Zip)
    (path data : string) :
  zip_get path (fold_left writeItem items zip) = Some (ZipFile data) ->
  zip_get path zip = Some (ZipFile data)
  \/ exists item, In item items /\ path = itemPath item
                  /\ data = itemData item.
Proof.
  revert zip. induction items as [|x items IH]; intros zip H; [now left|].
  cbn [fold_left] in H. destruct (IH _ H) as [H1 | (item & Hin & Hp & Hd)].
  - destruct (string_dec path (itemPath x)) as [->|Hne].
    + rewrite writeItem_get_same in H1. injection H1 as <-.
      right. exists x. repeat split. now left.
    + destruct (writeItem_get_other zip x path Hne) as [E | (_ & E & _)].
      * left. now rewrite <- E.
      * rewrite E in H1. discriminate.
  - right. exists item. repeat split; try assumption. now right.
Qed.

(** With distinct paths that the archive lacks, the files of the items
    follow the files that were there, in the order of the items. *)
Lemma fold_writeItem_fresh (items : list CanvasModuleItem) (zip : Zip) :
  NoDup (map itemPath items) ->
  (forall x, In x items -> zip_get (itemPath x) zip = None) ->
  zipFiles (fold_left writeItem items zip)
  = (zipFiles zip ++ map itemEntry items)%list.
Proof.
  revert zip. induction items as [|item items IH]; intros zip Hnd Hz.
  - cbn [fold_left map]. now rewrite app_nil_r.
  - cbn [fold_left map] in *. apply NoDup_cons_iff in Hnd as [Hni Hnd].
    rewrite IH.
    + unfold writeItem, zip_file. cbn [append].
      rewrite fileAdd_fresh_file;
        [| apply Hz; now left | apply itemPath_not_folder].
      now rewrite <- app_assoc.
    + exact Hnd.
    + intros x Hx.
      assert (Hne : itemPath x <> itemPath item).
      { intros E. apply Hni. rewrite <- E. now apply in_map. }
      destruct (writeItem_get_other zip item _ Hne) as [-> | (_ & _ & Hl & _)].
      * apply Hz. now right.
      * now elim (itemPath_not_folder x).
Qed.

Lemma allItems_In (course : GeneratedCourse) (m : CanvasModule)
    (item : CanvasModuleItem) :
  In m (course_modules course) -> In item (module_items m) ->
  In item (allItems course).
Proof. intros Hm Hi. apply in_flat_map. now exists m. Qed.
(** With no slash in its id, an item has its folder in the archive
    already, and its write sets one entry. *)
Lemma itemPath_endsWith (item : CanvasModuleItem) :
  endsWith "/" (itemPath item) = false.
Proof.
  destruct (endsWith "/" (itemPath item)) eqn:E; [|reflexivity].
  apply endsWith_slash_lastChar in E. now elim (itemPath_not_folder item).
Qed.

Lemma parentFolder_in (folder rest : string) :
  mem_char "/" rest = false -> endsWith "/" (folder ++ "/" ++ rest) = false ->
  folder <> "" ->
  parentFolder (folder ++ "/" ++ rest) = folder.
Proof.
  intros Hr He Hf. unfold parentFolder. rewrite He.
  rewrite (lastIndexOfSlash_last folder rest Hr).
  destruct folder as [|c folder]; [now elim Hf|].
  cbn [String.length Nat.ltb Nat.leb].
  exact (substring_length_append (String c folder) ("/" ++ rest)).
Qed.

Lemma parentFolder_top (name : string) :
  mem_char "/" name = false -> parentFolder name = "".
Proof.
  intros H. unfold parentFolder.
  assert (E : endsWith "/" name = false).
  { destruct (endsWith "/" name) eqn:E; [|reflexivity].
    destruct (endsWith_split _ _ E) as [a ->].
    rewrite mem_char_append in H. cbn in H. now rewrite orb_true_r in H. }
  now rewrite E, (lastIndexOfSlash_none _ H).
Qed.

Lemma fileAdd_top (fuel : nat) (name data : string) (zip : Zip) :
  parentFolder name = "" ->
  fileAdd fuel name (ZipFile data) zip = zip_set name (ZipFile data) zip.
Proof. intros E. destruct fuel; cbn [fileAdd]; now rewrite E. Qed.

Lemma fileAdd_in_folder (fuel : nat) (name data : string) (zip : Zip)
    (e : ZipEntry) :
  zip_get (forceTrailingSlash (parentFolder name)) zip = Some e ->
  fileAdd fuel name (ZipFile data) zip = zip_set name (ZipFile data) zip.
Proof.
  intros E. destruct fuel; cbn [fileAdd].
  - now destruct (String.eqb (parentFolder name) "").
  - rewrite E. now destruct (String.eqb (parentFolder name) "").
Qed.

Lemma writeItem_plain (zip : Zip) (item : CanvasModuleItem) :
  mem_char "/" (item_id item) = false ->
  zip_get "assignments/" zip <> None ->
  zip_get "discussions/" zip <> None ->
  zip_get "quizzes/" zip <> None ->
  writeItem zip item = zip_set (itemPath item) (ZipFile (itemData item)) zip.
Proof.
  intros Hid Ha Hd Hq. unfold writeItem, zip_file. cbn [append].
  pose proof (itemPath_endsWith item) as He. revert He.
  unfold itemPath.
  assert (Hs : forall ext, mem_char "/" ext = false ->
                           mem_char "/" (item_id item ++ ext) = false).
  { intros ext Hx. now rewrite mem_char_append, Hid, Hx. }
  destruct (String.eqb (item_type item) "assignment");
    [|destruct (String.eqb (item_type item) "discussion");
      [|destruct (String.eqb (item_type item) "quiz")]]; intros He.
  - destruct (zip_get "assignments/" zip) as [e|] eqn:E; [|now elim Ha].
    apply (fileAdd_in_folder _ _ _ _ e).
    change ("assignments/" ++ item_id item ++ ".html")
      with ("assignments" ++ "/" ++ (item_id item ++ ".html")) in *.
    rewrite parentFolder_in; [exact E | now apply Hs | exact He | discriminate].
  - destruct (zip_get "discussions/" zip) as [e|] eqn:E; [|now elim Hd].
    apply (fileAdd_in_folder _ _ _ _ e).
    change ("discussions/" ++ item_id item ++ ".html")
      with ("discussions" ++ "/" ++ (item_id item ++ ".html")) in *.
    rewrite parentFolder_in; [exact E | now apply Hs | exact He | discriminate].
  - destruct (zip_get "quizzes/" zip) as [e|] eqn:E; [|now elim Hq].
    apply (fileAdd_in_folder _ _ _ _ e).
    change ("quizzes/" ++ item_id item ++ ".xml")
      with ("quizzes" ++ "/" ++ (item_id item ++ ".xml")) in *.
    rewrite parentFolder_in; [exact E | now apply Hs | exact He | discriminate].
  - apply fileAdd_top, parentFolder_top. now apply Hs.
Qed.

Lemma fold_writeItem_plain (items : list CanvasModuleItem) (zip : Zip) :
  Forall (fun item => mem_char "/" (item_id item) = false) items ->
  zip_get "assignments/" zip <> None ->
  zip_get "discussions/" zip <> None ->
  zip_get "quizzes/" zip <> None ->
  NoDup (map fst zip ++ map itemPath items) ->
  fold_left writeItem items zip = (zip ++ map itemEntry items)%list.
Proof.
  revert zip. induction items as [|item items IH]; intros zip Hs Ha Hd Hq Hnd.
  - cbn [fold_left map]. now rewrite app_nil_r.
  - cbn [fold_left map] in *. apply Forall_cons_iff in Hs as [Hi Hs].
    rewrite (writeItem_plain zip item Hi Ha Hd Hq).
    assert (Hfresh : zip_get (itemPath item) zip = None).
    { apply zip_get_None. intros Hin.
      apply NoDup_remove_2 in Hnd. apply Hnd, in_or_app. now left. }
    rewrite (zip_set_fresh _ _ _ Hfresh).
    assert (Hkeep : forall k, zip_get k zip <> None ->
                              zip_get k (zip ++ [(itemPath item,
                                                  ZipFile (itemData item))])%list
                              <> None).
    { intros k Hk. destruct (zip_get k zip) as [e|] eqn:E; [|now elim Hk].
      now rewrite (zip_get_app_some _ _ _ _ E). }
    rewrite IH; auto.
    + now rewrite <- app_assoc.
    + rewrite map_app. cbn [map fst]. now rewrite <- app_assoc.
Qed.
(** C4 (amended).  A quiz item is written at [quizzes/{id}.xml]; an item
    of an unrecognized type is written as a page at [{id}.html], a path
    of the top level exactly when the id holds no slash.  Besides the
    file, a write changes nothing but to add the folders above the file's
    path that the archive lacks; and the archive holds no file but the
    manifest, the overview page and the files of the items. *)
Theorem export_item_routing :
  (forall zip item,
     item_type item = "quiz" ->
     let path := "quizzes/" ++ item_id item ++ ".xml" in
     let zip' :=
       exportItem "assignments/" "discussions/" "quizzes/" zip item in
     zip_get path zip' = Some (ZipFile (generateQuizQti item))
     /\ (forall other, other <> path ->
           zip_get other zip' = zip_get other zip
           \/ (zip_get other zip = None
               /\ zip_get other zip' = Some ZipFolder
               /\ String.prefix other path = true))
     /\ startsWith "quizzes/" path = true
     /\ startsWith "assignments/" path = false
     /\ startsWith "discussions/" path = false)
  /\ (forall zip item,
        item_type item <> "page" -> item_type item <> "assignment" ->
        item_type item <> "discussion" -> item_type item <> "quiz" ->
        let path := item_id item ++ ".html" in
        let zip' :=
          exportItem "assignments/" "discussions/" "quizzes/" zip item in
        zip_get path zip'
        = Some (ZipFile (generatePageHtml (item_title item)
                           (str_or (item_content item) "")))
        /\ (forall other, other <> path ->
              zip_get other zip' = zip_get other zip
              \/ (zip_get other zip = None
                  /\ zip_get other zip' = Some ZipFolder
                  /\ String.prefix other path = true))
        /\ mem_char "/" path = mem_char "/" (item_id item))
  /\ (forall overviewId manifestId course m item,
        In m (course_modules course) -> In item (module_items m) ->
        item_type item = "quiz" ->
        exists data,
          zip_get ("quizzes/" ++ item_id item ++ ".xml")
            (exportToIMSCC overviewId manifestId course) = Some (ZipFile data))
  /\ (forall overviewId manifestId course path data,
        zip_get path (exportToIMSCC overviewId manifestId course)
        = Some (ZipFile data) ->
        path = "imsmanifest.xml" \/ path = "course_overview.html"
        \/ exists item,
             In item (allItems course) /\ path = itemPath item
             /\ data = itemData item).
Proof.
  split; [|split; [|split]].
  - intros zip item Ht path zip'. subst zip'.
    rewrite exportItem_itemFile.
    assert (Ep : itemPath item = path)
      by (unfold itemPath; now rewrite Ht).
    assert (Ed : itemData item = generateQuizQti item)
      by (unfold itemData; now rewrite Ht).
    split; [rewrite <- Ep, <- Ed; apply writeItem_get_same|]. split.
    + intros other Hne. rewrite <- Ep in *.
      destruct (writeItem_get_other zip item other Hne)
        as [E | (H1 & H2 & _ & H4)]; auto.
    + subst path. unfold startsWith.
      split; [apply prefix_append | split; vm_compute; reflexivity].
  - intros zip item H1 H2 H3 H4 path zip'. subst zip'.
    rewrite exportItem_itemFile.
    apply String.eqb_neq in H2, H3, H4.
    assert (Ep : itemPath item = path)
      by (unfold itemPath; now rewrite H2, H3, H4).
    assert (Ed : itemData item
                 = generatePageHtml (item_title item)
                     (str_or (item_content item) ""))
      by (unfold itemData; now rewrite H2, H3, H4).
    split; [rewrite <- Ep, <- Ed; apply writeItem_get_same|]. split.
    + intros other Hne. rewrite <- Ep in *.
      destruct (writeItem_get_other zip item other Hne)
        as [E | (G1 & G2 & _ & G4)]; auto.
    + subst path. rewrite mem_char_append. cbn. apply orb_false_r.
  - intros overviewId manifestId course m item Hm Hi Ht.
    rewrite exportToIMSCC_in_order.
    destruct (fold_writeItem_has_file (allItems course)
                (initialZip overviewId manifestId course) item
                (allItems_In _ _ _ Hm Hi)) as [data Hd].
    exists data. unfold itemPath in Hd. now rewrite Ht in Hd.
  - intros overviewId manifestId course path data H.
    rewrite exportToIMSCC_in_order in H.
    destruct (fold_writeItem_files _ _ _ _ H) as [H0 | H0]; [|auto].
    unfold initialZip in H0. cbn [zip_get] in H0.
    destruct (String.eqb_spec "imsmanifest.xml" path); [auto|].
    destruct (String.eqb_spec "course_overview.html" path); [auto|].
    destruct (String.eqb "assignments/" path); [discriminate|].
    destruct (String.eqb "discussions/" path); [discriminate|].
    destruct (String.eqb "quizzes/" path); discriminate.
Qed.

Lemma export_item_routing_witness :
  zip_get "quizzes/item-1-2.xml"
    (exportItem "assignments/" "discussions/" "quizzes/"
       (initialZip "o1" "m1" sampleCourse) sampleQuiz)
  = Some (ZipFile (generateQuizQti sampleQuiz))
  /\ zip_get "item-2-1.html"
       (exportItem "assignments/" "discussions/" "quizzes/"
          (initialZip "o1" "m1" sampleCourse) sampleVideo)
     = Some (ZipFile (generatePageHtml "Watch" ""))
  /\ mem_char "/" "item-2-1.html" = false
  /\ exists data,
       zip_get "quizzes/item-1-2.xml" (exportToIMSCC "o1" "m1" sampleCourse)
       = Some (ZipFile data).
Proof.
  split; [|split; [|split]].
  - exact (proj1 (proj1 export_item_routing
                    (initialZip "o1" "m1" sampleCourse) sampleQuiz eq_refl)).
  - refine (proj1 (proj1 (proj2 export_item_routing)
                     (initialZip "o1" "m1" sampleCourse) sampleVideo _ _ _ _));
      discriminate.
  - refine (eq_trans
              (proj2 (proj2 (proj1 (proj2 export_item_routing)
                               (initialZip "o1" "m1" sampleCourse)
                               sampleVideo _ _ _ _))) eq_refl);
      discriminate.
  - apply (proj1 (proj2 (proj2 export_item_routing)) "o1" "m1" sampleCourse
             {| module_id := "module-1"; module_name := "Start";
                module_position := 7777;
                module_items := [samplePage; sampleQuiz] |}
             sampleQuiz).
    + simpl. now left.
    + simpl. now right; left.
    + reflexivity.
Defined.

(** An item of an unrecognized type whose id is [assignments/x] is
    written under [assignments/], not at the top level. *)
Lemma unrecognized_type_under_assignments :
  (item_type sampleSlashVideo <> "page"
   /\ item_type sampleSlashVideo <> "assignment"
   /\ item_type sampleSlashVideo <> "discussion"
   /\ item_type sampleSlashVideo <> "quiz")
  /\ zip_get "assignments/x.html"
       (exportItem "assignments/" "discussions/" "quizzes/"
          (initialZip "o1" "m1" sampleCourse) sampleSlashVideo)
     = Some (ZipFile (generatePageHtml "Watch" ""))
  /\ startsWith "assignments/" "assignments/x.html" = true
  /\ mem_char "/" "assignments/x.html" = true.
Proof.
  split; [repeat split; discriminate|].
  split; [|split; reflexivity].
  vm_compute. reflexivity.
Qed.

(** A page whose id is [unit1/intro] brings the folder [unit1/] into the
    archive. *)
Example exportItem_adds_folder :
  map fst (exportItem "assignments/" "discussions/" "quizzes/"
             (initialZip "o1" "m1" sampleCourse) sampleSlashPage)
  = [ "imsmanifest.xml"; "course_overview.html"; "assignments/";
      "discussions/"; "quizzes/"; "unit1/"; "unit1/intro.html" ].
Proof. vm_compute. reflexivity. Qed.
(** ** Order of emission and the [position] fields *)

Lemma setPositions_allItems (p : Z) (course : GeneratedCourse) :
  allItems (setPositions p course) = map (setItemPosition p) (allItems course).
Proof.
  unfold allItems, setPositions. cbn [course_modules].
  induction (course_modules course) as [|m modules IH]; [reflexivity|].
  cbn [map flat_map]. now rewrite IH, map_app.
Qed.

Lemma setPositions_manifest (p : Z) (overviewId manifestId : string)
    (course : GeneratedCourse) :
  generateManifest overviewId manifestId (setPositions p course)
  = generateManifest overviewId manifestId course.
Proof.
  rewrite !generateManifest_in_order. unfold manifestInOrder.
  rewrite setPositions_allItems, map_map.
  unfold setPositions at 1 2 3. cbn [course_title course_description course_modules].
  rewrite map_map. do 2 f_equal.
  apply map_ext. intros m. unfold moduleNodeXml, setModulePositions.
  cbn [module_id module_name module_items]. now rewrite map_map.
Qed.

Lemma setPositions_export (p : Z) (overviewId manifestId : string)
    (course : GeneratedCourse) :
  exportToIMSCC overviewId manifestId (setPositions p course)
  = exportToIMSCC overviewId manifestId course.
Proof.
  rewrite !exportToIMSCC_in_order, setPositions_allItems.
  unfold initialZip. rewrite setPositions_manifest.
  cbn [setPositions course_welcomeMessage].
  generalize (allItems course) as items.
  intros items.
  match goal with |- fold_left _ _ ?z = _ => generalize z as zip end.
  induction items as [|item items IH]; intros zip; [reflexivity|].
  cbn [map fold_left]. now rewrite IH.
Qed.

Lemma initialZip_lacks (overviewId manifestId : string)
    (course : GeneratedCourse) (item : CanvasModuleItem) :
  itemPath item <> "imsmanifest.xml" ->
  itemPath item <> "course_overview.html" ->
  zip_get (itemPath item) (initialZip overviewId manifestId course) = None.
Proof.
  intros H1 H2. pose proof (itemPath_not_folder item) as Hl.
  unfold initialZip. cbn [zip_get].
  destruct (String.eqb_spec "imsmanifest.xml" (itemPath item));
    [congruence|].
  destruct (String.eqb_spec "course_overview.html" (itemPath item));
    [congruence|].
  destruct (String.eqb_spec "assignments/" (itemPath item)) as [E|_];
    [rewrite <- E in Hl; now elim Hl|].
  destruct (String.eqb_spec "discussions/" (itemPath item)) as [E|_];
    [rewrite <- E in Hl; now elim Hl|].
  destruct (String.eqb_spec "quizzes/" (itemPath item)) as [E|_];
    [rewrite <- E in Hl; now elim Hl|].
  reflexivity.
Qed.

(** C9 (amended).  Modules and items are emitted in the order of the
    arrays, in the manifest and in the archive: the files of the archive
    are the manifest, the overview page and then the files of the items
    in array order, when no two of them share a path; and with no slash
    in an item id the archive holds these files and the three folders and
    nothing else.  The [position] fields are not read: overwriting them
    changes neither the manifest nor the archive. *)
Theorem export_follows_array_order :
  forall overviewId manifestId course,
    generateManifest overviewId manifestId course
    = manifestInOrder overviewId manifestId course
    /\ exportToIMSCC overviewId manifestId course
       = fold_left writeItem (allItems course)
           (initialZip overviewId manifestId course)
    /\ (NoDup ("imsmanifest.xml" :: "course_overview.html"
               :: map itemPath (allItems course)) ->
        zipFiles (exportToIMSCC overviewId manifestId course)
        = (zipFiles (initialZip overviewId manifestId course)
           ++ map itemEntry (allItems course))%list)
    /\ (Forall (fun item => mem_char "/" (item_id item) = false)
          (allItems course) ->
        NoDup (map fst (initialZip overviewId manifestId course)
               ++ map itemPath (allItems course)) ->
        exportToIMSCC overviewId manifestId course
        = (initialZip overviewId manifestId course
           ++ map itemEntry (allItems course))%list)
    /\ (forall p,
          generateManifest overviewId manifestId (setPositions p course)
          = generateManifest overviewId manifestId course
          /\ exportToIMSCC overviewId manifestId (setPositions p course)
             = exportToIMSCC overviewId manifestId course).
Proof.
  intros overviewId manifestId course.
  split; [apply generateManifest_in_order|].
  split; [apply exportToIMSCC_in_order|].
  split; [|split].
  - intros Hnd. rewrite exportToIMSCC_in_order.
    apply NoDup_cons_iff in Hnd as [Hm Hnd].
    apply NoDup_cons_iff in Hnd as [Ho Hnd].
    apply fold_writeItem_fresh; [exact Hnd|].
    intros x Hx. apply initialZip_lacks.
    + intros E. apply Hm. right. rewrite <- E. now apply in_map.
    + intros E. apply Ho. rewrite <- E. now apply in_map.
  - intros Hs Hnd. rewrite exportToIMSCC_in_order.
    apply fold_writeItem_plain; try assumption; discriminate.
  - intros p. split; [apply setPositions_manifest | apply setPositions_export].
Qed.

Lemma export_follows_array_order_witness :
  map fst (exportToIMSCC "o1" "m1" sampleCourse)
  = [ "imsmanifest.xml"; "course_overview.html"; "assignments/";
      "discussions/"; "quizzes/"; "item-1-1.html"; "quizzes/item-1-2.xml";
      "item-2-1.html" ].
Proof.
  rewrite (proj1 (proj2 (proj2 (proj2
             (export_follows_array_order "o1" "m1" sampleCourse))))).
  - reflexivity.
  - repeat constructor.
  - cbn [map fst initialZip allItems flat_map sampleCourse course_modules
         module_items app].
    repeat (constructor; [cbn; intuition discriminate|]). constructor.
Defined.

(** Overwriting the positions of the sample course leaves the manifest
    as it is, and the manifest mentions neither the word nor the value. *)
Lemma manifest_ignores_position :
  item_position samplePage = 7777%Z
  /\ includes "position" (generateManifest "o1" "m1" sampleCourse) = false
  /\ includes "7777" (generateManifest "o1" "m1" sampleCourse) = false
  /\ generateManifest "o1" "m1" (setPositions 1 sampleCourse)
     = generateManifest "o1" "m1" sampleCourse.
Proof. repeat split; vm_compute; reflexivity. Qed.
(** ** The QTI renderer *)

(** Splits a goal [transparent n (a ++ b ++ ...)] into its parts and
    closes the literals, the escaped texts and the numbers. *)
Ltac transparency :=
  repeat lazymatch goal with
  | |- transparent _ (_ ++ _) => apply transparent_append
  end;
  try solve
    [ apply transparent_nil
    | apply transparent_free; apply escapeXml_no_lt
    | apply transparent_free; apply Number_toString_no_lt
    | apply transparent_literal; vm_compute; reflexivity ].

Lemma Forall_mapi_from {A B : Type} (P : B -> Prop) (f : A -> nat -> B)
    (start : nat) (xs : list A) :
  (forall x i, P (f x i)) -> Forall P (mapi_from f start xs).
Proof.
  intros H. revert start.
  induction xs as [|x xs IH]; intros start; cbn [mapi_from]; constructor; auto.
Qed.

Lemma In_mapi_from {A B : Type} (f : A -> nat -> B) (start : nat)
    (xs : list A) (x : A) :
  In x xs -> exists i, In (f x i) (mapi_from f start xs).
Proof.
  revert start. induction xs as [|y xs IH]; intros start Hin; [easy|].
  destruct Hin as [->|Hin].
  - exists start. now left.
  - destruct (IH (S start) Hin) as [i Hi]. exists i. now right.
Qed.




Lemma find_none_of_no_correct (answers : list QuizAnswer) :
  (forall a, In a answers -> answer_correct a = false) ->
  find answer_correct answers = None.
Proof.
  induction answers as [|x answers IH]; intros H; [reflexivity|].
  cbn [find]. rewrite (H x (or_introl eq_refl)). apply IH.
  intros a Ha. apply H. now right.
Qed.

Lemma responseLabelXml_transparent (n : string) (a : QuizAnswer) (i : nat) :
  transparent (String "<" n) (T "
            <response_label ident='ans_") ->
  transparent (String "<" n) (T "'>
              <material>
                <mattext texttype='text/plain'>") ->
  transparent (String "<" n) "</mattext>
              </material>
            </response_label>" ->
  transparent (String "<" n) (responseLabelXml a i).
Proof. intros H1 H2 H3. unfold responseLabelXml. transparency; assumption. Qed.

Lemma freeResponseItemXml_no_respcondition (qId : string) (index : nat)
    (q : QuizQuestion) :
  mem_char "<" qId = false ->
  transparent "<respcondition" (freeResponseItemXml qId index q).
Proof.
  intros Hq. unfold freeResponseItemXml. transparency.
  now apply transparent_free.
Qed.


Lemma qId_no_lt (index : nat) :
  mem_char "<" ("q_" ++ Number_toString (Z.of_nat (index + 1))) = false.
Proof. rewrite mem_char_append, Number_toString_no_lt. reflexivity. Qed.

Lemma choiceItemXml_no_respcondition (qId : string) (index : nat)
    (q : QuizQuestion) (answers : list QuizAnswer) :
  mem_char "<" qId = false ->
  find answer_correct answers = None ->
  transparent "<respcondition" (choiceItemXml qId index q answers).
Proof.
  intros Hq Hf. unfold choiceItemXml. rewrite Hf. transparency.
  - now apply transparent_free.
  - apply transparent_join. apply Forall_mapi_from. intros a i.
    apply responseLabelXml_transparent; transparency.
Qed.

Lemma respcondition_nonempty : "<respcondition" <> "".
Proof. discriminate. Qed.

Lemma generateQuizQti_question (item : CanvasModuleItem)
    (qs : list QuizQuestion) (q : QuizQuestion) :
  item_questions item = Some qs -> In q qs ->
  exists index, includes (questionXml q index) (generateQuizQti item) = true.
Proof.
  intros Hq Hin. destruct (In_mapi_from questionXml 0 qs q Hin) as [i Hi].
  exists i. unfold generateQuizQti, quizXml. rewrite Hq.
  do 5 apply includes_append_r. apply includes_append_l.
  apply includes_join_In with (x := questionXml q i);
    [exact Hi | apply includes_refl].
Qed.

Lemma choiceItemXml_respcondition (qId : string) (index : nat)
    (q : QuizQuestion) (answers : list QuizAnswer) (a : QuizAnswer) :
  find answer_correct answers = Some a ->
  includes (respconditionXml (indexOf answers a) (question_points q))
    (choiceItemXml qId index q answers) = true.
Proof.
  intros Hf. unfold choiceItemXml. rewrite Hf.
  do 11 apply includes_append_r. apply includes_append_l.
  apply includes_refl.
Qed.

Lemma questionXml_decvar (q : QuizQuestion) (index : nat) :
  includes (T "<decvar maxvalue='" ++ Number_toString (question_points q)
            ++ T "' minvalue='0' varname='SCORE' vartype='Decimal'/>")
    (questionXml q index) = true.
Proof.
  unfold questionXml.
  destruct (String.eqb (question_type q) "multiple_choice");
    [destruct (question_answers q) as [answers|]|].
  - unfold choiceItemXml. do 8 apply includes_append_r.
    apply includes_between; reflexivity.
  - unfold freeResponseItemXml. do 6 apply includes_append_r.
    apply includes_between; reflexivity.
  - unfold freeResponseItemXml. do 6 apply includes_append_r.
    apply includes_between; reflexivity.
Qed.

Lemma questionXml_no_respcondition (q : QuizQuestion) (index : nat) :
  noAnswerMarkedCorrect q ->
  includes "<respcondition" (questionXml q index) = false.
Proof.
  intros Hno. apply transparent_absent; [exact respcondition_nonempty|].
  unfold questionXml.
  destruct (String.eqb (question_type q) "multiple_choice");
    [destruct (question_answers q) as [answers|] eqn:Ea|].
  - apply choiceItemXml_no_respcondition; [apply qId_no_lt|].
    apply find_none_of_no_correct. intros a Ha. now apply (Hno answers).
  - apply freeResponseItemXml_no_respcondition, qId_no_lt.
  - apply freeResponseItemXml_no_respcondition, qId_no_lt.
Qed.

(** C3.  For the multiple-choice question with answers A (not correct)
    and B (correct) and 10 points, the item emitted for the question, and
    so the QTI document of every quiz that has the question, contains the
    [<respcondition>] that tests for [ans_1] and sets [SCORE] to 10; the
    item emitted for a question with no answer marked correct contains the
    [<decvar>] declaration and no [<respcondition>]. *)
Theorem qti_respcondition_for_correct_answer :
  let block := T "<respcondition continue='No'>
          <conditionvar>
            <varequal respident='response1'>ans_1</varequal>
          </conditionvar>
          <setvar action='Set' varname='SCORE'>10</setvar>
        </respcondition>" in
  (forall q index,
     question_type q = "multiple_choice" ->
     question_answers q
     = Some [ {| answer_text := "A"; answer_correct := false |};
              {| answer_text := "B"; answer_correct := true |} ] ->
     question_points q = 10%Z ->
     includes block (questionXml q index) = true
     /\ forall item qs,
          item_questions item = Some qs -> In q qs ->
          includes block (generateQuizQti item) = true)
  /\ (forall q index,
        noAnswerMarkedCorrect q ->
        includes (T "<decvar maxvalue='" ++ Number_toString (question_points q)
                  ++ T "' minvalue='0' varname='SCORE' vartype='Decimal'/>")
          (questionXml q index) = true
        /\ includes "<respcondition" (questionXml q index) = false).
Proof.
  intros block.
  assert (Hblock : forall q index,
     question_type q = "multiple_choice" ->
     question_answers q
     = Some [ {| answer_text := "A"; answer_correct := false |};
              {| answer_text := "B"; answer_correct := true |} ] ->
     question_points q = 10%Z ->
     includes block (questionXml q index) = true).
  { intros q index Ht Ha Hp. unfold questionXml. rewrite Ht, Ha.
    cbn [String.eqb Ascii.eqb Bool.eqb].
    apply (includes_trans _
             (respconditionXml
                (indexOf [ {| answer_text := "A"; answer_correct := false |};
                           {| answer_text := "B"; answer_correct := true |} ]
                   {| answer_text := "B"; answer_correct := true |})
                (question_points q))).
    - rewrite Hp. vm_compute. reflexivity.
    - now apply choiceItemXml_respcondition. }
  split.
  - intros q index Ht Ha Hp. split; [now apply Hblock|].
    intros item qs Hq Hin.
    destruct (generateQuizQti_question item qs q Hq Hin) as [i Hi].
    exact (includes_trans _ _ _ (Hblock q i Ht Ha Hp) Hi).
  - intros q index Hno. split.
    + apply questionXml_decvar.
    + now apply questionXml_no_respcondition.
Qed.
Lemma qti_respcondition_for_correct_answer_witness :
  includes "<varequal respident=" (questionXml sampleQuestion 0) = true
  /\ includes (T "<varequal respident='response1'>ans_1</varequal>")
       (generateQuizQti sampleQuiz) = true
  /\ includes (T "<setvar action='Set' varname='SCORE'>10</setvar>")
       (generateQuizQti sampleQuiz) = true
  /\ includes (T "<decvar maxvalue='5' minvalue='0' varname='SCORE' vartype='Decimal'/>")
       (questionXml sampleEssay 1) = true
  /\ includes "<respcondition" (questionXml sampleEssay 1) = false.
Proof.
  pose proof (proj1 qti_respcondition_for_correct_answer sampleQuestion 0
                eq_refl eq_refl eq_refl) as [H1 H2].
  specialize (H2 sampleQuiz [sampleQuestion] eq_refl (or_introl eq_refl)).
  assert (Hno : noAnswerMarkedCorrect sampleEssay).
  { intros answers a Ha. discriminate Ha. }
  pose proof (proj2 qti_respcondition_for_correct_answer sampleEssay 1 Hno)
    as [H3 H4].
  split; [|split; [|split; [|split]]].
  - refine (includes_trans _ _ _ _ H1). vm_compute. reflexivity.
  - refine (includes_trans _ _ _ _ H2). vm_compute. reflexivity.
  - refine (includes_trans _ _ _ _ H2). vm_compute. reflexivity.
  - exact H3.
  - exact H4.
Defined.


(** ** The normalizer *)

Lemma get_field (v : value) (key : string) :
  nullish v = false -> get v key = Ok (field v key).
Proof. now destruct v. Qed.

Lemma get_throws (v : value) (key : string) :
  nullish v = true -> get v key = Throw TypeError.
Proof. now destruct v. Qed.

Lemma mapi_result_from_nth {A B : Type} (f : A -> nat -> result B)
    (start : nat) (xs : list A) (ys : list B) :
  mapi_result_from f start xs = Ok ys ->
  length ys = length xs
  /\ forall i x, nth_error xs i = Some x ->
       exists y, f x (start + i) = Ok y /\ nth_error ys i = Some y.
Proof.
  revert start ys. induction xs as [|x xs IH]; intros start ys H.
  - injection H as <-. split; [reflexivity|]. now intros [|i] x.
  - cbn [mapi_result_from] in H.
    destruct (f x start) as [y|e] eqn:Ey; [|discriminate].
    cbn [bind] in H.
    destruct (mapi_result_from f (S start) xs) as [ys'|e] eqn:Eys;
      [|discriminate].
    injection H as <-. destruct (IH _ _ Eys) as [Hl Hn].
    split; [cbn [length]; now rewrite Hl|].
    intros [|i] x' Hx; cbn [nth_error] in *.
    + injection Hx as <-. exists y. now rewrite Nat.add_0_r.
    + destruct (Hn i x' Hx) as (y' & Hy' & Hny).
      exists y'. now rewrite <- Nat.add_succ_comm.
Qed.

Lemma mapi_result_from_ok {A B : Type} (f : A -> nat -> result B)
    (ok : A -> bool) (start : nat) (xs : list A) :
  (forall x i, ok x = true -> exists y, f x i = Ok y) ->
  forallb ok xs = true ->
  exists ys, mapi_result_from f start xs = Ok ys.
Proof.
  intros Hf. revert start. induction xs as [|x xs IH]; intros start H.
  - now exists [].
  - cbn [forallb] in H. apply andb_true_iff in H as [Hx Hxs].
    destruct (Hf x start Hx) as [y Hy]. destruct (IH (S start) Hxs) as [ys Hys].
    exists (y :: ys). cbn [mapi_result_from]. now rewrite Hy, Hys.
Qed.

Lemma mapi_result_from_throws {A B : Type} (f : A -> nat -> result B)
    (ok : A -> bool) (start : nat) (xs : list A) (ys : list B) :
  (forall x i y, f x i = Ok y -> ok x = true) ->
  mapi_result_from f start xs = Ok ys -> forallb ok xs = true.
Proof.
  intros Hf. revert start ys. induction xs as [|x xs IH]; intros start ys H.
  - reflexivity.
  - cbn [mapi_result_from] in H.
    destruct (f x start) as [y|e] eqn:Ey; [|discriminate].
    cbn [bind] in H.
    destruct (mapi_result_from f (S start) xs) as [ys'|e] eqn:Eys;
      [|discriminate].
    cbn [forallb]. now rewrite (Hf _ _ _ Ey), (IH _ _ Eys).
Qed.

(** What [normalizeItem] returns on anything but [undefined] and [null]. *)
Lemma normalizeItem_ok (moduleIndex : nat) (item : value) (itemIndex : nat) :
  nullish item = false ->
  normalizeItem moduleIndex item itemIndex
  = Ok {| out_item_id :=
            js_or (field item "id")
              (VStr ("item-" ++ index1 moduleIndex ++ "-" ++ index1 itemIndex));
          out_item_type := js_or (field item "type") (VStr "page");
          out_item_title :=
            js_or (field item "title") (VStr ("Item " ++ index1 itemIndex));
          out_item_content := field item "content";
          out_item_position :=
            js_coalesce (field item "position")
              (VNum (Z.of_nat (itemIndex + 1)));
          out_item_points := field item "points";
          out_item_rubric := field item "rubric";
          out_item_questions := field item "questions";
          out_item_prompt := field item "prompt" |}.
Proof.
  intros H. unfold normalizeItem. now rewrite !(get_field _ _ H).
Qed.

Lemma normalizeItem_throws (moduleIndex : nat) (item : value) (itemIndex : nat) :
  nullish item = true ->
  normalizeItem moduleIndex item itemIndex = Throw TypeError.
Proof. intros H. unfold normalizeItem. now rewrite (get_throws _ _ H). Qed.

Lemma normalizeModule_ok (module : value) (moduleIndex : nat) :
  nullish module = false ->
  normalizeModule module moduleIndex
  = (items' <- match js_or (field module "items") (VArr []) with
               | VArr elems => mapi_result (normalizeItem moduleIndex) elems
               | _ => Throw TypeError
               end ;;
     Ok {| out_module_id :=
             js_or (field module "id") (VStr ("module-" ++ index1 moduleIndex));
           out_module_name :=
             js_or (field module "name") (VStr ("Module " ++ index1 moduleIndex));
           out_module_position :=
             js_coalesce (field module "position")
               (VNum (Z.of_nat (moduleIndex + 1)));
           out_module_items := items' |}).
Proof.
  intros H. unfold normalizeModule. now rewrite !(get_field _ _ H).
Qed.

Lemma normalizeItem_returns (moduleIndex : nat) (item : value) (itemIndex : nat) :
  itemOk item = true -> exists y, normalizeItem moduleIndex item itemIndex = Ok y.
Proof.
  unfold itemOk. intros H. apply negb_true_iff in H.
  eexists. now apply normalizeItem_ok.
Qed.

Lemma normalizeItem_returned (moduleIndex : nat) (item : value)
    (itemIndex : nat) (y : NormalizedItem) :
  normalizeItem moduleIndex item itemIndex = Ok y -> itemOk item = true.
Proof.
  unfold itemOk. destruct (nullish item) eqn:E; [|reflexivity].
  now rewrite (normalizeItem_throws _ _ _ E).
Qed.

Lemma normalizeModule_returns (module : value) (moduleIndex : nat) :
  moduleOk module = true -> exists y, normalizeModule module moduleIndex = Ok y.
Proof.
  unfold moduleOk. intros H. apply andb_true_iff in H as [Hn Hi].
  apply negb_true_iff in Hn. rewrite (normalizeModule_ok _ _ Hn).
  destruct (js_or (field module "items") (VArr [])); try discriminate.
  destruct (mapi_result_from_ok (normalizeItem moduleIndex) itemOk 0 elems)
    as [ys Hys]; [intros; now apply normalizeItem_returns | exact Hi |].
  unfold mapi_result. rewrite Hys. cbn [bind]. now eexists.
Qed.

Lemma normalizeModule_returned (module : value) (moduleIndex : nat)
    (y : NormalizedModule) :
  normalizeModule module moduleIndex = Ok y -> moduleOk module = true.
Proof.
  unfold moduleOk. destruct (nullish module) eqn:E.
  - unfold normalizeModule. now rewrite (get_throws _ _ E).
  - rewrite (normalizeModule_ok _ _ E). cbn [negb andb].
    destruct (js_or (field module "items") (VArr [])); try discriminate.
    unfold mapi_result.
    destruct (mapi_result_from (normalizeItem moduleIndex) 0 elems)
      as [ys|e] eqn:Eys; [|discriminate].
    intros _. apply (mapi_result_from_throws _ _ _ _ _
                       (normalizeItem_returned moduleIndex) Eys).
Qed.

(** The normalization returns exactly on the shapes of [courseOk]. *)
Lemma normalizeCourse_returns (course : value) :
  courseOk course = true <-> exists out, normalizeCourse course = Ok out.
Proof.
  unfold courseOk, normalizeCourse. split.
  - intros H. apply andb_true_iff in H as [H Hm].
    apply andb_true_iff in H as [Hn Ht]. apply negb_true_iff in Hn.
    rewrite !(get_field _ _ Hn). cbn [bind]. rewrite Ht.
    destruct (field course "modules"); try discriminate.
    cbn [truthy isArray negb orb].
    apply (mapi_result_from_ok normalizeModule moduleOk 0 elems);
      [intros; now apply normalizeModule_returns | exact Hm].
  - intros [out H]. destruct (nullish course) eqn:En.
    + now rewrite (get_throws _ _ En) in H.
    + rewrite !(get_field _ _ En) in H. cbn [bind] in H.
      cbn [negb andb]. destruct (truthy (field course "title"));
        [|discriminate].
      destruct (field course "modules");
        try (cbn [isArray negb] in H; rewrite orb_true_r in H; discriminate).
      cbn [truthy isArray negb orb] in H. cbn [andb].
      apply (mapi_result_from_throws _ _ _ _ _ normalizeModule_returned H).
Qed.
Lemma normalizeModule_fields (module : value) (moduleIndex : nat)
    (m' : NormalizedModule) :
  normalizeModule module moduleIndex = Ok m' ->
  out_module_id m'
  = js_or (field module "id") (VStr ("module-" ++ index1 moduleIndex))
  /\ out_module_name m'
     = js_or (field module "name") (VStr ("Module " ++ index1 moduleIndex))
  /\ out_module_position m'
     = js_coalesce (field module "position") (VNum (Z.of_nat (moduleIndex + 1)))
  /\ length (out_module_items m') = length (itemsOf module)
  /\ forall j item, nth_error (itemsOf module) j = Some item ->
       nullish item = false
       /\ exists it',
            nth_error (out_module_items m') j = Some it'
            /\ normalizeItem moduleIndex item j = Ok it'.
Proof.
  intros H. pose proof (normalizeModule_returned _ _ _ H) as Hok.
  unfold moduleOk in Hok. apply andb_true_iff in Hok as [Hn Hitems].
  apply negb_true_iff in Hn. rewrite (normalizeModule_ok _ _ Hn) in H.
  unfold itemsOf.
  destruct (js_or (field module "items") (VArr [])); try discriminate.
  unfold mapi_result in H.
  destruct (mapi_result_from (normalizeItem moduleIndex) 0 elems)
    as [ys|e] eqn:Eys; [|discriminate].
  cbn [bind] in H. injection H as <-. cbn.
  destruct (mapi_result_from_nth _ _ _ _ Eys) as [Hl Hnth].
  repeat split; [exact Hl| |].
  - rewrite forallb_forall in Hitems.
    apply nth_error_In in H. apply Hitems in H.
    now apply negb_true_iff in H.
  - destruct (Hnth j item H) as (y & Hy & Hny). now exists y.
Qed.

(** C1 (amended).  On every course object that the route normalizes, the
    module at index [i] gets [id] and [name] from the object when they are
    truthy and [module-{i+1}], [Module {i+1}] otherwise (absent, [null],
    [false], 0 or the empty string), and [position] from the object unless
    it is absent or [null], when it is [i+1]. *)
Theorem normalize_module_fields :
  forall course,
    courseOk course = true ->
    exists modules out,
      field course "modules" = VArr modules
      /\ normalizeCourse course = Ok out
      /\ length out = length modules
      /\ forall i module,
           nth_error modules i = Some module ->
           exists m',
             nth_error out i = Some m'
             /\ out_module_id m'
                = (if truthy (field module "id") then field module "id"
                   else VStr ("module-" ++ Number_toString (Z.of_nat (i + 1))))
             /\ out_module_name m'
                = (if truthy (field module "name") then field module "name"
                   else VStr ("Module " ++ Number_toString (Z.of_nat (i + 1))))
             /\ out_module_position m'
                = (if nullish (field module "position")
                   then VNum (Z.of_nat (i + 1))
                   else field module "position").
Proof.
  intros course Hok.
  destruct (proj1 (normalizeCourse_returns course) Hok) as [out Hout].
  unfold courseOk in Hok. apply andb_true_iff in Hok as [Hok Hm].
  apply andb_true_iff in Hok as [Hn Ht]. apply negb_true_iff in Hn.
  destruct (field course "modules") as [| | | | |modules|] eqn:Em;
    try discriminate.
  exists modules, out. split; [reflexivity|]. split; [exact Hout|].
  unfold normalizeCourse in Hout. rewrite !(get_field _ _ Hn) in Hout.
  cbn [bind] in Hout. rewrite Ht, Em in Hout.
  cbn [truthy isArray negb orb] in Hout.
  destruct (mapi_result_from_nth _ _ _ _ Hout) as [Hl Hnth].
  split; [exact Hl|].
  intros i module Hi. destruct (Hnth i module Hi) as (m' & Hm' & Hnm').
  exists m'. split; [exact Hnm'|].
  destruct (normalizeModule_fields _ _ _ Hm') as (H1 & H2 & H3 & _).
  cbn [Nat.add] in H1, H2, H3. now rewrite H1, H2, H3.
Qed.

Lemma normalize_module_fields_witness :
  exists out,
    normalizeCourse sampleRawCourse = Ok out
    /\ map out_module_id out = [VStr "module-1"; VStr "module-2"]
    /\ map out_module_name out = [VStr "Week one"; VStr "Module 2"]
    /\ map out_module_position out = [VNum 0; VNum 2].
Proof.
  destruct (normalize_module_fields sampleRawCourse eq_refl)
    as (modules & out & Hm & Hout & _ & _).
  exists out. split; [exact Hout|].
  vm_compute in Hout. injection Hout as <-. repeat split.
Defined.

(** The module of the sample reply has an [id], the empty string, and
    the normalizer replaces it. *)
Lemma present_module_id_overwritten :
  present sampleRawModule "id" = true
  /\ field sampleRawModule "id" = VStr ""
  /\ exists m' rest,
       normalizeCourse sampleRawCourse = Ok (m' :: rest)
       /\ out_module_id m' = VStr "module-1"
       /\ out_module_id m' <> field sampleRawModule "id".
Proof.
  split; [reflexivity|]. split; [reflexivity|].
  eexists _, _. split; [vm_compute; reflexivity|].
  split; [reflexivity | discriminate].
Qed.
(** C2 (amended).  The item at index [j] of the module at index [m] gets
    [id], [type] and [title] from the object when they are truthy and
    [item-{m+1}-{j+1}], [page], [Item {j+1}] otherwise (absent, [null],
    [false], 0 or the empty string), [position] from the object unless it
    is absent or [null], when it is [j+1]; [content], [points], [rubric],
    [questions] and [prompt] are copied, [undefined] included. *)
Theorem normalize_item_fields :
  forall course,
    courseOk course = true ->
    exists modules out,
      field course "modules" = VArr modules
      /\ normalizeCourse course = Ok out
      /\ forall m module,
           nth_error modules m = Some module ->
           exists m',
             nth_error out m = Some m'
             /\ length (out_module_items m') = length (itemsOf module)
             /\ forall j item,
                  nth_error (itemsOf module) j = Some item ->
                  exists it',
                    nth_error (out_module_items m') j = Some it'
                    /\ out_item_id it'
                       = (if truthy (field item "id") then field item "id"
                          else VStr ("item-" ++ Number_toString (Z.of_nat (m + 1))
                                     ++ "-" ++ Number_toString (Z.of_nat (j + 1))))
                    /\ out_item_type it'
                       = (if truthy (field item "type") then field item "type"
                          else VStr "page")
                    /\ out_item_title it'
                       = (if truthy (field item "title") then field item "title"
                          else VStr ("Item " ++ Number_toString (Z.of_nat (j + 1))))
                    /\ out_item_position it'
                       = (if nullish (field item "position")
                          then VNum (Z.of_nat (j + 1))
                          else field item "position")
                    /\ out_item_content it' = field item "content"
                    /\ out_item_points it' = field item "points"
                    /\ out_item_rubric it' = field item "rubric"
                    /\ out_item_questions it' = field item "questions"
                    /\ out_item_prompt it' = field item "prompt".
Proof.
  intros course Hok.
  destruct (proj1 (normalizeCourse_returns course) Hok) as [out Hout].
  unfold courseOk in Hok. apply andb_true_iff in Hok as [Hok Hm].
  apply andb_true_iff in Hok as [Hn Ht]. apply negb_true_iff in Hn.
  destruct (field course "modules") as [| | | | |modules|] eqn:Em;
    try discriminate.
  exists modules, out. split; [reflexivity|]. split; [exact Hout|].
  unfold normalizeCourse in Hout. rewrite !(get_field _ _ Hn) in Hout.
  cbn [bind] in Hout. rewrite Ht, Em in Hout.
  cbn [truthy isArray negb orb] in Hout.
  destruct (mapi_result_from_nth _ _ _ _ Hout) as [_ Hnth].
  intros m module Hi. destruct (Hnth m module Hi) as (m' & Hm' & Hnm').
  exists m'. split; [exact Hnm'|]. cbn [Nat.add] in Hm'.
  destruct (normalizeModule_fields _ _ _ Hm') as (_ & _ & _ & Hl & Hitems).
  split; [exact Hl|].
  intros j item Hj. destruct (Hitems j item Hj) as (Hnn & it' & Hit' & Hnorm).
  exists it'. split; [exact Hit'|].
  rewrite (normalizeItem_ok _ _ _ Hnn) in Hnorm. injection Hnorm as <-.
  cbn. repeat split.
Qed.

Lemma normalize_item_fields_witness :
  exists m' it' rest,
    normalizeCourse sampleRawCourse = Ok (m' :: rest)
    /\ out_module_items m' = [it']
    /\ out_item_id it' = VStr "intro"
    /\ out_item_type it' = VStr "page"
    /\ out_item_title it' = VStr "Item 1"
    /\ out_item_position it' = VNum 0
    /\ out_item_content it' = VStr "<p>Hi</p>"
    /\ out_item_points it' = VUndefined.
Proof.
  destruct (normalize_item_fields sampleRawCourse eq_refl)
    as (modules & out & Hm & Hout & _).
  vm_compute in Hout. injection Hout as <-.
  eexists _, _, _. split; [vm_compute; reflexivity|]. repeat split.
Defined.

(** The item of the sample reply has a [title], the empty string, and the
    normalizer replaces it. *)
Lemma present_item_title_overwritten :
  present sampleRawItem "title" = true
  /\ field sampleRawItem "title" = VStr ""
  /\ exists m' it' rest,
       normalizeCourse sampleRawCourse = Ok (m' :: rest)
       /\ out_module_items m' = [it']
       /\ out_item_title it' = VStr "Item 1"
       /\ out_item_title it' <> field sampleRawItem "title".
Proof.
  split; [reflexivity|]. split; [reflexivity|].
  eexists _, _, _. split; [vm_compute; reflexivity|].
  split; [reflexivity|]. split; [reflexivity | discriminate].
Qed.
(** ** The LLM client *)

(** *** Trimming and slicing *)

Lemma trimEnd_idempotent (s : string) : trimEnd (trimEnd s) = trimEnd s.
Proof.
  induction s as [|c s IH]; [reflexivity|].
  cbn [trimEnd]. destruct (trimEnd s) as [|d t] eqn:E.
  - destruct (isWhiteSpace c) eqn:Ec; [reflexivity|].
    cbn [trimEnd]. now rewrite Ec.
  - cbn [trimEnd] in *. now rewrite IH.
Qed.

Lemma trimEnd_append (a b : string) :
  trimEnd b <> "" -> trimEnd (a ++ b) = a ++ trimEnd b.
Proof.
  intros Hb. induction a as [|x a IH]; [reflexivity|].
  cbn [append trimEnd]. rewrite IH.
  destruct (a ++ trimEnd b) eqn:E; [|reflexivity].
  destruct a; [now elim Hb | discriminate].
Qed.

Lemma trimEnd_head (c : ascii) (s : string) :
  isWhiteSpace c = false -> exists t, trimEnd (String c s) = String c t.
Proof.
  intros Hc. cbn [trimEnd]. destruct (trimEnd s).
  - rewrite Hc. now exists "".
  - now eexists.
Qed.

Lemma trim_head (c : ascii) (s : string) :
  isWhiteSpace c = false -> exists t, trim (String c s) = String c t.
Proof.
  intros Hc. unfold trim. cbn [trimStart]. rewrite Hc.
  now apply trimEnd_head.
Qed.

Lemma jsonValueStart_not_space (c : ascii) :
  jsonValueStart c = true ->
  isWhiteSpace c = false /\ c <> "`"%char /\ c <> "j"%char.
Proof.
  destruct c as [[] [] [] [] [] [] [] []]; cbv; intros H;
    try discriminate H; repeat split; discriminate.
Qed.

Lemma jsonValueEnd_not_backtick (c : ascii) :
  jsonValueEnd c = true -> c <> "`"%char.
Proof.
  destruct c as [[] [] [] [] [] [] [] []]; cbv; intros H;
    try discriminate H; discriminate.
Qed.
(** *** Fences *)

Lemma trim_fenced (opening body : string) (c : ascii) :
  isWhiteSpace c = false ->
  trim (String c opening ++ body ++ "```") = String c opening ++ body ++ "```".
Proof.
  intros Hc. unfold trim. cbn [append trimStart]. rewrite Hc.
  change (String c (opening ++ body ++ "```"))
    with (String c opening ++ body ++ "```").
  rewrite <- append_assoc. rewrite trimEnd_append; [reflexivity|].
  discriminate.
Qed.

Lemma cleanResponse_jsonFence (body : string) :
  cleanResponse (jsonFence body) = trim body.
Proof.
  unfold cleanResponse, jsonFence.
  rewrite (trim_fenced "``json" body "`"%char eq_refl).
  unfold startsWith. rewrite prefix_append.
  change (slice_from 7 ("```json" ++ body ++ "```")) with (body ++ "```").
  rewrite endsWith_append.
  pose proof (slice_drop_last_append body "```") as Hs.
  cbn [String.length] in Hs. now rewrite Hs.
Qed.

Lemma jsonTextShape_trim (text : string) :
  jsonTextShape text = true ->
  exists c rest d,
    trim text = String c rest
    /\ jsonValueStart c = true
    /\ lastChar (trim text) = Some d
    /\ jsonValueEnd d = true.
Proof.
  unfold jsonTextShape. destruct (trim text) as [|c rest]; [discriminate|].
  intros H. apply andb_true_iff in H as [Hc Hd].
  destruct (lastChar (String c rest)) as [d|]; [|discriminate].
  now exists c, rest, d.
Qed.

Lemma trim_idempotent_on (text : string) (c : ascii) (rest : string) :
  trim text = String c rest -> isWhiteSpace c = false ->
  trim (trim text) = trim text.
Proof.
  intros E Hc. unfold trim at 1. rewrite E. cbn [trimStart]. rewrite Hc.
  rewrite <- E. unfold trim. apply trimEnd_idempotent.
Qed.

Lemma cleanResponse_plain (text : string) :
  jsonTextShape text = true -> cleanResponse text = trim text.
Proof.
  intros H. destruct (jsonTextShape_trim _ H) as (c & rest & d & E & Hc & El & Hd).
  destruct (jsonValueStart_not_space _ Hc) as (Hws & Hbt & _).
  unfold cleanResponse.
  assert (S1 : startsWith "```json" (trim text) = false).
  { rewrite E. unfold startsWith. cbn [String.prefix].
    destruct (ascii_dec "`" c); [congruence | reflexivity]. }
  assert (S2 : startsWith "```" (trim text) = false).
  { rewrite E. unfold startsWith. cbn [String.prefix].
    destruct (ascii_dec "`" c); [congruence | reflexivity]. }
  rewrite S1, S2.
  assert (S3 : endsWith "```" (trim text) = false).
  { destruct (endsWith "```" (trim text)) eqn:Ee; [|reflexivity].
    destruct (endsWith_split _ _ Ee) as [a Ea].
    rewrite Ea in El. change "```" with ("``" ++ String "`" "") in El.
    rewrite <- append_assoc, lastChar_append in El.
    injection El as <-. now elim (jsonValueEnd_not_backtick _ Hd). }
  rewrite S3. exact (trim_idempotent_on _ _ _ E Hws).
Qed.

Lemma cleanResponse_bareFence (body : string) :
  jsonTextShape body = true ->
  cleanResponse (bareFence body) = trim body.
Proof.
  intros H. unfold cleanResponse, bareFence.
  rewrite (trim_fenced "``" body "`"%char eq_refl).
  assert (E : startsWith "```json" ("```" ++ body ++ "```") = false).
  { change (startsWith "```json" ("```" ++ body ++ "```"))
      with (String.prefix "json" (body ++ "```")).
    destruct (jsonTextShape_trim _ H) as (c & rest & d & Et & Hc & _).
    destruct (jsonValueStart_not_space _ Hc) as (_ & _ & Hj).
    destruct body as [|x body]; [discriminate Et|].
    cbn [append]. rewrite prefix_cons.
    destruct (Ascii.eqb_spec "j" x) as [<-|]; [|reflexivity].
    destruct (trim_head "j" body eq_refl) as [t Ex].
    rewrite Ex in Et. now injection Et as <-. }
  rewrite E. unfold startsWith. rewrite prefix_append.
  change (slice_from 3 ("```" ++ body ++ "```")) with (body ++ "```").
  rewrite endsWith_append.
  pose proof (slice_drop_last_append body "```") as Hs.
  cbn [String.length] in Hs. now rewrite Hs.
Qed.
(** *** JSON texts *)

Lemma lastChar_append_nonempty (a b : string) :
  b <> "" -> lastChar (a ++ b) = lastChar b.
Proof.
  intros Hb. destruct b as [|c b]; [now elim Hb|]. apply lastChar_append.
Qed.

Lemma isDigit_value_char (c : ascii) :
  isDigit c = true -> jsonValueStart c = true /\ jsonValueEnd c = true.
Proof.
  destruct c as [[] [] [] [] [] [] [] []]; cbv; intros H;
    try discriminate H; now split.
Qed.

Lemma allChars_lastChar (p : ascii -> bool) (s : string) (d : ascii) :
  allChars p s = true -> lastChar s = Some d -> p d = true.
Proof.
  induction s as [|c s IH]; intros Hs Hd; [discriminate|].
  cbn [allChars] in Hs. apply andb_true_iff in Hs as [Hc Hs].
  destruct s as [|c' s]; [now injection Hd as <-|].
  now apply IH.
Qed.

Lemma lastChar_some (s : string) : s <> "" -> exists d, lastChar s = Some d.
Proof.
  induction s as [|c s IH]; intros Hs; [now elim Hs|].
  destruct s as [|c' s]; [now exists c|].
  apply IH. discriminate.
Qed.

Lemma digits_ends (ds : string) :
  digits ds = true ->
  ds <> ""
  /\ (exists c rest, ds = String c rest /\ isDigit c = true)
  /\ exists d, lastChar ds = Some d /\ isDigit d = true.
Proof.
  unfold digits. intros H. apply andb_true_iff in H as [Hne Hall].
  apply negb_true_iff, String.eqb_neq in Hne.
  split; [exact Hne|]. split.
  - destruct ds as [|c rest]; [now elim Hne|].
    cbn [allChars] in Hall. apply andb_true_iff in Hall as [Hc _].
    now exists c, rest.
  - destruct (lastChar_some ds Hne) as [d Hd]. exists d.
    split; [exact Hd | exact (allChars_lastChar _ _ _ Hall Hd)].
Qed.

Lemma JsonNumber_ends (s : string) :
  JsonNumber s ->
  exists c rest d,
    s = String c rest /\ jsonValueStart c = true
    /\ lastChar s = Some d /\ jsonValueEnd d = true.
Proof.
  intros [minus int frac exp Hm Hi Hf He].
  assert (Hint : int <> ""
                 /\ (exists c rest, int = String c rest /\ isDigit c = true)
                 /\ exists d, lastChar int = Some d /\ isDigit d = true).
  { destruct Hi as [-> | [Hd _]]; [|now apply digits_ends].
    split; [discriminate|]. split; [now exists "0"%char, ""|].
    now exists "0"%char. }
  destruct Hint as (Hne & (c & rest & Ec & Hc) & (d & Ed & Hd)).
  assert (Hlast : exists d', lastChar (int ++ frac ++ exp) = Some d'
                             /\ isDigit d' = true).
  { destruct He as [-> | (e & sign & ds & _ & _ & Hds & ->)].
    - rewrite append_nil_r.
      destruct Hf as [-> | (ds & Hds & ->)].
      + rewrite append_nil_r. now exists d.
      + destruct (digits_ends _ Hds) as (Hn & _ & d' & Ed' & Hd').
        exists d'. split; [|exact Hd'].
        rewrite lastChar_append_nonempty by discriminate.
        now rewrite (lastChar_append_nonempty "." ds Hn).
    - destruct (digits_ends _ Hds) as (Hn & _ & d' & Ed' & Hd').
      exists d'. split; [|exact Hd'].
      rewrite <- !append_assoc. now rewrite lastChar_append_nonempty. }
  destruct Hlast as (d' & Ed' & Hd').
  assert (Hne' : int ++ frac ++ exp <> "").
  { rewrite Ec. discriminate. }
  destruct Hm as [-> | ->].
  - exists c, (rest ++ frac ++ exp), d'. rewrite Ec in *.
    repeat split; [apply isDigit_value_char, Hc | exact Ed'
                   | apply isDigit_value_char, Hd'].
  - exists "-"%char, (int ++ frac ++ exp), d'.
    repeat split; [|apply isDigit_value_char, Hd'].
    now rewrite lastChar_append_nonempty.
Qed.

Lemma bracketed_ends (o c : ascii) (body : string) :
  jsonValueStart o = true -> jsonValueEnd c = true ->
  exists x rest d,
    String o "" ++ body ++ String c "" = String x rest
    /\ jsonValueStart x = true
    /\ lastChar (String o "" ++ body ++ String c "") = Some d
    /\ jsonValueEnd d = true.
Proof.
  intros Ho Hc. exists o, (body ++ String c ""), c.
  repeat split; try assumption.
  now rewrite <- append_assoc, lastChar_append.
Qed.

(** A JSON value begins and ends with characters that are neither white
    space nor a backtick. *)
Lemma JsonValue_ends (v : string) :
  JsonValue v ->
  exists c rest d,
    v = String c rest /\ jsonValueStart c = true
    /\ lastChar v = Some d /\ jsonValueEnd d = true.
Proof.
  intros [ | | | s Hs | s _ | ws _ | elements _ | ws _ | members _ ].
  - now exists "n"%char, "ull", "l"%char.
  - now exists "t"%char, "rue", "e"%char.
  - now exists "f"%char, "alse", "e"%char.
  - now apply JsonNumber_ends.
  - now apply (bracketed_ends dquote_char dquote_char).
  - now apply (bracketed_ends "[" "]").
  - now apply (bracketed_ends "[" "]").
  - now apply (bracketed_ends "{" "}").
  - now apply (bracketed_ends "{" "}").
Qed.

Lemma isJsonSpace_isWhiteSpace (c : ascii) :
  isJsonSpace c = true -> isWhiteSpace c = true.
Proof.
  destruct c as [[] [] [] [] [] [] [] []]; cbv; intros H;
    try discriminate H; reflexivity.
Qed.

Lemma trimStart_ws (ws s : string) :
  isJsonWs ws = true -> trimStart (ws ++ s) = trimStart s.
Proof.
  induction ws as [|c ws IH]; intros H; [reflexivity|].
  cbn [isJsonWs allChars] in H. apply andb_true_iff in H as [Hc H].
  cbn [append trimStart]. rewrite (isJsonSpace_isWhiteSpace _ Hc).
  now apply IH.
Qed.

Lemma trimEnd_ws (ws : string) : isJsonWs ws = true -> trimEnd ws = "".
Proof.
  induction ws as [|c ws IH]; intros H; [reflexivity|].
  cbn [isJsonWs allChars] in H. apply andb_true_iff in H as [Hc H].
  cbn [trimEnd]. rewrite (IH H). now rewrite (isJsonSpace_isWhiteSpace _ Hc).
Qed.

Lemma trimEnd_fixed (s : string) (d : ascii) :
  lastChar s = Some d -> isWhiteSpace d = false -> trimEnd s = s.
Proof.
  induction s as [|c s IH]; intros Hd Hw; [discriminate|].
  destruct s as [|c' s].
  - injection Hd as ->. cbn [trimEnd]. now rewrite Hw.
  - cbn [trimEnd]. change (match trimEnd (String c' s) with
                           | "" => if isWhiteSpace c then "" else String c ""
                           | String a t => String c (String a t)
                           end = String c (String c' s)).
    now rewrite (IH Hd Hw).
Qed.

Lemma trimEnd_append_ws (s ws : string) :
  isJsonWs ws = true -> trimEnd (s ++ ws) = trimEnd s.
Proof.
  intros H. induction s as [|c s IH].
  - cbn [append]. now rewrite trimEnd_ws.
  - cbn [append trimEnd]. now rewrite IH.
Qed.

Lemma jsonValueEnd_not_space (c : ascii) :
  jsonValueEnd c = true -> isWhiteSpace c = false.
Proof.
  destruct c as [[] [] [] [] [] [] [] []]; cbv; intros H;
    try discriminate H; reflexivity.
Qed.

(** Every JSON text has the shape that [jsonTextShape] tests. *)
Lemma JsonText_shape (text : string) :
  JsonText text -> jsonTextShape text = true.
Proof.
  intros [ws1 v ws2 H1 Hv H2].
  destruct (JsonValue_ends v Hv) as (c & rest & d & Ev & Hc & Ed & Hd).
  assert (Et : trim (ws1 ++ v ++ ws2) = v).
  { unfold trim. rewrite (trimStart_ws _ _ H1).
    rewrite Ev at 1. cbn [append trimStart].
    destruct (jsonValueStart_not_space _ Hc) as (-> & _).
    change (String c (rest ++ ws2)) with (String c rest ++ ws2).
    rewrite <- Ev, (trimEnd_append_ws _ _ H2).
    exact (trimEnd_fixed v d Ed (jsonValueEnd_not_space _ Hd)). }
  unfold jsonTextShape. rewrite Et, Ev, <- Ev, Ed.
  now rewrite Hc, Hd.
Qed.

(** *** [generateJSONResponse] *)

Lemma parseResponse_same_clean
    (JSON_parse : string -> option value) (r1 r2 : string) (w : World) :
  cleanResponse r1 = cleanResponse r2 ->
  fst (parseResponse JSON_parse r1 w) = fst (parseResponse JSON_parse r2 w).
Proof.
  intros E. unfold parseResponse. rewrite E.
  now destruct (JSON_parse (cleanResponse r2)).
Qed.

Lemma prefix_before_fence (n body : string) :
  mem_char "`" n = false ->
  String.prefix n (body ++ "```") = String.prefix n body.
Proof.
  revert n. induction body as [|a body IH]; intros [|x n] H;
    try reflexivity.
  - cbn [append]. change "```" with (String "`" "``").
    rewrite prefix_cons. cbn [mem_char] in H.
    apply orb_false_iff in H as [H _]. now rewrite H.
  - cbn [append]. rewrite !prefix_cons. cbn [mem_char] in H.
    apply orb_false_iff in H as [_ H]. now rewrite (IH n H).
Qed.

(** A bare fence around a body that does not begin with [json] is
    stripped like the [```json] fence, whatever the body. *)
Lemma cleanResponse_bareFence_any (body : string) :
  startsWith "json" body = false ->
  cleanResponse (bareFence body) = trim body.
Proof.
  intros Hj. unfold cleanResponse, bareFence.
  rewrite (trim_fenced "``" body "`"%char eq_refl).
  assert (E : startsWith "```json" ("```" ++ body ++ "```") = false).
  { change (startsWith "```json" ("```" ++ body ++ "```"))
      with (String.prefix "json" (body ++ "```")).
    now rewrite prefix_before_fence. }
  rewrite E. unfold startsWith. rewrite prefix_append.
  change (slice_from 3 ("```" ++ body ++ "```")) with (body ++ "```").
  rewrite endsWith_append.
  pose proof (slice_drop_last_append body "```") as Hs.
  cbn [String.length] in Hs. now rewrite Hs.
Qed.

(** A reply that is a JSON text, bare or inside a fence, is cleaned to
    the text without the white space around it. *)
Lemma cleanResponse_json (body reply : string) :
  JsonText body ->
  reply = body \/ reply = jsonFence body \/ reply = bareFence body ->
  cleanResponse reply = trim body.
Proof.
  intros Hs Hr. apply JsonText_shape in Hs.
  destruct Hr as [-> | [-> | ->]].
  - now apply cleanResponse_plain.
  - apply cleanResponse_jsonFence.
  - now apply cleanResponse_bareFence.
Qed.

(** C6.  A reply that is a JSON text (RFC 8259), bare, inside a [```json]
    fence or inside a bare fence, is cleaned to the text without the
    white space around it, and this is what [JSON.parse] is given: the
    call returns the value that [JSON.parse] makes of it, the same value
    for the three replies.  A reply that [JSON.parse] rejects after the
    fences are stripped makes the call throw the error [LLM response was
    not valid JSON] and log the raw reply, and a reply that it accepts
    makes the call return the parsed value. *)
Theorem json_reply_fences_and_failure :
  forall (JSON_parse : string -> option value),
    (forall generateText messages options w body reply,
       JsonText body ->
       reply = body \/ reply = jsonFence body \/ reply = bareFence body ->
       generateLLMResponse generateText messages options
         (addJsonInstruction messages w) = Ok reply ->
       cleanResponse reply = trim body
       /\ generateJSONResponse generateText JSON_parse messages options w
          = match JSON_parse (trim body) with
            | Some v => (Ok v, addJsonInstruction messages w)
            | None =>
                (Throw (Error "LLM response was not valid JSON"),
                 {| store := store (addJsonInstruction messages w);
                    console :=
                      (console (addJsonInstruction messages w)
                       ++ [("Failed to parse LLM response as JSON:",
                            reply)])%list |})
            end)
    /\ ((forall body, cleanResponse (jsonFence body) = trim body)
        /\ (forall body,
               startsWith "json" body = false ->
               cleanResponse (bareFence body) = trim body))
    /\ (forall generateText1 generateText2 messages options w body reply,
          JsonText body ->
          reply = jsonFence body \/ reply = bareFence body ->
          generateLLMResponse generateText1 messages options
            (addJsonInstruction messages w) = Ok reply ->
          generateLLMResponse generateText2 messages options
            (addJsonInstruction messages w) = Ok body ->
          fst (generateJSONResponse generateText1 JSON_parse messages options w)
          = fst (generateJSONResponse generateText2 JSON_parse messages options w))
    /\ (forall generateText messages options w reply,
          generateLLMResponse generateText messages options
            (addJsonInstruction messages w) = Ok reply ->
          JSON_parse (cleanResponse reply) = None ->
          generateJSONResponse generateText JSON_parse messages options w
          = (Throw (Error "LLM response was not valid JSON"),
             {| store := store (addJsonInstruction messages w);
                console :=
                  (console (addJsonInstruction messages w)
                   ++ [("Failed to parse LLM response as JSON:", reply)])%list |}))
    /\ (forall generateText messages options w reply v,
          generateLLMResponse generateText messages options
            (addJsonInstruction messages w) = Ok reply ->
          JSON_parse (cleanResponse reply) = Some v ->
          generateJSONResponse generateText JSON_parse messages options w
          = (Ok v, addJsonInstruction messages w)).
Proof.
  intros JSON_parse. split; [|split; [|split; [|split]]].
  - intros g messages options w body reply Hs Hr H1.
    pose proof (cleanResponse_json body reply Hs Hr) as Ec.
    split; [exact Ec|].
    unfold generateJSONResponse. rewrite H1. unfold parseResponse.
    rewrite Ec. reflexivity.
  - split; [exact cleanResponse_jsonFence | exact cleanResponse_bareFence_any].
  - intros g1 g2 messages options w body reply Hs Hr H1 H2.
    unfold generateJSONResponse. rewrite H1, H2.
    apply parseResponse_same_clean.
    rewrite (cleanResponse_json body body Hs (or_introl eq_refl)).
    apply (cleanResponse_json body reply Hs). now right.
  - intros g messages options w reply H1 Hp.
    unfold generateJSONResponse. rewrite H1. unfold parseResponse.
    now rewrite Hp.
  - intros g messages options w reply v H1 Hp.
    unfold generateJSONResponse. rewrite H1. unfold parseResponse.
    now rewrite Hp.
Qed.

Lemma json_reply_fences_and_failure_witness :
  cleanResponse (jsonFence (nl ++ "{}" ++ nl)) = "{}"
  /\ generateJSONResponse (fun _ => Ok (jsonFence (nl ++ "{}" ++ nl)))
       sampleParse [0] sampleOptions sampleWorld
     = (Ok (VObj []), addJsonInstruction [0] sampleWorld)
  /\ generateJSONResponse (fun _ => Ok (bareFence (nl ++ "{}" ++ nl)))
       sampleParse [0] sampleOptions sampleWorld
     = (Ok (VObj []), addJsonInstruction [0] sampleWorld)
  /\ fst (generateJSONResponse (fun _ => Ok (jsonFence "{,}"))
            sampleParse [0] sampleOptions sampleWorld)
     = Throw (Error "LLM response was not valid JSON")
  /\ console (snd (generateJSONResponse (fun _ => Ok (jsonFence "{,}"))
                     sampleParse [0] sampleOptions sampleWorld))
     = [("Failed to parse LLM response as JSON:", jsonFence "{,}")].
Proof.
  destruct (json_reply_fences_and_failure sampleParse)
    as (H1 & _ & _ & H2 & _).
  assert (Hj : JsonText (nl ++ "{}" ++ nl)).
  { apply (JsonText_intro nl "{}" nl eq_refl); [|reflexivity].
    exact (JsonValue_object_empty "" eq_refl). }
  split; [|split; [|split; [|split]]].
  - exact (proj1 (H1 (fun _ => Ok (jsonFence (nl ++ "{}" ++ nl))) [0]
                    sampleOptions sampleWorld (nl ++ "{}" ++ nl)
                    (jsonFence (nl ++ "{}" ++ nl)) Hj
                    (or_intror (or_introl eq_refl)) eq_refl)).
  - exact (proj2 (H1 (fun _ => Ok (jsonFence (nl ++ "{}" ++ nl))) [0]
                    sampleOptions sampleWorld (nl ++ "{}" ++ nl)
                    (jsonFence (nl ++ "{}" ++ nl)) Hj
                    (or_intror (or_introl eq_refl)) eq_refl)).
  - exact (proj2 (H1 (fun _ => Ok (bareFence (nl ++ "{}" ++ nl))) [0]
                    sampleOptions sampleWorld (nl ++ "{}" ++ nl)
                    (bareFence (nl ++ "{}" ++ nl)) Hj
                    (or_intror (or_intror eq_refl)) eq_refl)).
  - rewrite (H2 (fun _ => Ok (jsonFence "{,}")) [0] sampleOptions sampleWorld
               (jsonFence "{,}")); reflexivity.
  - rewrite (H2 (fun _ => Ok (jsonFence "{,}")) [0] sampleOptions sampleWorld
               (jsonFence "{,}")); reflexivity.
Defined.

(** The store after the call is the store after the instruction was
    added; that step leaves a world alone when the last message is not a
    user message. *)
Lemma generateJSONResponse_store
    (generateText : GenerateTextRequest -> result string)
    (JSON_parse : string -> option value)
    (messages : list ref) (options : LLMOptions) (w : World) :
  store (snd (generateJSONResponse generateText JSON_parse messages options w))
  = store (addJsonInstruction messages w).
Proof.
  unfold generateJSONResponse.
  destruct (generateLLMResponse generateText messages options
              (addJsonInstruction messages w)); [|reflexivity].
  unfold parseResponse. now destruct (JSON_parse (cleanResponse a)).
Qed.

Lemma addJsonInstruction_not_user (messages : list ref) (w : World)
    (r : ref) (m : LLMMessage) :
  nth_error messages (length messages - 1) = Some r ->
  deref (store w) r = Some m -> role m <> user ->
  addJsonInstruction messages w = w.
Proof.
  intros Hr Hm Hu. unfold addJsonInstruction. rewrite Hr, Hm.
  destruct (role m); [reflexivity | now elim Hu | reflexivity].
Qed.

Lemma deref_assign (store : Store) (r : ref) (m m' : LLMMessage) :
  deref store r = Some m -> deref (assign store r m') r = Some m'.
Proof.
  unfold deref. revert r. induction store as [|x store IH]; intros r H.
  - now destruct r.
  - destruct r as [|r]; [reflexivity|]. cbn [assign nth_error] in *.
    now apply IH.
Qed.

(** Whenever the last message is a user message, the caller's object
    carries the instruction after the call. *)
Lemma generateJSONResponse_last_user
    (generateText : GenerateTextRequest -> result string)
    (JSON_parse : string -> option value)
    (messages : list ref) (options : LLMOptions) (w : World)
    (r : ref) (m : LLMMessage) :
  nth_error messages (length messages - 1) = Some r ->
  deref (store w) r = Some m -> role m = user ->
  deref
    (store (snd (generateJSONResponse generateText JSON_parse messages
                   options w))) r
  = Some {| role := user; content := content m ++ jsonInstruction |}.
Proof.
  intros Hr Hm Hu. rewrite generateJSONResponse_store.
  unfold addJsonInstruction. rewrite Hr, Hm, Hu. cbn [Role_eqb store].
  now apply (deref_assign _ _ m).
Qed.

(** C7, at the failing input.  With a user message last, the call appends
    the JSON instruction to the caller's own message object: the array
    was copied, the object was not. *)
Theorem generateJSONResponse_changes_last_user_message :
  forall (generateText : GenerateTextRequest -> result string)
         (JSON_parse : string -> option value) (options : LLMOptions),
    let w' := snd (generateJSONResponse generateText JSON_parse [0] options
                     sampleWorld) in
    deref (store sampleWorld) 0
    = Some {| role := user; content := "List three colours" |}
    /\ deref (store w') 0
       = Some {| role := user;
                 content := "List three colours" ++ jsonInstruction |}
    /\ store w' <> store sampleWorld.
Proof.
  intros generateText JSON_parse options w'. subst w'.
  rewrite generateJSONResponse_store.
  split; [reflexivity|]. split; [reflexivity | discriminate].
Qed.
(** ** Well-formedness of the quiz document *)

Lemma run_append (a b : string) (st : option Xml.State) :
  Xml.run (a ++ b) st = Xml.run b (Xml.run a st).
Proof.
  revert st. induction a as [|c a IH]; intros st.
  - now destruct st.
  - destruct st as [s|]; cbn [append Xml.run]; [apply IH|].
    now destruct b.
Qed.

Lemma step_attrValue_plain (st : Xml.State) (name : string)
    (attrs : list string) (c : ascii) :
  Xml.mode st = Xml.AttrValue name attrs ->
  Ascii.eqb c dquote_char = false -> Ascii.eqb c "<" = false ->
  Ascii.eqb c "&" = false ->
  Xml.step st c = Some st.
Proof. intros Hm H1 H2 H3. unfold Xml.step. now rewrite Hm, H1, H2, H3. Qed.

Lemma run_attrValue_safe (s : string) (st : Xml.State) (name : string)
    (attrs : list string) :
  Xml.mode st = Xml.AttrValue name attrs -> Xml.attrSafe s = true ->
  Xml.run s (Some st) = Some st.
Proof.
  intros Hm. induction s as [|c s IH]; intros Hs; [reflexivity|].
  unfold Xml.attrSafe in *. cbn [mem_char] in Hs.
  rewrite !negb_orb in Hs.
  apply andb_true_iff in Hs as [Hs H3]. apply andb_true_iff in Hs as [H1 H2].
  apply andb_true_iff in H1 as [H1 H1']. apply andb_true_iff in H2 as [H2 H2'].
  apply andb_true_iff in H3 as [H3 H3']. apply negb_true_iff in H1, H2, H3.
  cbn [Xml.run]. rewrite (step_attrValue_plain st name attrs c Hm H1 H2 H3).
  apply IH. now rewrite H1', H2', H3'.
Qed.

Lemma run_attrValue_escapeChar (c : ascii) (name : string)
    (attrs : list string) (stack : list string) (rootSeen : bool) :
  let st := {| Xml.mode := Xml.AttrValue name attrs; Xml.stack := stack;
               Xml.rootSeen := rootSeen |} in
  Xml.run (escapeChar c) (Some st) = Some st.
Proof. destruct c as [[] [] [] [] [] [] [] []]; reflexivity. Qed.

(** An escaped text can stand in an attribute value. *)
Lemma run_attrValue_escapeXml (text : string) (name : string)
    (attrs : list string) (stack : list string) (rootSeen : bool) :
  let st := {| Xml.mode := Xml.AttrValue name attrs; Xml.stack := stack;
               Xml.rootSeen := rootSeen |} in
  Xml.run (escapeXml text) (Some st) = Some st.
Proof.
  intros st. rewrite escapeXml_escapeEach.
  induction text as [|c text IH]; [reflexivity|].
  cbn [escapeEach]. rewrite run_append.
  subst st. now rewrite run_attrValue_escapeChar.
Qed.

(** *** The characters of a document *)

Lemma xmlChars_append (a b : string) :
  Xml.xmlChars (a ++ b) = Xml.xmlChars a && Xml.xmlChars b.
Proof.
  induction a as [|c a IH]; [reflexivity|].
  cbn [append Xml.xmlChars]. now rewrite IH, andb_assoc.
Qed.

Lemma xmlChars_escapeChar (c : ascii) :
  Xml.xmlChars (escapeChar c) = Xml.isXmlChar c.
Proof. destruct c as [[] [] [] [] [] [] [] []]; reflexivity. Qed.

(** Escaping neither brings in nor takes away a character that XML
    forbids. *)
Lemma xmlChars_escapeXml (text : string) :
  Xml.xmlChars (escapeXml text) = Xml.xmlChars text.
Proof.
  rewrite escapeXml_escapeEach.
  induction text as [|c text IH]; [reflexivity|].
  cbn [escapeEach Xml.xmlChars].
  now rewrite xmlChars_append, xmlChars_escapeChar, IH.
Qed.

Lemma afterDeclaration_literal (lit rest : string) :
  startsWith Xml.xmlDeclaration lit = true ->
  Xml.afterDeclaration (lit ++ rest)
  = slice_from (String.length Xml.xmlDeclaration) lit ++ rest.
Proof.
  intros H. unfold startsWith in H. destruct (prefix_split _ _ H) as [r ->].
  unfold Xml.afterDeclaration, startsWith.
  rewrite append_assoc, prefix_append, !slice_from_length_append.
  reflexivity.
Qed.

Lemma quizXml_empty_scan (id title : string) :
  Xml.attrSafe id = true ->
  Xml.accepting
    (Xml.run (Xml.afterDeclaration (quizXml id title "")) (Some Xml.initial))
  = true.
Proof.
  intros Hid. unfold quizXml.
  rewrite afterDeclaration_literal by reflexivity.
  rewrite !run_append.
  set (st := {| Xml.mode := Xml.AttrValue "assessment" ["ident"];
                Xml.stack := ["questestinterop"];
                Xml.rootSeen := true |}).
  match goal with
  | |- context [Xml.run ?lit (Some Xml.initial)] =>
      replace (Xml.run lit (Some Xml.initial)) with (Some st)
        by (vm_compute; reflexivity)
  end.
  rewrite (run_attrValue_safe id st "assessment" ["ident"] eq_refl Hid).
  set (st' := {| Xml.mode := Xml.AttrValue "assessment" ["title"; "ident"];
                 Xml.stack := ["questestinterop"];
                 Xml.rootSeen := true |}).
  match goal with
  | |- context [Xml.run (escapeXml title) (Xml.run ?lit (Some st))] =>
      replace (Xml.run lit (Some st)) with (Some st')
        by (vm_compute; reflexivity)
  end.
  subst st'. rewrite run_attrValue_escapeXml.
  vm_compute. reflexivity.
Qed.

(** The characters of a document, piece by piece: the literal pieces
    hold characters of XML only. *)
Ltac xml_chars :=
  rewrite ?xmlChars_append, ?xmlChars_escapeXml;
  repeat match goal with
         | |- context [Xml.xmlChars ?x] =>
             lazymatch x with
             | T _ => idtac
             | String _ _ => idtac
             | EmptyString => idtac
             end;
             replace (Xml.xmlChars x) with true by (vm_compute; reflexivity)
         end;
  cbn [andb]; rewrite ?andb_true_r.

Lemma quizXml_empty_chars (id title : string) :
  Xml.xmlChars (quizXml id title "")
  = Xml.xmlChars id && Xml.xmlChars title.
Proof. unfold quizXml. xml_chars. reflexivity. Qed.

(** The document of a quiz without questions is well-formed exactly when
    its id and its title hold no character that XML forbids, the id being
    free of the double quote, [<] and [&]. *)
Lemma quizXml_empty_wellFormed (id title : string) :
  Xml.attrSafe id = true ->
  Xml.wellFormed (quizXml id title "")
  = Xml.xmlChars id && Xml.xmlChars title.
Proof.
  intros Hid. unfold Xml.wellFormed.
  now rewrite (quizXml_empty_scan id title Hid), quizXml_empty_chars,
    andb_true_r.
Qed.

Lemma quizXml_empty_no_item (id title : string) :
  mem_char "<" id = false -> includes "<item" (quizXml id title "") = false.
Proof.
  intros Hid. apply transparent_absent; [discriminate|].
  unfold quizXml. transparency. now apply transparent_free.
Qed.

Lemma attrSafe_no_lt (s : string) :
  Xml.attrSafe s = true -> mem_char "<" s = false.
Proof.
  unfold Xml.attrSafe. intros H. apply andb_true_iff in H as [H _].
  apply andb_true_iff in H as [_ H]. now apply negb_true_iff in H.
Qed.

(** C8 (amended).  A quiz item without questions (absent or empty) is
    exported to [quizzes/{id}.xml] as the assessment whose section holds
    white space only.  When the [id] contains none of the double quote,
    [<] and [&], the document contains no [<item], and it is well-formed
    exactly when neither the [id] nor the title holds a character that
    XML forbids (a control character other than the tab, the line feed
    and the carriage return). *)
Theorem quiz_without_questions :
  forall item,
    item_questions item = None \/ item_questions item = Some [] ->
    generateQuizQti item = quizXml (item_id item) (item_title item) ""
    /\ includes (T "<section ident='root_section'>" ++ nl ++ "      " ++ nl
                 ++ "    </section>") (generateQuizQti item) = true
    /\ (item_type item = "quiz" ->
        forall zip,
          zip_get ("quizzes/" ++ item_id item ++ ".xml")
            (exportItem "assignments/" "discussions/" "quizzes/" zip item)
          = Some (ZipFile (generateQuizQti item)))
    /\ (Xml.attrSafe (item_id item) = true ->
        Xml.wellFormed (generateQuizQti item)
        = Xml.xmlChars (item_id item) && Xml.xmlChars (item_title item)
        /\ includes "<item" (generateQuizQti item) = false).
Proof.
  intros item Hq.
  assert (E : generateQuizQti item
              = quizXml (item_id item) (item_title item) "").
  { unfold generateQuizQti. now destruct Hq as [-> | ->]. }
  split; [exact E|]. split; [|split].
  - rewrite E. unfold quizXml. do 4 apply includes_append_r.
    vm_compute. reflexivity.
  - intros Ht zip. rewrite exportItem_itemFile.
    pose proof (writeItem_get_same zip item) as H.
    unfold itemPath, itemData in H. now rewrite Ht in H.
  - intros Hid. rewrite E. split.
    + now apply quizXml_empty_wellFormed.
    + now apply quizXml_empty_no_item, attrSafe_no_lt.
Qed.

Lemma quiz_without_questions_witness :
  Xml.wellFormed (generateQuizQti sampleEmptyQuiz) = true
  /\ includes "<item" (generateQuizQti sampleEmptyQuiz) = false
  /\ zip_get "quizzes/item-3-1.xml"
       (exportItem "assignments/" "discussions/" "quizzes/"
          (initialZip "o1" "m1" sampleCourse) sampleEmptyQuiz)
     = Some (ZipFile (generateQuizQti sampleEmptyQuiz)).
Proof.
  destruct (quiz_without_questions sampleEmptyQuiz (or_introl eq_refl))
    as (_ & _ & Hfile & Hwf).
  destruct (Hwf eq_refl) as [H1 H2].
  split; [exact H1|]. split; [exact H2|].
  exact (Hfile eq_refl (initialZip "o1" "m1" sampleCourse)).
Defined.

(** With a double quote in the [id] the attribute [ident] ends early and
    the document is not well-formed. *)
Lemma quoted_id_not_wellFormed :
  item_questions sampleQuotedIdQuiz = None
  /\ includes (T "<assessment ident='quiz_a'b' title=")
       (generateQuizQti sampleQuotedIdQuiz) = true
  /\ Xml.wellFormed (generateQuizQti sampleQuotedIdQuiz) = false.
Proof. repeat split; vm_compute; reflexivity. Qed.

(** With a vertical tab in the title, which [escapeXml] lets through, the
    document holds a character that XML forbids. *)
Example control_character_not_wellFormed :
  item_questions sampleTabQuiz = None
  /\ Xml.attrSafe (item_id sampleTabQuiz) = true
  /\ includes (String "011" "") (generateQuizQti sampleTabQuiz) = true
  /\ Xml.wellFormed (generateQuizQti sampleTabQuiz) = false.
Proof. repeat split; vm_compute; reflexivity. Qed.

(* ===================================================================== *)
(** * Part III.  Further properties                                       *)
(* ===================================================================== *)

(** ** More on [escapeXml] *)

Lemma escapeEach_append (a b : string) :
  escapeEach (a ++ b) = escapeEach a ++ escapeEach b.
Proof. rewrite <- !escapeXml_escapeEach. apply escapeXml_append. Qed.

Lemma run_text_escapeChar (c : ascii) (top : string) (rest : list string)
    (rootSeen : bool) :
  let st := {| Xml.mode := Xml.Text; Xml.stack := top :: rest;
               Xml.rootSeen := rootSeen |} in
  Xml.run (escapeChar c) (Some st) = Some st.
Proof. destruct c as [[] [] [] [] [] [] [] []]; reflexivity. Qed.

(** An escaped text can stand in the content of an element. *)
Lemma run_text_escapeXml (text : string) (top : string) (rest : list string)
    (rootSeen : bool) :
  let st := {| Xml.mode := Xml.Text; Xml.stack := top :: rest;
               Xml.rootSeen := rootSeen |} in
  Xml.run (escapeXml text) (Some st) = Some st.
Proof.
  intros st. rewrite escapeXml_escapeEach.
  induction text as [|c text IH]; [reflexivity|].
  cbn [escapeEach]. rewrite run_append.
  subst st. now rewrite run_text_escapeChar.
Qed.

Lemma escapeXml_no_char (d : ascii) (text : string) :
  d = "<"%char \/ d = ">"%char \/ d = dquote_char \/ d = "'"%char ->
  mem_char d (escapeXml text) = false.
Proof.
  intros Hd. rewrite escapeXml_escapeEach.
  induction text as [|c text IH]; [reflexivity|].
  cbn [escapeEach]. rewrite mem_char_append, IH.
  destruct (escapeChar_no_markup c) as (H1 & H2 & H3 & H4).
  destruct Hd as [-> | [-> | [-> | ->]]];
    [now rewrite H1 | now rewrite H2 | now rewrite H3 | now rewrite H4].
Qed.

(** X1.  The output of [escapeXml] contains none of [<], [>], the double
    quote and the apostrophe, and every [&] in it begins one of the five
    entity references: the scanner reads it through in the content of an
    element and in an attribute value. *)
Theorem escapeXml_output_is_markup_free :
  forall text,
    mem_char "<" (escapeXml text) = false
    /\ mem_char ">" (escapeXml text) = false
    /\ mem_char dquote_char (escapeXml text) = false
    /\ mem_char "'" (escapeXml text) = false
    /\ (forall top rest rootSeen,
          let st := {| Xml.mode := Xml.Text; Xml.stack := top :: rest;
                       Xml.rootSeen := rootSeen |} in
          Xml.run (escapeXml text) (Some st) = Some st)
    /\ (forall name attrs stack rootSeen,
          let st := {| Xml.mode := Xml.AttrValue name attrs;
                       Xml.stack := stack; Xml.rootSeen := rootSeen |} in
          Xml.run (escapeXml text) (Some st) = Some st).
Proof.
  intros text.
  split; [apply escapeXml_no_char; auto|].
  split; [apply escapeXml_no_char; auto|].
  split; [apply escapeXml_no_char; auto|].
  split; [apply escapeXml_no_char; auto|].
  split; [intros; apply run_text_escapeXml | intros; apply run_attrValue_escapeXml].
Qed.

(** *** [escapeXml] loses nothing *)

Lemma escapeChar_head (c : ascii) :
  (escapeChar c = String c "" /\ c <> "&"%char)
  \/ (c = "&"%char \/ c = "<"%char \/ c = ">"%char \/ c = dquote_char
      \/ c = "'"%char).
Proof.
  destruct (Ascii.eqb_spec c "&"); [right; auto|].
  destruct (Ascii.eqb_spec c "<"); [right; auto|].
  destruct (Ascii.eqb_spec c ">"); [right; auto|].
  destruct (Ascii.eqb_spec c dquote_char); [right; auto|].
  destruct (Ascii.eqb_spec c "'"); [right; auto 6|].
  left. split; [now apply escapeChar_plain | assumption].
Qed.

Lemma escapeChar_inj (c d : ascii) (x y : string) :
  escapeChar c ++ x = escapeChar d ++ y -> c = d /\ x = y.
Proof.
  intros H.
  destruct (escapeChar_head c) as [[Ec Hc] | Hc];
    destruct (escapeChar_head d) as [[Ed Hd] | Hd].
  - rewrite Ec, Ed in H. cbn [append] in H. now injection H.
  - rewrite Ec in H.
    destruct Hd as [-> | [-> | [-> | [-> | ->]]]];
      cbn in H; injection H as -> _; now elim Hc.
  - rewrite Ed in H.
    destruct Hc as [-> | [-> | [-> | [-> | ->]]]];
      cbn in H; injection H as <- _; now elim Hd.
  - destruct Hc as [-> | [-> | [-> | [-> | ->]]]];
      destruct Hd as [-> | [-> | [-> | [-> | ->]]]];
      cbn in H; try discriminate H; split; try reflexivity;
      now repeat injection H as H.
Qed.

(** X2.  Two different texts never escape to the same text. *)
Theorem escapeXml_injective :
  forall a b, escapeXml a = escapeXml b -> a = b.
Proof.
  intros a b. rewrite !escapeXml_escapeEach. revert b.
  induction a as [|c a IH]; intros [|d b] H.
  - reflexivity.
  - cbn [escapeEach] in H. exfalso.
    destruct d as [[] [] [] [] [] [] [] []]; discriminate H.
  - cbn [escapeEach] in H. exfalso.
    destruct c as [[] [] [] [] [] [] [] []]; discriminate H.
  - cbn [escapeEach] in H. apply escapeChar_inj in H as [-> H].
    f_equal. now apply IH.
Qed.

Lemma escapeXml_injective_witness :
  T "Q&A 'x'" = T "Q&A 'x'".
Proof.
  exact (escapeXml_injective (T "Q&A 'x'") (T "Q&A 'x'") eq_refl).
Defined.

(** ** Well-formedness of the manifest and of the quiz document *)

Lemma run_text_plain (s : string) (top : string) (rest : list string)
    (rootSeen : bool) :
  textSafe s = true ->
  Xml.run s (Some {| Xml.mode := Xml.Text; Xml.stack := top :: rest;
                     Xml.rootSeen := rootSeen |})
  = Some {| Xml.mode := Xml.Text; Xml.stack := top :: rest;
            Xml.rootSeen := rootSeen |}.
Proof.
  induction s as [|c s IH]; intros Hs; [reflexivity|].
  unfold textSafe in *. cbn [mem_char] in Hs. rewrite !negb_orb in Hs.
  apply andb_true_iff in Hs as [Hs H3]. apply andb_true_iff in Hs as [H1 H2].
  apply andb_true_iff in H1 as [H1 H1']. apply andb_true_iff in H2 as [H2 H2'].
  apply andb_true_iff in H3 as [H3 H3'].
  apply negb_true_iff in H1, H2, H3.
  cbn [Xml.run]. unfold Xml.step. cbn [Xml.mode Xml.stack].
  rewrite H1, H2, H3. apply IH. now rewrite H1', H2', H3'.
Qed.

Lemma run_attr_plain (s name : string) (attrs stack : list string)
    (rootSeen : bool) :
  Xml.attrSafe s = true ->
  Xml.run s (Some {| Xml.mode := Xml.AttrValue name attrs; Xml.stack := stack;
                     Xml.rootSeen := rootSeen |})
  = Some {| Xml.mode := Xml.AttrValue name attrs; Xml.stack := stack;
            Xml.rootSeen := rootSeen |}.
Proof. intros H. now apply (run_attrValue_safe s _ name attrs). Qed.

Lemma run_text_escaped (text top : string) (rest : list string) (rootSeen : bool) :
  Xml.run (escapeXml text)
    (Some {| Xml.mode := Xml.Text; Xml.stack := top :: rest;
             Xml.rootSeen := rootSeen |})
  = Some {| Xml.mode := Xml.Text; Xml.stack := top :: rest;
            Xml.rootSeen := rootSeen |}.
Proof. apply run_text_escapeXml. Qed.

Lemma run_attr_escaped (text name : string) (attrs stack : list string)
    (rootSeen : bool) :
  Xml.run (escapeXml text)
    (Some {| Xml.mode := Xml.AttrValue name attrs; Xml.stack := stack;
             Xml.rootSeen := rootSeen |})
  = Some {| Xml.mode := Xml.AttrValue name attrs; Xml.stack := stack;
            Xml.rootSeen := rootSeen |}.
Proof. apply run_attrValue_escapeXml. Qed.

Lemma attrSafe_append (a b : string) :
  Xml.attrSafe (a ++ b) = Xml.attrSafe a && Xml.attrSafe b.
Proof.
  unfold Xml.attrSafe. rewrite !mem_char_append, !negb_orb.
  destruct (mem_char dquote_char a), (mem_char "<" a), (mem_char "&" a),
    (mem_char dquote_char b), (mem_char "<" b), (mem_char "&" b); reflexivity.
Qed.

Lemma textSafe_append (a b : string) :
  textSafe (a ++ b) = textSafe a && textSafe b.
Proof.
  unfold textSafe. rewrite !mem_char_append, !negb_orb.
  destruct (mem_char "<" a), (mem_char "&" a), (mem_char ">" a),
    (mem_char "<" b), (mem_char "&" b), (mem_char ">" b); reflexivity.
Qed.

(** The digits and the sign of a number are plain everywhere. *)
Lemma plainText_append (a b : string) :
  plainText (a ++ b) = plainText a && plainText b.
Proof.
  unfold plainText. rewrite attrSafe_append, textSafe_append, xmlChars_append.
  destruct (Xml.attrSafe a), (Xml.attrSafe b), (textSafe a), (textSafe b),
    (Xml.xmlChars a), (Xml.xmlChars b); reflexivity.
Qed.

Lemma string_of_uint_plain (d : Decimal.uint) :
  plainText (NilEmpty.string_of_uint d) = true.
Proof.
  induction d; cbn [NilEmpty.string_of_uint]; try reflexivity;
    match goal with
    | |- plainText (String ?c ?s) = true =>
        change (String c s) with (String c "" ++ s);
        rewrite plainText_append, IHd; reflexivity
    end.
Qed.

Lemma Number_toString_plain (z : Z) : plainText (Number_toString z) = true.
Proof.
  unfold Number_toString. destruct (Z.to_int z) as [d|d]; cbn [NilEmpty.string_of_int].
  - apply string_of_uint_plain.
  - change (String "-" (NilEmpty.string_of_uint d))
      with ("-" ++ NilEmpty.string_of_uint d).
    now rewrite plainText_append, string_of_uint_plain.
Qed.

Lemma plainText_parts (s : string) :
  plainText s = true ->
  Xml.attrSafe s = true /\ textSafe s = true /\ Xml.xmlChars s = true.
Proof.
  unfold plainText. intros H. apply andb_true_iff in H as [H H3].
  apply andb_true_iff in H as [H1 H2]. auto.
Qed.

Lemma Number_toString_attrSafe (z : Z) :
  Xml.attrSafe (Number_toString z) = true.
Proof. apply (plainText_parts _ (Number_toString_plain z)). Qed.

Lemma Number_toString_textSafe (z : Z) : textSafe (Number_toString z) = true.
Proof. apply (plainText_parts _ (Number_toString_plain z)). Qed.

Lemma Number_toString_xmlChars (z : Z) :
  Xml.xmlChars (Number_toString z) = true.
Proof. apply (plainText_parts _ (Number_toString_plain z)). Qed.

Lemma balanced_nil : balanced "".
Proof. now intros top rest b. Qed.

Lemma balanced_append (a b : string) :
  balanced a -> balanced b -> balanced (a ++ b).
Proof. intros Ha Hb top rest r. now rewrite run_append, Ha, Hb. Qed.

Lemma balanced_join (parts : list string) :
  Forall balanced parts -> balanced (join "" parts).
Proof.
  unfold join. induction 1 as [|p ps Hp _ IH]; [apply balanced_nil|].
  destruct ps as [|q ps]; [exact Hp|].
  cbn [String.concat]. apply balanced_append; [exact Hp|].
  cbn [append]. exact IH.
Qed.

Lemma xmlChars_join (parts : list string) :
  Forall (fun p => Xml.xmlChars p = true) parts ->
  Xml.xmlChars (join "" parts) = true.
Proof.
  unfold join. induction 1 as [|p ps Hp _ IH]; [reflexivity|].
  destruct ps as [|q ps]; [exact Hp|].
  cbn [String.concat]. rewrite xmlChars_append, Hp. cbn [append andb].
  exact IH.
Qed.

(** Reads the innermost [run] of the goal: a literal by computation, an
    escaped text, a number or a text known to be safe by its lemma. *)
Ltac xml_step :=
  match goal with
  | |- context [Xml.run (escapeXml ?t) (Some ?st)] =>
      first [ rewrite (run_text_escaped t) | rewrite (run_attr_escaped t) ]
  | |- context [Xml.run (Number_toString ?z) (Some ?st)] =>
      first [ rewrite (run_attr_plain (Number_toString z) _ _ _ _
                         (Number_toString_attrSafe z))
            | rewrite (run_text_plain (Number_toString z) _ _ _
                         (Number_toString_textSafe z)) ]
  | H : Xml.attrSafe ?x = true |- context [Xml.run ?x (Some ?st)] =>
      rewrite (run_attr_plain x _ _ _ _ H)
  | H : balanced ?x |- context [Xml.run ?x (Some ?st)] =>
      rewrite (H _ _ _)
  | |- context [Xml.run ?x (Some ?st)] =>
      lazymatch x with
      | T _ => idtac
      | String _ _ => idtac
      | EmptyString => idtac
      | slice_from _ (T _) => idtac
      end;
      let r := eval vm_compute in (Xml.run x (Some st)) in
      replace (Xml.run x (Some st)) with r by (vm_compute; reflexivity)
  end.

Ltac xml_run := rewrite ?run_append; repeat xml_step.

(** The characters of a fragment: the literal pieces and the numbers by
    computation, the rest from the hypotheses. *)
Ltac xml_chars_all :=
  xml_chars; rewrite ?Number_toString_xmlChars;
  repeat match goal with
         | H : Xml.xmlChars ?x = true |- context [Xml.xmlChars ?x] =>
             rewrite H
         end;
  cbn [andb]; try reflexivity.

Lemma overviewItemXml_balanced (overviewId : string) :
  Xml.attrSafe overviewId = true -> balanced (overviewItemXml overviewId).
Proof.
  intros H top rest b. unfold overviewItemXml. xml_run. reflexivity.
Qed.

Lemma overviewResourceXml_balanced (overviewId : string) :
  Xml.attrSafe overviewId = true -> balanced (overviewResourceXml overviewId).
Proof.
  intros H top rest b. unfold overviewResourceXml. xml_run. reflexivity.
Qed.

Lemma prefixed_attrSafe (p id s : string) :
  Xml.attrSafe p = true -> Xml.attrSafe s = true -> Xml.attrSafe id = true ->
  Xml.attrSafe (p ++ id ++ s) = true.
Proof. intros Hp Hs Hid. now rewrite !attrSafe_append, Hp, Hs, Hid. Qed.

Lemma resourceTypeAndHref_attrSafe (item : CanvasModuleItem) :
  Xml.attrSafe (item_id item) = true ->
  Xml.attrSafe (fst (resourceTypeAndHref item)) = true
  /\ Xml.attrSafe (snd (resourceTypeAndHref item)) = true.
Proof.
  intros H. unfold resourceTypeAndHref.
  destruct (String.eqb (item_type item) "assignment");
    [|destruct (String.eqb (item_type item) "discussion");
      [|destruct (String.eqb (item_type item) "quiz")]];
    cbn [fst snd]; (split; [reflexivity|]).
  - now apply prefixed_attrSafe.
  - now apply prefixed_attrSafe.
  - now apply prefixed_attrSafe.
  - now apply (prefixed_attrSafe "").
Qed.

Lemma resourceTypeAndHref_xmlChars (item : CanvasModuleItem) :
  Xml.xmlChars (item_id item) = true ->
  Xml.xmlChars (fst (resourceTypeAndHref item)) = true
  /\ Xml.xmlChars (snd (resourceTypeAndHref item)) = true.
Proof.
  intros H. unfold resourceTypeAndHref.
  destruct (String.eqb (item_type item) "assignment");
    [|destruct (String.eqb (item_type item) "discussion");
      [|destruct (String.eqb (item_type item) "quiz")]];
    cbn [fst snd]; (split; [reflexivity|]); xml_chars_all.
Qed.

Lemma itemLeafXml_balanced (item : CanvasModuleItem) :
  Xml.attrSafe (item_id item) = true -> balanced (itemLeafXml item).
Proof.
  intros H top rest b. unfold itemLeafXml, moduleItemXml.
  assert (H1 : Xml.attrSafe ("item_" ++ item_id item) = true)
    by now apply (prefixed_attrSafe "item_" _ "") in H; rewrite ?append_nil_r in H.
  assert (H2 : Xml.attrSafe ("res_" ++ item_id item) = true)
    by now apply (prefixed_attrSafe "res_" _ "") in H; rewrite ?append_nil_r in H.
  xml_run. reflexivity.
Qed.

Lemma itemLeafXml_chars (item : CanvasModuleItem) :
  Xml.xmlChars (item_id item) = true -> Xml.xmlChars (item_title item) = true ->
  Xml.xmlChars (itemLeafXml item) = true.
Proof. intros H1 H2. unfold itemLeafXml, moduleItemXml. xml_chars_all. Qed.

Lemma itemResourceXml_balanced (item : CanvasModuleItem) :
  Xml.attrSafe (item_id item) = true -> balanced (itemResourceXml item).
Proof.
  intros H top rest b. unfold itemResourceXml, resourceXml.
  destruct (resourceTypeAndHref_attrSafe item H) as [Ht Hh].
  assert (H2 : Xml.attrSafe ("res_" ++ item_id item) = true)
    by now apply (prefixed_attrSafe "res_" _ "") in H; rewrite ?append_nil_r in H.
  xml_run. reflexivity.
Qed.

Lemma itemResourceXml_chars (item : CanvasModuleItem) :
  Xml.xmlChars (item_id item) = true ->
  Xml.xmlChars (itemResourceXml item) = true.
Proof.
  intros H. unfold itemResourceXml, resourceXml.
  destruct (resourceTypeAndHref_xmlChars item H) as [Ht Hh].
  xml_chars_all.
Qed.

Lemma moduleNodeXml_balanced (m : CanvasModule) :
  Xml.attrSafe (module_id m) = true ->
  Forall (fun item => Xml.attrSafe (item_id item) = true) (module_items m) ->
  balanced (moduleNodeXml m).
Proof.
  intros H Hitems top rest b. unfold moduleNodeXml, moduleXml.
  assert (H1 : Xml.attrSafe ("mod_" ++ module_id m) = true)
    by now apply (prefixed_attrSafe "mod_" _ "") in H; rewrite ?append_nil_r in H.
  assert (Hj : balanced (join "" (map itemLeafXml (module_items m)))).
  { apply balanced_join. apply Forall_map.
    eapply Forall_impl; [|exact Hitems]. intros item. apply itemLeafXml_balanced. }
  xml_run. reflexivity.
Qed.

Lemma moduleNodeXml_chars (m : CanvasModule) :
  Xml.xmlChars (module_id m) = true -> Xml.xmlChars (module_name m) = true ->
  Forall (fun item =>
            Xml.xmlChars (item_id item) = true
            /\ Xml.xmlChars (item_title item) = true) (module_items m) ->
  Xml.xmlChars (moduleNodeXml m) = true.
Proof.
  intros H1 H2 Hitems. unfold moduleNodeXml, moduleXml.
  assert (Hj : Xml.xmlChars (join "" (map itemLeafXml (module_items m))) = true).
  { apply xmlChars_join. apply Forall_map.
    eapply Forall_impl; [|exact Hitems].
    intros item [Hi Ht]. now apply itemLeafXml_chars. }
  xml_chars_all.
Qed.

Lemma courseIdsSafe_allItems (course : GeneratedCourse) :
  courseIdsSafe course ->
  Forall (fun item => Xml.attrSafe (item_id item) = true) (allItems course).
Proof.
  unfold courseIdsSafe, allItems.
  induction 1 as [|m ms [_ Hm] _ IH]; [constructor|].
  cbn [flat_map]. apply Forall_app. now split.
Qed.

Lemma courseCharsLegal_allItems (course : GeneratedCourse) :
  courseCharsLegal course ->
  Forall (fun item => Xml.xmlChars (item_id item) = true) (allItems course).
Proof.
  intros (_ & _ & H). unfold allItems.
  induction H as [|m ms (_ & _ & Hm) _ IH]; [constructor|].
  cbn [flat_map]. apply Forall_app. split; [|exact IH].
  eapply Forall_impl; [|exact Hm]. now intros item [Hi _].
Qed.

Lemma manifest_scan (overviewId manifestId : string)
    (course : GeneratedCourse) :
  Xml.attrSafe overviewId = true -> Xml.attrSafe manifestId = true ->
  courseIdsSafe course ->
  Xml.accepting
    (Xml.run
       (Xml.afterDeclaration (manifestInOrder overviewId manifestId course))
       (Some Xml.initial)) = true.
Proof.
  intros Ho Hm Hc. unfold manifestInOrder, manifestXml.
  assert (Hitems : balanced
            (join "" (overviewItemXml overviewId
                      :: map moduleNodeXml (course_modules course)))).
  { apply balanced_join. constructor; [now apply overviewItemXml_balanced|].
    apply Forall_map. eapply Forall_impl; [|exact Hc].
    intros m [H1 H2]. now apply moduleNodeXml_balanced. }
  assert (Hres : balanced
            (join "" (overviewResourceXml overviewId
                      :: map itemResourceXml (allItems course)))).
  { apply balanced_join. constructor; [now apply overviewResourceXml_balanced|].
    apply Forall_map. eapply Forall_impl; [|exact (courseIdsSafe_allItems _ Hc)].
    intros item. apply itemResourceXml_balanced. }
  rewrite afterDeclaration_literal by reflexivity.
  unfold Xml.initial. xml_run. reflexivity.
Qed.

Lemma manifest_chars (overviewId manifestId : string)
    (course : GeneratedCourse) :
  Xml.xmlChars overviewId = true -> Xml.xmlChars manifestId = true ->
  courseCharsLegal course ->
  Xml.xmlChars (manifestInOrder overviewId manifestId course) = true.
Proof.
  intros Ho Hm Hc. pose proof (courseCharsLegal_allItems _ Hc) as Hall.
  destruct Hc as (Ht & Hd & Hc).
  unfold manifestInOrder, manifestXml.
  assert (Hitems : Xml.xmlChars
            (join "" (overviewItemXml overviewId
                      :: map moduleNodeXml (course_modules course))) = true).
  { apply xmlChars_join. constructor.
    - unfold overviewItemXml. xml_chars_all.
    - apply Forall_map. eapply Forall_impl; [|exact Hc].
      intros m (H1 & H2 & H3). now apply moduleNodeXml_chars. }
  assert (Hres : Xml.xmlChars
            (join "" (overviewResourceXml overviewId
                      :: map itemResourceXml (allItems course))) = true).
  { apply xmlChars_join. constructor.
    - unfold overviewResourceXml. xml_chars_all.
    - apply Forall_map. eapply Forall_impl; [|exact Hall].
      intros item. apply itemResourceXml_chars. }
  xml_chars_all.
Qed.

(** X3.  The manifest of every course is well-formed XML, provided the
    identifiers written into attributes (the two generated ones, the
    module ids and the item ids) contain no double quote, [<] or [&], and
    these identifiers, the titles, the names and the description hold no
    character that XML forbids (a control character other than the tab,
    the line feed and the carriage return). *)
Theorem generateManifest_wellFormed :
  forall overviewId manifestId course,
    idSafe overviewId = true -> idSafe manifestId = true ->
    courseIdsSafe course -> courseCharsLegal course ->
    Xml.wellFormed (generateManifest overviewId manifestId course) = true.
Proof.
  intros overviewId manifestId course Ho Hm Hc Hl.
  unfold idSafe in Ho, Hm.
  apply andb_true_iff in Ho as [Ho Ho']. apply andb_true_iff in Hm as [Hm Hm'].
  rewrite generateManifest_in_order. unfold Xml.wellFormed.
  now rewrite manifest_scan, manifest_chars.
Qed.

Lemma generateManifest_wellFormed_witness :
  Xml.wellFormed (generateManifest "o1" "m1" sampleCourse) = true.
Proof.
  apply generateManifest_wellFormed; [reflexivity | reflexivity | |];
    repeat constructor.
Defined.

(** A control character in a title, which [escapeXml] lets through, makes
    the manifest ill-formed. *)
Example manifest_control_character :
  Xml.wellFormed
    (generateManifest "o1" "m1"
       {| course_title := "Logic" ++ String "008" "";
          course_description := "";
          course_welcomeMessage := "";
          course_modules := [] |}) = false.
Proof. vm_compute. reflexivity. Qed.

Lemma responseLabelXml_balanced (a : QuizAnswer) (i : nat) :
  balanced (responseLabelXml a i).
Proof. intros top rest b. unfold responseLabelXml. xml_run. reflexivity. Qed.

Lemma responseLabelXml_chars (a : QuizAnswer) (i : nat) :
  answerCharsLegal a = true -> Xml.xmlChars (responseLabelXml a i) = true.
Proof.
  unfold answerCharsLegal. intros H. unfold responseLabelXml. xml_chars_all.
Qed.

Lemma respconditionXml_balanced (answerIndex points : Z) :
  balanced (respconditionXml answerIndex points).
Proof. intros top rest b. unfold respconditionXml. xml_run. reflexivity. Qed.

Lemma respconditionXml_chars (answerIndex points : Z) :
  Xml.xmlChars (respconditionXml answerIndex points) = true.
Proof. unfold respconditionXml. xml_chars_all. Qed.

Lemma balanced_mapi_from {A : Type} (f : A -> nat -> string) (start : nat)
    (xs : list A) :
  (forall x i, balanced (f x i)) -> balanced (join "" (mapi_from f start xs)).
Proof. intros H. apply balanced_join. now apply Forall_mapi_from. Qed.

Lemma xmlChars_mapi_from {A : Type} (f : A -> nat -> string)
    (legal : A -> bool) (start : nat) (xs : list A) :
  (forall x i, legal x = true -> Xml.xmlChars (f x i) = true) ->
  forallb legal xs = true ->
  Xml.xmlChars (join "" (mapi_from f start xs)) = true.
Proof.
  intros H Hxs. apply xmlChars_join. revert start.
  induction xs as [|x xs IH]; intros start; [constructor|].
  cbn [forallb] in Hxs. apply andb_true_iff in Hxs as [Hx Hxs].
  cbn [mapi_from]. constructor; [now apply H | now apply IH].
Qed.

Lemma choiceItemXml_balanced (qId : string) (index : nat) (q : QuizQuestion)
    (answers : list QuizAnswer) :
  Xml.attrSafe qId = true -> balanced (choiceItemXml qId index q answers).
Proof.
  intros Hq top rest b. unfold choiceItemXml.
  assert (Hl : balanced (join "" (mapi responseLabelXml answers)))
    by (apply balanced_mapi_from; intros; apply responseLabelXml_balanced).
  destruct (find answer_correct answers) as [a|].
  - pose proof (respconditionXml_balanced (indexOf answers a) (question_points q)) as Hr.
    xml_run. reflexivity.
  - xml_run. reflexivity.
Qed.

Lemma choiceItemXml_chars (qId : string) (index : nat) (q : QuizQuestion)
    (answers : list QuizAnswer) :
  Xml.xmlChars qId = true -> Xml.xmlChars (question_text q) = true ->
  forallb answerCharsLegal answers = true ->
  Xml.xmlChars (choiceItemXml qId index q answers) = true.
Proof.
  intros Hq Ht Ha. unfold choiceItemXml.
  assert (Hl : Xml.xmlChars (join "" (mapi responseLabelXml answers)) = true)
    by (apply (xmlChars_mapi_from _ answerCharsLegal);
        [intros; now apply responseLabelXml_chars | exact Ha]).
  destruct (find answer_correct answers) as [a|].
  - pose proof (respconditionXml_chars (indexOf answers a) (question_points q)) as Hr.
    xml_chars_all.
  - xml_chars_all.
Qed.

Lemma freeResponseItemXml_balanced (qId : string) (index : nat)
    (q : QuizQuestion) :
  Xml.attrSafe qId = true -> balanced (freeResponseItemXml qId index q).
Proof. intros Hq top rest b. unfold freeResponseItemXml. xml_run. reflexivity. Qed.

Lemma freeResponseItemXml_chars (qId : string) (index : nat)
    (q : QuizQuestion) :
  Xml.xmlChars qId = true -> Xml.xmlChars (question_text q) = true ->
  Xml.xmlChars (freeResponseItemXml qId index q) = true.
Proof. intros Hq Ht. unfold freeResponseItemXml. xml_chars_all. Qed.

Lemma questionXml_balanced (q : QuizQuestion) (index : nat) :
  balanced (questionXml q index).
Proof.
  unfold questionXml.
  assert (Hq : Xml.attrSafe ("q_" ++ Number_toString (Z.of_nat (index + 1))) = true)
    by now rewrite attrSafe_append, Number_toString_attrSafe.
  destruct (String.eqb (question_type q) "multiple_choice");
    [destruct (question_answers q)|].
  - now apply choiceItemXml_balanced.
  - now apply freeResponseItemXml_balanced.
  - now apply freeResponseItemXml_balanced.
Qed.

Lemma questionXml_chars (q : QuizQuestion) (index : nat) :
  questionCharsLegal q = true -> Xml.xmlChars (questionXml q index) = true.
Proof.
  unfold questionCharsLegal, questionXml. intros H.
  apply andb_true_iff in H as [Ht Ha].
  assert (Hq : Xml.xmlChars ("q_" ++ Number_toString (Z.of_nat (index + 1))) = true)
    by now rewrite xmlChars_append, Number_toString_xmlChars.
  destruct (String.eqb (question_type q) "multiple_choice");
    [destruct (question_answers q)|].
  - now apply choiceItemXml_chars.
  - now apply freeResponseItemXml_chars.
  - now apply freeResponseItemXml_chars.
Qed.

(** X4.  The QTI document of every quiz, whatever its questions, is
    well-formed XML, provided the item id contains no double quote, [<]
    or [&], and the texts that the document prints (the id, the title,
    the texts of the questions and of the answers of choice questions)
    hold no character that XML forbids. *)
Theorem generateQuizQti_wellFormed :
  forall item,
    Xml.attrSafe (item_id item) = true -> quizCharsLegal item = true ->
    Xml.wellFormed (generateQuizQti item) = true.
Proof.
  intros item Hid Hl. unfold quizCharsLegal in Hl.
  apply andb_true_iff in Hl as [Hl Hqs]. apply andb_true_iff in Hl as [Hi Ht].
  unfold generateQuizQti, quizXml.
  set (questions := match item_questions item with Some qs => qs | None => [] end).
  assert (Hqs' : forallb questionCharsLegal questions = true)
    by (subst questions; now destruct (item_questions item)).
  assert (Hq : balanced (join "" (mapi questionXml questions)))
    by (apply balanced_mapi_from; intros; apply questionXml_balanced).
  assert (Hc : Xml.xmlChars (join "" (mapi questionXml questions)) = true)
    by (apply (xmlChars_mapi_from _ questionCharsLegal);
        [intros; now apply questionXml_chars | exact Hqs']).
  unfold Xml.wellFormed. apply andb_true_iff. split.
  - xml_chars_all.
  - rewrite afterDeclaration_literal by reflexivity.
    unfold Xml.initial. xml_run. reflexivity.
Qed.

Lemma generateQuizQti_wellFormed_witness :
  Xml.wellFormed (generateQuizQti sampleQuiz) = true.
Proof. apply generateQuizQti_wellFormed; reflexivity. Defined.

(** ** The archive and the manifest agree *)

Lemma resourceTypeAndHref_itemPath (item : CanvasModuleItem) :
  snd (resourceTypeAndHref item) = itemPath item.
Proof.
  unfold resourceTypeAndHref, itemPath.
  destruct (String.eqb (item_type item) "assignment"); [reflexivity|].
  destruct (String.eqb (item_type item) "discussion"); [reflexivity|].
  destruct (String.eqb (item_type item) "quiz"); reflexivity.
Qed.

Lemma itemResourceXml_href (item : CanvasModuleItem) :
  includes (T "<file href='" ++ itemPath item ++ T "'/>") (itemResourceXml item)
  = true.
Proof.
  unfold itemResourceXml, resourceXml. rewrite resourceTypeAndHref_itemPath.
  do 6 apply includes_append_r.
  apply includes_between; reflexivity.
Qed.

Lemma plainPath_append (a b : string) :
  plainPath (a ++ b) = plainPath a && plainPath b.
Proof.
  induction a as [|c a IH]; [reflexivity|].
  cbn [append plainPath]. now rewrite IH, andb_assoc.
Qed.

Lemma plainId_plainPath (id : string) : plainId id = true -> plainPath id = true.
Proof.
  induction id as [|c id IH]; [reflexivity|].
  cbn [plainId plainPath]. intros H. apply andb_true_iff in H as [-> H].
  now rewrite IH.
Qed.

Lemma itemPath_plain (item : CanvasModuleItem) :
  plainId (item_id item) = true -> plainPath (itemPath item) = true.
Proof.
  intros H. apply plainId_plainPath in H. unfold itemPath.
  destruct (String.eqb (item_type item) "assignment");
    [|destruct (String.eqb (item_type item) "discussion");
      [|destruct (String.eqb (item_type item) "quiz")]];
    rewrite !plainPath_append, H; reflexivity.
Qed.

(** A plain path between the quotes of an attribute is read as
    itself. *)
Lemma attrValue_plainPath (path : string) :
  plainPath path = true -> Xml.attrValue path = Some path.
Proof.
  unfold Xml.attrValue. induction path as [|c path IH]; [reflexivity|].
  cbn [plainPath]. intros H. apply andb_true_iff in H as [Hc H].
  specialize (IH H). cbn [Xml.attrValueFrom].
  assert (Hplain : Ascii.eqb c "&" = false
                   /\ (Ascii.eqb c "<" || Ascii.eqb c dquote_char
                       || negb (Xml.isXmlChar c)) = false
                   /\ Ascii.eqb c "013" = false /\ Xml.isSpace c = false).
  { clear -Hc. destruct c as [[] [] [] [] [] [] [] []];
      try discriminate Hc; repeat split. }
  destruct Hplain as (-> & -> & -> & ->). cbn [andb]. now rewrite IH.
Qed.

(** X5.  The manifest references files of the archive.  For every item
    whose id is made of letters, digits, [.], [_] and [-], the manifest
    holds a [<file href=...>] with the path at which the exporter writes
    the item's file; that path is made of such names and slashes, so that
    it reads the same as text, as the value of the attribute and as a
    URL; and the archive holds a file there.  The same goes for the
    overview page. *)
Theorem manifest_hrefs_exist_in_archive :
  forall overviewId manifestId course,
    let manifest := generateManifest overviewId manifestId course in
    let zip := exportToIMSCC overviewId manifestId course in
    (includes (T "<file href='course_overview.html'/>") manifest = true
     /\ Xml.attrValue "course_overview.html" = Some "course_overview.html"
     /\ exists data, zip_get "course_overview.html" zip = Some (ZipFile data))
    /\ forall m item,
         In m (course_modules course) -> In item (module_items m) ->
         plainId (item_id item) = true ->
         includes (T "<file href='" ++ itemPath item ++ T "'/>") manifest = true
         /\ plainPath (itemPath item) = true
         /\ Xml.attrValue (itemPath item) = Some (itemPath item)
         /\ exists data, zip_get (itemPath item) zip = Some (ZipFile data).
Proof.
  intros overviewId manifestId course manifest zip. subst manifest zip.
  rewrite exportToIMSCC_in_order, generateManifest_in_order.
  unfold manifestInOrder. split; [split; [|split]|].
  - apply (includes_trans _ (overviewResourceXml overviewId)).
    + unfold overviewResourceXml. do 2 apply includes_append_r.
      vm_compute. reflexivity.
    + apply manifestXml_resource. now left.
  - reflexivity.
  - apply fold_writeItem_keeps_file. eexists. reflexivity.
  - intros m item Hm Hi Hid.
    pose proof (allItems_In _ _ _ Hm Hi) as Hin.
    pose proof (itemPath_plain item Hid) as Hp.
    split; [|split; [exact Hp | split; [now apply attrValue_plainPath|]]].
    + apply (includes_trans _ (itemResourceXml item));
        [apply itemResourceXml_href|].
      apply manifestXml_resource. right. now apply in_map.
    + now apply fold_writeItem_has_file.
Qed.

Lemma manifest_hrefs_exist_in_archive_witness :
  includes (T "<file href='quizzes/item-1-2.xml'/>")
    (generateManifest "o1" "m1" sampleCourse) = true
  /\ plainPath "quizzes/item-1-2.xml" = true
  /\ Xml.attrValue "quizzes/item-1-2.xml" = Some "quizzes/item-1-2.xml"
  /\ exists data,
       zip_get "quizzes/item-1-2.xml" (exportToIMSCC "o1" "m1" sampleCourse)
       = Some (ZipFile data).
Proof.
  exact (proj2 (manifest_hrefs_exist_in_archive "o1" "m1" sampleCourse)
           {| module_id := "module-1"; module_name := "Start";
              module_position := 7777;
              module_items := [samplePage; sampleQuiz] |}
           sampleQuiz (or_introl eq_refl) (or_intror (or_introl eq_refl))
           eq_refl).
Defined.

(** An id is written into the [href] as it is: with an entity reference
    in the id, the attribute is read as a path that the archive lacks. *)
Example href_read_elsewhere :
  itemPath sampleEntityPage = "a&amp;b.html"
  /\ Xml.attrValue (itemPath sampleEntityPage) = Some "a&b.html"
  /\ zip_get "a&b.html" (exportToIMSCC "o1" "m1" sampleEntityCourse) = None
  /\ exists data,
       zip_get "a&amp;b.html" (exportToIMSCC "o1" "m1" sampleEntityCourse)
       = Some (ZipFile data).
Proof.
  split; [reflexivity|]. split; [reflexivity|].
  split; [vm_compute; reflexivity|].
  eexists. vm_compute. reflexivity.
Qed.

(** *** Which write a path keeps *)

(** X6.  The file at the path of an item holds the content of the last
    item written to that path: of the item itself when no later item has
    the same path. *)
Theorem archive_keeps_last_write :
  forall overviewId manifestId course before item after,
    allItems course = (before ++ item :: after)%list ->
    (forall x, In x after -> itemPath x <> itemPath item) ->
    zip_get (itemPath item) (exportToIMSCC overviewId manifestId course)
    = Some (ZipFile (itemData item)).
Proof.
  intros overviewId manifestId course before item after E Hafter.
  rewrite exportToIMSCC_in_order, E, fold_left_app. cbn [fold_left].
  apply fold_writeItem_keeps; [apply writeItem_get_same | exact Hafter].
Qed.

Lemma archive_keeps_last_write_witness :
  zip_get "quizzes/item-1-2.xml" (exportToIMSCC "o1" "m1" sampleCourse)
  = Some (ZipFile (generateQuizQti sampleQuiz)).
Proof.
  apply (archive_keeps_last_write "o1" "m1" sampleCourse
           [samplePage] sampleQuiz [sampleVideo] eq_refl).
  intros x [<- | []]. discriminate.
Defined.

Lemma append_same_length_suffix (a b s t : string) :
  a ++ s = b ++ t -> String.length s = String.length t -> s = t.
Proof.
  revert b. induction a as [|x a IH]; intros [|y b] E L; cbn [append] in E.
  - exact E.
  - exfalso. apply (f_equal String.length) in E.
    cbn [String.length append] in E. rewrite length_append in E. lia.
  - exfalso. apply (f_equal String.length) in E.
    cbn [String.length append] in E. rewrite length_append in E. lia.
  - injection E as _ E. now apply (IH b).
Qed.

Lemma html_path_not_fixed (id : string) :
  id ++ ".html" <> "imsmanifest.xml"
  /\ id ++ ".html" <> "assignments/"
  /\ id ++ ".html" <> "discussions/"
  /\ id ++ ".html" <> "quizzes/".
Proof.
  repeat split; intros E.
  - apply (append_same_length_suffix id "imsmanifes" ".html" "t.xml") in E;
      [discriminate E | reflexivity].
  - apply (append_same_length_suffix id "assignm" ".html" "ents/") in E;
      [discriminate E | reflexivity].
  - apply (append_same_length_suffix id "discuss" ".html" "ions/") in E;
      [discriminate E | reflexivity].
  - apply (append_same_length_suffix id "qui" ".html" "zzes/") in E;
      [discriminate E | reflexivity].
Qed.

Lemma itemPath_not_fixed (item : CanvasModuleItem) :
  itemPath item <> "imsmanifest.xml"
  /\ itemPath item <> "assignments/"
  /\ itemPath item <> "discussions/"
  /\ itemPath item <> "quizzes/".
Proof.
  unfold itemPath.
  destruct (String.eqb (item_type item) "assignment");
    [|destruct (String.eqb (item_type item) "discussion");
      [|destruct (String.eqb (item_type item) "quiz")]].
  - repeat split; intros E; try discriminate E.
    cbn [append] in E. injection E as E.
    now destruct (item_id item).
  - repeat split; intros E; try discriminate E.
    cbn [append] in E. injection E as E.
    now destruct (item_id item).
  - repeat split; intros E; try discriminate E.
    cbn [append] in E. injection E as E.
    now destruct (item_id item).
  - apply html_path_not_fixed.
Qed.

(** X7.  No item can replace the manifest or one of the three folders,
    whatever its id and type; the overview page is the welcome page unless
    some item is written to [course_overview.html]. *)
Theorem fixed_entries_survive :
  forall overviewId manifestId course,
    let zip := exportToIMSCC overviewId manifestId course in
    zip_get "imsmanifest.xml" zip
    = Some (ZipFile (generateManifest overviewId manifestId course))
    /\ zip_get "assignments/" zip = Some ZipFolder
    /\ zip_get "discussions/" zip = Some ZipFolder
    /\ zip_get "quizzes/" zip = Some ZipFolder
    /\ ((forall item, In item (allItems course) ->
           itemPath item <> "course_overview.html") ->
        zip_get "course_overview.html" zip
        = Some (ZipFile
                  (generatePageHtml "Welcome"
                     (if String.eqb (course_welcomeMessage course) ""
                      then "<p>Welcome to the course!</p>"
                      else course_welcomeMessage course)))).
Proof.
  intros overviewId manifestId course zip. subst zip.
  rewrite exportToIMSCC_in_order.
  repeat split.
  - apply fold_writeItem_keeps; [reflexivity|].
    intros x _. apply itemPath_not_fixed.
  - apply fold_writeItem_keeps; [reflexivity|].
    intros x _. apply itemPath_not_fixed.
  - apply fold_writeItem_keeps; [reflexivity|].
    intros x _. apply itemPath_not_fixed.
  - apply fold_writeItem_keeps; [reflexivity|].
    intros x _. apply itemPath_not_fixed.
  - intros H. apply fold_writeItem_keeps; [reflexivity | exact H].
Qed.

Lemma fixed_entries_survive_witness :
  zip_get "course_overview.html" (exportToIMSCC "o1" "m1" sampleCourse)
  = Some (ZipFile (generatePageHtml "Welcome" "<p>Welcome to the course!</p>")).
Proof.
  apply (proj2 (proj2 (proj2 (proj2
           (fixed_entries_survive "o1" "m1" sampleCourse))))).
  intros item [<- | [<- | [<- | []]]]; discriminate.
Defined.

(** ** Numbering of questions and answers *)

Lemma nth_error_mapi_from {A B : Type} (f : A -> nat -> B) (start : nat)
    (xs : list A) (i : nat) (x : A) :
  nth_error xs i = Some x ->
  nth_error (mapi_from f start xs) i = Some (f x (start + i)).
Proof.
  revert start i. induction xs as [|y xs IH]; intros start [|i] H;
    try discriminate; cbn [mapi_from nth_error] in *.
  - injection H as ->. now rewrite Nat.add_0_r.
  - rewrite (IH (S start) i H). now rewrite Nat.add_succ_comm.
Qed.


(** X8.  The questions of a quiz are numbered from 1 in array order: the
    document holds, for the question at index [i], the item that
    [questionXml] renders for it, which opens with [ident] [q_{i+1}] and
    title [Question {i+1}]. *)
Theorem quiz_questions_are_numbered :
  forall item questions i q,
    item_questions item = Some questions ->
    nth_error questions i = Some q ->
    includes (questionXml q i) (generateQuizQti item) = true
    /\ includes (T "<item ident='q_" ++ Number_toString (Z.of_nat (i + 1))
                 ++ T "' title='Question " ++ Number_toString (Z.of_nat (i + 1))
                 ++ T "'>")
         (questionXml q i) = true.
Proof.
  intros item questions i q Hq Hi. split.
  - unfold generateQuizQti, quizXml. rewrite Hq.
    do 5 apply includes_append_r. apply includes_append_l.
    apply includes_join_In with (x := questionXml q i); [|apply includes_refl].
    apply (nth_error_In _ i). unfold mapi.
    now rewrite (nth_error_mapi_from questionXml 0 questions i q Hi).
  - assert (E : forall a b rest,
              includes (T "<item ident='q_" ++ a ++ T "' title='Question " ++ b
                        ++ T "'>")
                (T "
    <item ident='" ++ ("q_" ++ a) ++ T "' title='Question " ++ b ++ T "'>
      <presentation>
        <material>
          <mattext texttype='text/html'>" ++ rest) = true).
    { intros a b rest. apply includes_spec.
      exists (T "
    "), (T "
      <presentation>
        <material>
          <mattext texttype='text/html'>" ++ rest).
      rewrite !append_assoc. reflexivity. }
    unfold questionXml.
    destruct (String.eqb (question_type q) "multiple_choice");
      [destruct (question_answers q)|];
      unfold choiceItemXml, freeResponseItemXml; apply E.
Qed.

Lemma quiz_questions_are_numbered_witness :
  includes (T "<item ident='q_1' title='Question 1'>")
    (generateQuizQti sampleQuiz) = true.
Proof.
  destruct (quiz_questions_are_numbered sampleQuiz [sampleQuestion] 0
              sampleQuestion eq_refl eq_refl) as [H1 H2].
  exact (includes_trans _ _ _ H2 H1).
Defined.



(** ** More on the normalizer *)

Lemma js_or_truthy (a d : value) : truthy d = true -> truthy (js_or a d) = true.
Proof. unfold js_or. now destruct (truthy a) eqn:E. Qed.

Lemma js_or_again (a d d' : value) :
  truthy d = true -> js_or (js_or a d) d' = js_or a d.
Proof. intros H. unfold js_or at 1. now rewrite (js_or_truthy a d H). Qed.

Lemma js_coalesce_again (a d d' : value) :
  nullish d = false -> js_coalesce (js_coalesce a d) d' = js_coalesce a d.
Proof.
  intros H. unfold js_coalesce at 1.
  assert (E : nullish (js_coalesce a d) = false).
  { unfold js_coalesce. now destruct (nullish a) eqn:Ea. }
  now rewrite E.
Qed.

Lemma index1_nonempty (i : nat) : index1 i <> "".
Proof.
  unfold index1, Number_toString.
  destruct (Z.to_int (Z.of_nat (i + 1))) as [d|d] eqn:E; cbn; [|discriminate].
  destruct d; try discriminate. exfalso.
  apply (f_equal Z.of_int) in E. rewrite DecimalZ.of_to in E.
  cbn in E. lia.
Qed.

Lemma truthy_VStr_append (p s : string) : p <> "" -> truthy (VStr (p ++ s)) = true.
Proof. intros Hp. destruct p; [now elim Hp | reflexivity]. Qed.

Lemma normalizeItem_complete (moduleIndex : nat) (item : value)
    (itemIndex : nat) (it' : NormalizedItem) :
  normalizeItem moduleIndex item itemIndex = Ok it' -> itemComplete it' = true.
Proof.
  intros H. pose proof (normalizeItem_returned _ _ _ _ H) as Hok.
  unfold itemOk in Hok. apply negb_true_iff in Hok.
  rewrite (normalizeItem_ok _ _ _ Hok) in H. injection H as <-.
  unfold itemComplete. cbn.
  rewrite !js_or_truthy by reflexivity.
  unfold js_coalesce. now destruct (nullish (field item "position")) eqn:E; rewrite ?E.
Qed.

Lemma mapi_result_from_Forall {A B : Type} (f : A -> nat -> result B)
    (P : B -> Prop) (start : nat) (xs : list A) (ys : list B) :
  (forall x i y, f x i = Ok y -> P y) ->
  mapi_result_from f start xs = Ok ys -> Forall P ys.
Proof.
  intros Hf. revert start ys. induction xs as [|x xs IH]; intros start ys H.
  - injection H as <-. constructor.
  - cbn [mapi_result_from] in H.
    destruct (f x start) as [y|e] eqn:Ey; [|discriminate].
    cbn [bind] in H.
    destruct (mapi_result_from f (S start) xs) as [ys'|e] eqn:Eys;
      [|discriminate].
    injection H as <-. constructor; [exact (Hf _ _ _ Ey) | exact (IH _ _ Eys)].
Qed.

Lemma normalizeModule_complete (module : value) (moduleIndex : nat)
    (m' : NormalizedModule) :
  normalizeModule module moduleIndex = Ok m' -> moduleComplete m' = true.
Proof.
  intros H. pose proof (normalizeModule_returned _ _ _ H) as Hok.
  unfold moduleOk in Hok. apply andb_true_iff in Hok as [Hn _].
  apply negb_true_iff in Hn. rewrite (normalizeModule_ok _ _ Hn) in H.
  destruct (js_or (field module "items") (VArr [])); try discriminate.
  unfold mapi_result in H.
  destruct (mapi_result_from (normalizeItem moduleIndex) 0 elems)
    as [ys|e] eqn:Eys; [|discriminate].
  cbn [bind] in H. injection H as <-. unfold moduleComplete. cbn.
  rewrite !js_or_truthy by reflexivity.
  assert (Hp : nullish (js_coalesce (field module "position")
                          (VNum (Z.of_nat (moduleIndex + 1)))) = false).
  { unfold js_coalesce. now destruct (nullish (field module "position")) eqn:E. }
  rewrite Hp. cbn [negb andb]. apply forallb_forall. apply Forall_forall.
  apply (mapi_result_from_Forall _ (fun y => itemComplete y = true) _ _ _
           (normalizeItem_complete moduleIndex) Eys).
Qed.

(** X10.  Whatever the LLM returned, a normalized course is complete:
    every module has a truthy [id] and [name] and a [position] that is
    neither [undefined] nor [null], and so has every item, with a truthy
    [type] and [title] as well. *)
Theorem normalizeCourse_output_complete :
  forall course out,
    normalizeCourse course = Ok out -> forallb moduleComplete out = true.
Proof.
  intros course out H.
  pose proof (proj2 (normalizeCourse_returns course) (ex_intro _ out H)) as Hok.
  unfold courseOk in Hok. apply andb_true_iff in Hok as [Hok _].
  apply andb_true_iff in Hok as [Hn Ht]. apply negb_true_iff in Hn.
  unfold normalizeCourse in H. rewrite !(get_field _ _ Hn) in H.
  cbn [bind] in H. rewrite Ht in H.
  destruct (field course "modules");
    try (cbn [isArray negb] in H; rewrite orb_true_r in H; discriminate).
  cbn [truthy isArray negb orb] in H.
  apply forallb_forall. apply Forall_forall.
  apply (mapi_result_from_Forall _ (fun y => moduleComplete y = true) _ _ _
           normalizeModule_complete H).
Qed.

Lemma normalizeCourse_output_complete_witness :
  exists out,
    normalizeCourse sampleRawCourse = Ok out
    /\ forallb moduleComplete out = true.
Proof.
  destruct (proj1 (normalizeCourse_returns sampleRawCourse) eq_refl) as [out H].
  exists out. split; [exact H|].
  exact (normalizeCourse_output_complete sampleRawCourse out H).
Defined.

Lemma normalizeItem_again (moduleIndex itemIndex : nat) (it : NormalizedItem) :
  itemComplete it = true ->
  normalizeItem moduleIndex (itemToValue it) itemIndex = Ok it.
Proof.
  unfold itemComplete. intros H.
  apply andb_true_iff in H as [H Hp]. apply andb_true_iff in H as [H Ht].
  apply andb_true_iff in H as [Hi Hy]. apply negb_true_iff in Hp.
  rewrite normalizeItem_ok by reflexivity.
  unfold itemToValue. cbn [field lookup String.eqb Ascii.eqb Bool.eqb].
  unfold js_or, js_coalesce. rewrite Hi, Hy, Ht, Hp. now destruct it.
Qed.

Lemma mapi_result_from_again {A B : Type} (f : A -> nat -> result B)
    (g : B -> A) (start : nat) (ys : list B) :
  (forall y i, In y ys -> f (g y) i = Ok y) ->
  mapi_result_from f start (map g ys) = Ok ys.
Proof.
  revert start. induction ys as [|y ys IH]; intros start H; [reflexivity|].
  cbn [map mapi_result_from]. rewrite (H y start (or_introl eq_refl)).
  cbn [bind]. rewrite IH; [reflexivity|].
  intros y' i Hy'. apply H. now right.
Qed.

Lemma normalizeModule_again (moduleIndex : nat) (m : NormalizedModule) :
  moduleComplete m = true ->
  normalizeModule (moduleToValue m) moduleIndex = Ok m.
Proof.
  unfold moduleComplete. intros H.
  apply andb_true_iff in H as [H Hitems]. apply andb_true_iff in H as [H Hp].
  apply andb_true_iff in H as [Hi Hn]. apply negb_true_iff in Hp.
  rewrite normalizeModule_ok by reflexivity.
  unfold moduleToValue. cbn [field lookup String.eqb Ascii.eqb Bool.eqb].
  unfold js_or at 1. cbn [truthy]. unfold mapi_result.
  rewrite mapi_result_from_again.
  - cbn [bind]. unfold js_or, js_coalesce. rewrite Hi, Hn, Hp. now destruct m.
  - intros y i Hy. apply normalizeItem_again.
    rewrite forallb_forall in Hitems. now apply Hitems.
Qed.

Lemma lookup_setProp_same (key : string) (v : value)
    (props : list (string * value)) :
  lookup key (setProp key v props) = v.
Proof.
  induction props as [|[k old] props IH]; cbn [setProp lookup].
  - now rewrite String.eqb_refl.
  - destruct (String.eqb k key) eqn:E; cbn [lookup]; now rewrite E.
Qed.

Lemma lookup_setProp_other (key key' : string) (v : value)
    (props : list (string * value)) :
  key' <> key -> lookup key' (setProp key v props) = lookup key' props.
Proof.
  intros Hne. induction props as [|[k old] props IH]; cbn [setProp lookup].
  - destruct (String.eqb_spec key key'); [congruence | reflexivity].
  - destruct (String.eqb_spec k key) as [->|]; cbn [lookup].
    + destruct (String.eqb_spec key key'); [congruence | reflexivity].
    + now rewrite IH.
Qed.

(** X11.  Normalizing is idempotent: run again on the course it produced
    (the object with its [modules] replaced by the normalized ones), the
    normalizer returns the same modules, whatever defaults the first pass
    had to fill in. *)
Theorem normalizeCourse_idempotent :
  forall course out,
    normalizeCourse course = Ok out ->
    normalizeCourse (withModules course out) = Ok out.
Proof.
  intros course out H.
  pose proof (normalizeCourse_output_complete course out H) as Hc.
  pose proof (proj2 (normalizeCourse_returns course) (ex_intro _ out H)) as Hok.
  unfold courseOk in Hok. apply andb_true_iff in Hok as [Hok _].
  apply andb_true_iff in Hok as [_ Ht].
  destruct course as [| | | | | |props]; try discriminate Ht.
  cbn [field] in Ht. unfold withModules, normalizeCourse.
  cbn [get bind]. rewrite lookup_setProp_same.
  rewrite lookup_setProp_other by discriminate. rewrite Ht.
  cbn [truthy isArray negb orb]. unfold mapi_result.
  apply mapi_result_from_again. intros m i Hm.
  apply normalizeModule_again. rewrite forallb_forall in Hc. now apply Hc.
Qed.

Lemma normalizeCourse_idempotent_witness :
  exists out,
    normalizeCourse sampleRawCourse = Ok out
    /\ normalizeCourse (withModules sampleRawCourse out) = Ok out.
Proof.
  destruct (proj1 (normalizeCourse_returns sampleRawCourse) eq_refl) as [out H].
  exists out. split; [exact H|].
  exact (normalizeCourse_idempotent sampleRawCourse out H).
Defined.

(** *** The default ids are distinct *)

Lemma Number_toString_inj (a b : Z) :
  Number_toString a = Number_toString b -> a = b.
Proof.
  unfold Number_toString. intros H. apply DecimalZ.to_int_inj.
  apply (f_equal NilEmpty.int_of_string) in H.
  rewrite !NilEmpty.isi in H. now injection H.
Qed.

Lemma index1_inj (i j : nat) : index1 i = index1 j -> i = j.
Proof. unfold index1. intros H. apply Number_toString_inj in H. lia. Qed.

Lemma string_of_uint_no_minus (d : Decimal.uint) :
  mem_char "-" (NilEmpty.string_of_uint d) = false.
Proof. induction d; simpl; auto. Qed.

Lemma index1_no_minus (i : nat) : mem_char "-" (index1 i) = false.
Proof.
  unfold index1, Number_toString.
  destruct (Z.to_int (Z.of_nat (i + 1))) as [d|d] eqn:E;
    cbn [NilEmpty.string_of_int]; [apply string_of_uint_no_minus|].
  exfalso. apply (f_equal Z.of_int) in E. rewrite DecimalZ.of_to in E.
  cbn in E. unfold Z.of_uint in E.
  pose proof (N2Z.is_nonneg (Pos.of_uint d)). lia.
Qed.

Lemma split_at_minus (a a' b b' : string) :
  mem_char "-" a = false -> mem_char "-" a' = false ->
  a ++ "-" ++ b = a' ++ "-" ++ b' -> a = a' /\ b = b'.
Proof.
  revert a'. induction a as [|x a IH]; intros [|y a'] Ha Ha' E;
    cbn [append mem_char] in *.
  - now injection E.
  - injection E as <- _. discriminate Ha'.
  - injection E as -> _. discriminate Ha.
  - injection E as -> E.
    apply orb_false_iff in Ha as [_ Ha]. apply orb_false_iff in Ha' as [_ Ha'].
    destruct (IH a' Ha Ha' E) as [-> ->]. now split.
Qed.

Lemma normalizeCourse_nth (course : value) (modules : list value)
    (out : list NormalizedModule) :
  field course "modules" = VArr modules ->
  normalizeCourse course = Ok out ->
  forall m module,
    nth_error modules m = Some module ->
    exists o, nth_error out m = Some o /\ normalizeModule module m = Ok o.
Proof.
  intros Em H.
  pose proof (proj2 (normalizeCourse_returns course) (ex_intro _ out H)) as Hok.
  unfold courseOk in Hok. apply andb_true_iff in Hok as [Hok _].
  apply andb_true_iff in Hok as [Hn Ht]. apply negb_true_iff in Hn.
  unfold normalizeCourse in H. rewrite !(get_field _ _ Hn) in H.
  cbn [bind] in H. rewrite Ht, Em in H. cbn [truthy isArray negb orb] in H.
  destruct (mapi_result_from_nth _ _ _ _ H) as [_ Hnth].
  intros m module Hm. destruct (Hnth m module Hm) as (o & Ho & Hno).
  exists o. split; [exact Hno | exact Ho].
Qed.

(** X12.  When the LLM gave no usable ids, the synthesized ones are
    unique: two modules that both lacked a truthy [id] never get the same
    [id], and neither do two items that both lacked one, wherever in the
    course they stand. *)
Theorem default_ids_are_distinct :
  forall course modules out,
    field course "modules" = VArr modules ->
    normalizeCourse course = Ok out ->
    (forall m m' module module' o o',
       nth_error modules m = Some module -> nth_error modules m' = Some module' ->
       truthy (field module "id") = false ->
       truthy (field module' "id") = false ->
       nth_error out m = Some o -> nth_error out m' = Some o' ->
       out_module_id o = out_module_id o' -> m = m')
    /\ (forall m m' module module' j j' item item' o o' it it',
          nth_error modules m = Some module ->
          nth_error modules m' = Some module' ->
          nth_error (itemsOf module) j = Some item ->
          nth_error (itemsOf module') j' = Some item' ->
          truthy (field item "id") = false ->
          truthy (field item' "id") = false ->
          nth_error out m = Some o -> nth_error out m' = Some o' ->
          nth_error (out_module_items o) j = Some it ->
          nth_error (out_module_items o') j' = Some it' ->
          out_item_id it = out_item_id it' -> m = m' /\ j = j').
Proof.
  intros course modules out Em H.
  pose proof (normalizeCourse_nth course modules out Em H) as Hall.
  assert (Hmod : forall m module o,
            nth_error modules m = Some module -> nth_error out m = Some o ->
            normalizeModule module m = Ok o).
  { intros m module o Hm Ho. destruct (Hall m module Hm) as (o1 & Ho1 & Hn).
    rewrite Ho in Ho1. now injection Ho1 as <-. }
  split.
  - intros m m' module module' o o' Hm Hm' Ht Ht' Ho Ho' E.
    destruct (normalizeModule_fields _ _ _ (Hmod _ _ _ Hm Ho)) as (Hid & _).
    destruct (normalizeModule_fields _ _ _ (Hmod _ _ _ Hm' Ho')) as (Hid' & _).
    rewrite Hid, Hid' in E. unfold js_or in E. rewrite Ht, Ht' in E.
    injection E as E. now apply index1_inj.
  - intros m m' module module' j j' item item' o o' it it'
      Hm Hm' Hj Hj' Ht Ht' Ho Ho' Hit Hit' E.
    destruct (normalizeModule_fields _ _ _ (Hmod _ _ _ Hm Ho))
      as (_ & _ & _ & _ & Hitems).
    destruct (normalizeModule_fields _ _ _ (Hmod _ _ _ Hm' Ho'))
      as (_ & _ & _ & _ & Hitems').
    destruct (Hitems j item Hj) as (Hn & i1 & Hi1 & Hnorm).
    destruct (Hitems' j' item' Hj') as (Hn' & i1' & Hi1' & Hnorm').
    rewrite Hit in Hi1. injection Hi1 as <-.
    rewrite Hit' in Hi1'. injection Hi1' as <-.
    rewrite (normalizeItem_ok _ _ _ Hn) in Hnorm. injection Hnorm as <-.
    rewrite (normalizeItem_ok _ _ _ Hn') in Hnorm'. injection Hnorm' as <-.
    cbn [out_item_id] in E. unfold js_or in E. rewrite Ht, Ht' in E.
    injection E as E.
    apply split_at_minus in E as [E1 E2]; try apply index1_no_minus.
    split; now apply index1_inj.
Qed.

Lemma default_ids_are_distinct_witness :
  normalizeCourse sampleBareCourse = Ok sampleBareModules
  /\ VStr "module-1" <> VStr "module-2".
Proof.
  split; [reflexivity|]. intros E.
  assert (H : 0 = 1); [|discriminate H].
  refine (proj1 (default_ids_are_distinct sampleBareCourse
                   [VObj []; VObj []] sampleBareModules eq_refl eq_refl)
            0 1 (VObj []) (VObj []) _ _
            eq_refl eq_refl eq_refl eq_refl eq_refl eq_refl E).
Defined.

(** *** Which exception the normalizer throws *)

Lemma mapi_result_from_error {A B : Type} (f : A -> nat -> result B)
    (start : nat) (xs : list A) (e : JsError) :
  mapi_result_from f start xs = Throw e ->
  exists x i, In x xs /\ f x i = Throw e.
Proof.
  revert start. induction xs as [|x xs IH]; intros start H; [discriminate|].
  cbn [mapi_result_from] in H.
  destruct (f x start) as [y|e'] eqn:Ey.
  - cbn [bind] in H.
    destruct (mapi_result_from f (S start) xs) as [ys|e'] eqn:Eys;
      [discriminate|].
    cbn [bind] in H. injection H as ->.
    destruct (IH _ Eys) as (x' & i & Hin & Hf). exists x', i. split; [now right | exact Hf].
  - cbn [bind] in H. injection H as ->. exists x, start. split; [now left | exact Ey].
Qed.

Lemma normalizeItem_error (moduleIndex : nat) (item : value) (itemIndex : nat)
    (e : JsError) :
  normalizeItem moduleIndex item itemIndex = Throw e -> e = TypeError.
Proof.
  destruct (nullish item) eqn:E.
  - rewrite (normalizeItem_throws _ _ _ E). now intros [= <-].
  - now rewrite (normalizeItem_ok _ _ _ E).
Qed.

Lemma normalizeModule_error (module : value) (moduleIndex : nat) (e : JsError) :
  normalizeModule module moduleIndex = Throw e -> e = TypeError.
Proof.
  destruct (nullish module) eqn:E.
  - unfold normalizeModule. rewrite (get_throws _ _ E). now intros [= <-].
  - rewrite (normalizeModule_ok _ _ E).
    destruct (js_or (field module "items") (VArr [])); cbn [bind];
      try (now intros [= <-]).
    unfold mapi_result.
    destruct (mapi_result_from (normalizeItem moduleIndex) 0 elems)
      as [ys|e'] eqn:Eys; cbn [bind]; [discriminate|].
    intros [= <-]. destruct (mapi_result_from_error _ _ _ _ Eys) as (x & i & _ & Hf).
    exact (normalizeItem_error _ _ _ _ Hf).
Qed.

(** X13.  The three ways the normalizing tail of [POST] ends: it returns
    exactly on the shapes of [courseOk]; it throws the error [Invalid
    course structure returned from LLM] exactly when the course is an
    object or a primitive whose [title] is falsy or whose [modules] is
    not an array; in every other case (the course itself, a module or an
    item is [null], or some [items] is truthy and not an array) it throws
    a [TypeError]. *)
Theorem normalizeCourse_outcomes :
  forall course,
    ((exists out, normalizeCourse course = Ok out) <-> courseOk course = true)
    /\ (normalizeCourse course
        = Throw (Error "Invalid course structure returned from LLM")
        <-> nullish course = false
            /\ (truthy (field course "title") = false
                \/ isArray (field course "modules") = false))
    /\ (normalizeCourse course = Throw TypeError
        <-> nullish course = true
            \/ (truthy (field course "title") = true
                /\ exists modules,
                     field course "modules" = VArr modules
                     /\ forallb moduleOk modules = false)).
Proof.
  intros course.
  split; [symmetry; apply normalizeCourse_returns|].
  destruct (nullish course) eqn:En.
  { unfold normalizeCourse. rewrite (get_throws _ _ En). cbn [bind].
    split; split; try discriminate; try (intros [H _]; discriminate H); auto. }
  unfold normalizeCourse. rewrite !(get_field _ _ En). cbn [bind].
  destruct (truthy (field course "title")) eqn:Et; cbn [negb orb].
  2:{ split; split; try discriminate; auto.
      intros [H | [H _]]; discriminate H. }
  destruct (field course "modules") as [| |b|n|s|modules|props] eqn:Em;
    cbn [isArray negb];
    try (rewrite orb_true_r; split; split; try discriminate; auto;
         intros [H | (_ & ms & H & _)]; discriminate H).
  cbn [truthy isArray negb orb]. unfold mapi_result.
  destruct (mapi_result_from normalizeModule 0 modules) as [out|e] eqn:Eout.
  - pose proof (mapi_result_from_throws _ moduleOk _ _ _ normalizeModule_returned Eout)
      as Hall.
    split; split; try discriminate.
    + intros [_ [H | H]]; discriminate H.
    + intros [H | (_ & ms & [= <-] & H)]; [discriminate H|].
      rewrite Hall in H. discriminate H.
  - destruct (mapi_result_from_error _ _ _ _ Eout) as (x & i & _ & Hf).
    apply normalizeModule_error in Hf. subst e.
    split; split; try discriminate.
    + intros [_ [H | H]]; discriminate H.
    + intros _. right. split; [reflexivity|]. exists modules. split; [reflexivity|].
      destruct (forallb moduleOk modules) eqn:Hall; [|reflexivity].
      destruct (mapi_result_from_ok normalizeModule moduleOk 0 modules)
        as [ys Hys]; [intros; now apply normalizeModule_returns | exact Hall |].
      rewrite Hys in Eout. discriminate Eout.
    + reflexivity.
Qed.

(** ** Provider selection *)

Example getProvider_samples :
  getProvider (envOf [("LLM_PROVIDER", "Anthropic"); ("AZURE_OPENAI_API_KEY", "k");
                      ("AZURE_OPENAI_ENDPOINT", "https://r.openai.azure.com")])
  = anthropic
  /\ getProvider (envOf [("LLM_PROVIDER", "bedrock"); ("AZURE_OPENAI_API_KEY", "k");
                         ("AZURE_OPENAI_ENDPOINT", "https://r.openai.azure.com")])
     = azure
  /\ getProvider (envOf [("AZURE_OPENAI_API_KEY", "k"); ("AZURE_OPENAI_ENDPOINT", "");
                         ("ANTHROPIC_API_KEY", "a")])
     = anthropic
  /\ getProvider (envOf []) = openai.
Proof. repeat split. Qed.

Lemma getProvider_cases (env : Env) :
  let sel := option_map toLowerCase (env "LLM_PROVIDER") in
  (sel = Some "openai" /\ getProvider env = openai)
  \/ (sel = Some "anthropic" /\ getProvider env = anthropic)
  \/ (sel = Some "azure" /\ getProvider env = azure)
  \/ (sel <> Some "openai" /\ sel <> Some "anthropic" /\ sel <> Some "azure"
      /\ getProvider env
         = if envTruthy env "AZURE_OPENAI_API_KEY"
              && envTruthy env "AZURE_OPENAI_ENDPOINT"
           then azure
           else if envTruthy env "ANTHROPIC_API_KEY" then anthropic
           else openai).
Proof.
  intros sel. unfold getProvider. fold sel.
  destruct sel as [p|].
  - destruct (String.eqb_spec p "openai") as [->|H1]; [left; now split|].
    destruct (String.eqb_spec p "anthropic") as [->|H2];
      [right; left; now split|].
    destruct (String.eqb_spec p "azure") as [->|H3];
      [right; right; left; now split|].
    right; right; right. repeat split; congruence.
  - right; right; right. repeat split; discriminate.
Qed.

(** X14.  A recognized [LLM_PROVIDER], in any letter case, decides the
    provider whatever credentials are set; otherwise Azure is chosen only
    when both its key and its endpoint are set and not empty, Anthropic
    only when Azure is not chosen and its key is set and not empty, and
    OpenAI in every remaining case, also when no variable is set. *)
Theorem getProvider_decision :
  forall env,
    let sel := option_map toLowerCase (env "LLM_PROVIDER") in
    let recognized :=
      sel = Some "openai" \/ sel = Some "anthropic" \/ sel = Some "azure" in
    let azureReady :=
      envTruthy env "AZURE_OPENAI_API_KEY"
      && envTruthy env "AZURE_OPENAI_ENDPOINT" in
    (getProvider env = azure
     <-> sel = Some "azure" \/ (~ recognized /\ azureReady = true))
    /\ (getProvider env = anthropic
        <-> sel = Some "anthropic"
            \/ (~ recognized /\ azureReady = false
                /\ envTruthy env "ANTHROPIC_API_KEY" = true))
    /\ (getProvider env = openai
        <-> sel = Some "openai"
            \/ (~ recognized /\ azureReady = false
                /\ envTruthy env "ANTHROPIC_API_KEY" = false)).
Proof.
  intros env sel recognized azureReady. subst recognized azureReady.
  destruct (getProvider_cases env) as [[E ->] | [[E ->] | [[E ->] | (N1 & N2 & N3 & ->)]]];
    fold sel in E || fold sel in N1, N2, N3.
  - rewrite E. repeat split; intros H; try discriminate H; auto;
      destruct H as [H | [H _]]; try discriminate H; elim H; auto.
  - rewrite E. repeat split; intros H; try discriminate H; auto;
      destruct H as [H | [H _]]; try discriminate H; elim H; auto.
  - rewrite E. repeat split; intros H; try discriminate H; auto;
      destruct H as [H | [H _]]; try discriminate H; elim H; auto.
  - assert (Hn : ~ (sel = Some "openai" \/ sel = Some "anthropic"
                    \/ sel = Some "azure")) by tauto.
    destruct (envTruthy env "AZURE_OPENAI_API_KEY"
              && envTruthy env "AZURE_OPENAI_ENDPOINT");
      [|destruct (envTruthy env "ANTHROPIC_API_KEY")];
      repeat split; intros H; try discriminate H; auto;
      try (destruct H as [H | H]; [contradiction | ]);
      try (destruct H as (_ & H1 & H2); discriminate);
      try (destruct H as (_ & H1); discriminate).
Qed.

(** ** The Azure resource name *)

Lemma beforeFirstDot_split (s : string) :
  includes "." (beforeFirstDot s) = false
  /\ (s = beforeFirstDot s
      \/ exists rest, s = beforeFirstDot s ++ "." ++ rest).
Proof.
  induction s as [|c s [IH1 IH2]]; cbn [beforeFirstDot].
  - split; [reflexivity | now left].
  - destruct (Ascii.eqb_spec c ".") as [->|Hc].
    + split; [reflexivity|]. right. exists s. reflexivity.
    + split.
      * rewrite includes_cons, IH1, orb_false_r.
        change "."%string with (String "."%char "").
        rewrite prefix_cons.
        destruct (Ascii.eqb_spec "."%char c); [congruence | reflexivity].
      * destruct IH2 as [E | [rest E]].
        -- left. now rewrite <- E.
        -- right. exists rest. cbn [append]. f_equal. exact E.
Qed.

(** X15.  When the endpoint parses as a URL, the resource name is the
    host name up to its first dot: it holds no dot, and the host name is
    the resource name itself or the resource name, a dot and a rest.  It
    is therefore empty exactly when the host name is empty or starts with
    a dot.  When the endpoint does not parse, the resource name is the
    endpoint, unchanged, dots and all. *)
Theorem extractResourceName_first_label :
  forall URL_hostname endpoint,
    let name := extractResourceName URL_hostname endpoint in
    (forall hostname,
        URL_hostname endpoint = Some hostname ->
        includes "." name = false
        /\ (hostname = name \/ exists rest, hostname = name ++ "." ++ rest)
        /\ (name = "" <-> hostname = "" \/ prefix "." hostname = true))
    /\ (URL_hostname endpoint = None -> name = endpoint).
Proof.
  intros URL_hostname endpoint name. subst name. unfold extractResourceName.
  split.
  - intros hostname ->.
    destruct (beforeFirstDot_split hostname) as [H1 H2].
    split; [exact H1|]. split; [exact H2|].
    destruct hostname as [|c h]; cbn [beforeFirstDot].
    + split; auto.
    + change (prefix "." (String c h)) with (prefix (String "."%char "") (String c h)).
      rewrite prefix_cons.
      destruct (Ascii.eqb_spec c ".") as [->|Hc].
      * split; [|reflexivity]. intros _. right.
        rewrite Ascii.eqb_refl. destruct h; reflexivity.
      * split; [discriminate|]. intros [H|H]; [discriminate H|].
        destruct (Ascii.eqb_spec "."%char c); [congruence | discriminate H].
  - intros ->. reflexivity.
Qed.

(** ** What the provider is sent *)

Lemma find_system_skip (pre rest : list LLMMessage) :
  Forall notSystem pre ->
  find (fun m => Role_eqb (role m) system) (pre ++ rest)%list
  = find (fun m => Role_eqb (role m) system) rest.
Proof.
  induction 1 as [|m pre Hm _ IH]; [reflexivity|].
  cbn [app find]. unfold notSystem in Hm.
  destruct (role m); [now elim Hm | exact IH | exact IH].
Qed.

Lemma filter_notSystem_all (pre : list LLMMessage) :
  Forall notSystem pre ->
  filter (fun m => negb (Role_eqb (role m) system)) pre = pre.
Proof.
  induction 1 as [|m pre Hm _ IH]; [reflexivity|].
  cbn [filter]. unfold notSystem in Hm. rewrite IH.
  destruct (role m); [now elim Hm | reflexivity | reflexivity].
Qed.

Lemma filter_notSystem_sound (ms : list LLMMessage) :
  Forall (fun rc : Role * string => fst rc <> system)
    (map (fun m => (role m, content m))
       (filter (fun m => negb (Role_eqb (role m) system)) ms)).
Proof.
  induction ms as [|m ms IH]; [constructor|].
  cbn [filter]. destruct (role m) eqn:E; cbn [Role_eqb negb map]; auto;
    constructor; auto; cbn [fst]; rewrite E; discriminate.
Qed.

(** X16.  Of the messages handed to [generateLLMResponse], the provider
    is sent the content of the first system message as the system prompt
    and the messages of the other roles, in their order, as the
    conversation; no system message is part of the conversation, so a
    second system message is sent nowhere.  Without a system message the
    system prompt is absent and every message is sent. *)
Theorem generateLLMResponse_request :
  forall generateText messages options w ms,
    derefAll (store w) messages = Ok ms ->
    exists req,
      generateLLMResponse generateText messages options w = generateText req
      /\ Forall (fun rc => fst rc <> system) (req_messages req)
      /\ (forall pre s post,
             ms = (pre ++ s :: post)%list -> role s = system ->
             Forall notSystem pre ->
             req_system req = Some (content s)
             /\ req_messages req
                = map (fun m => (role m, content m))
                    (pre ++ filter (fun m => negb (Role_eqb (role m) system))
                              post)%list)
      /\ (Forall notSystem ms ->
          req_system req = None
          /\ req_messages req = map (fun m => (role m, content m)) ms)
      /\ req_temperature req = default (temperature options) (7 # 10)%Q
      /\ req_maxTokens req = default (maxTokens options) 4096%Z.
Proof.
  intros generateText messages options w ms H.
  unfold generateLLMResponse. rewrite H. cbn [bind].
  eexists. split; [reflexivity|].
  cbn [req_system req_messages req_temperature req_maxTokens].
  split; [apply filter_notSystem_sound|].
  split; [|split; [|split; reflexivity]].
  - intros pre s post -> Hs Hpre.
    rewrite find_system_skip by exact Hpre.
    rewrite filter_app, filter_notSystem_all by exact Hpre.
    cbn [find filter]. rewrite Hs. cbn [Role_eqb negb option_map].
    split; reflexivity.
  - intros Hall. rewrite filter_notSystem_all by exact Hall.
    replace (find (fun m => Role_eqb (role m) system) ms) with (@None LLMMessage).
    + split; reflexivity.
    + rewrite <- (app_nil_r ms). rewrite find_system_skip by exact Hall.
      reflexivity.
Qed.

Lemma generateLLMResponse_request_witness :
  exists req,
    generateLLMResponse (fun _ => Ok "{}") [0; 1; 2; 3]
      {| temperature := None; maxTokens := None |} sampleChat
    = Ok "{}"
    /\ req_system req = Some "Be brief"
    /\ req_messages req = [(user, "Hi"); (assistant, "Hello")].
Proof.
  destruct (generateLLMResponse_request (fun _ => Ok "{}") [0; 1; 2; 3]
              {| temperature := None; maxTokens := None |} sampleChat
              (store sampleChat) eq_refl)
    as (req & E & _ & Hfirst & _).
  exists req. split; [exact E|].
  exact (Hfirst [] {| role := system; content := "Be brief" |}
           [ {| role := user; content := "Hi" |};
             {| role := system; content := "Be thorough" |};
             {| role := assistant; content := "Hello" |} ]
           eq_refl eq_refl (Forall_nil _)).
Defined.

(** ** What a JSON call changes *)

Lemma assign_length (st : Store) (r : ref) (m : LLMMessage) :
  length (assign st r m) = length st.
Proof.
  revert r; induction st as [|x st IH]; intros r; [reflexivity|].
  destruct r; cbn [assign length]; [reflexivity | now rewrite IH].
Qed.

Lemma deref_assign_other (st : Store) (r r' : ref) (m : LLMMessage) :
  r' <> r -> deref (assign st r m) r' = deref st r'.
Proof.
  unfold deref. revert r r'; induction st as [|x st IH]; intros r r' H.
  - reflexivity.
  - destruct r as [|r], r' as [|r']; cbn [assign nth_error];
      try reflexivity; [now elim H | apply IH; congruence].
Qed.

Lemma derefAll_assign_fresh (st : Store) (r : ref) (m : LLMMessage)
    (rs : list ref) :
  ~ In r rs -> derefAll (assign st r m) rs = derefAll st rs.
Proof.
  induction rs as [|x rs IH]; intros H; [reflexivity|].
  cbn [derefAll]. rewrite deref_assign_other.
  - rewrite IH; [reflexivity|]. intros Hin. apply H. now right.
  - intros ->. apply H. now left.
Qed.

Lemma derefAll_app (st : Store) (a b : list ref) :
  derefAll st (a ++ b)%list
  = (ms1 <- derefAll st a ;; ms2 <- derefAll st b ;; Ok (ms1 ++ ms2)%list).
Proof.
  induction a as [|x a IH]; cbn [app derefAll].
  - cbn [bind]. now destruct (derefAll st b).
  - destruct (deref st x); [|reflexivity]. rewrite IH.
    destruct (derefAll st a); [|reflexivity]. cbn [bind].
    now destruct (derefAll st b).
Qed.

Lemma last_slot (init : list ref) (r : ref) :
  nth_error (init ++ [r])%list (length (init ++ [r])%list - 1) = Some r.
Proof.
  rewrite length_app. cbn [length].
  replace (length init + 1 - 1) with (length init) by lia.
  rewrite nth_error_app2 by lia. now rewrite Nat.sub_diag.
Qed.

Lemma addJsonInstruction_console (messages : list ref) (w : World) :
  console (addJsonInstruction messages w) = console w.
Proof.
  unfold addJsonInstruction.
  destruct (nth_error messages (length messages - 1)) as [r|]; [|reflexivity].
  destruct (deref (store w) r) as [m|]; [|reflexivity].
  now destruct (Role_eqb (role m) user).
Qed.

Lemma addJsonInstruction_cases (messages : list ref) (w : World) :
  addJsonInstruction messages w = w
  \/ exists r m,
       nth_error messages (length messages - 1) = Some r
       /\ deref (store w) r = Some m /\ role m = user
       /\ store (addJsonInstruction messages w)
          = assign (store w) r
              {| role := user; content := content m ++ jsonInstruction |}.
Proof.
  unfold addJsonInstruction.
  destruct (nth_error messages (length messages - 1)) as [r|]; [|now left].
  destruct (deref (store w) r) as [m|] eqn:Em; [|now left].
  destruct (role m) eqn:Er; cbn [Role_eqb]; [now left | | now left].
  right. exists r, m. repeat split; assumption.
Qed.

(** X17.  What a call of [generateJSONResponse] can change.  No message
    object appears or disappears; an object other than the one in the
    last slot of the array is left as it was; no object changes its role,
    and a content changes only by the JSON instruction added at its end.
    The console gets at most one line, the raw reply, and only when the
    call fails with the not-valid-JSON error. *)
Theorem generateJSONResponse_frame :
  forall generateText JSON_parse messages options w,
    let out := generateJSONResponse generateText JSON_parse messages options w in
    length (store (snd out)) = length (store w)
    /\ (forall r,
           nth_error messages (length messages - 1) <> Some r ->
           deref (store (snd out)) r = deref (store w) r)
    /\ (forall r m,
           deref (store w) r = Some m ->
           exists m',
             deref (store (snd out)) r = Some m'
             /\ role m' = role m
             /\ (content m' = content m
                 \/ content m' = content m ++ jsonInstruction))
    /\ (console (snd out) = console w
        \/ exists response,
             fst out = Throw (Error "LLM response was not valid JSON")
             /\ console (snd out)
                = (console w
                   ++ [("Failed to parse LLM response as JSON:", response)])%list).
Proof.
  intros generateText JSON_parse messages options w out. subst out.
  rewrite generateJSONResponse_store.
  split; [|split; [|split]].
  - destruct (addJsonInstruction_cases messages w) as [-> | (r & m & _ & _ & _ & ->)];
      [reflexivity | apply assign_length].
  - intros r Hr.
    destruct (addJsonInstruction_cases messages w) as [-> | (r0 & m & Hl & _ & _ & ->)];
      [reflexivity|].
    apply deref_assign_other. intros ->. now elim Hr.
  - intros r m Hm.
    destruct (addJsonInstruction_cases messages w) as [-> | (r0 & m0 & _ & Hm0 & Hu & ->)].
    + exists m. auto.
    + destruct (Nat.eq_dec r r0) as [->|Hne].
      * rewrite (deref_assign _ _ m0) by exact Hm0.
        rewrite Hm in Hm0. injection Hm0 as <-.
        eexists. split; [reflexivity|]. cbn [role content]. auto.
      * rewrite deref_assign_other by exact Hne. exists m. auto.
  - unfold generateJSONResponse.
    destruct (generateLLMResponse generateText messages options
                (addJsonInstruction messages w)) as [response|e].
    + unfold parseResponse.
      destruct (JSON_parse (cleanResponse response)); cbn [fst snd console].
      * left. apply addJsonInstruction_console.
      * right. exists response. rewrite addJsonInstruction_console. auto.
    + left. apply addJsonInstruction_console.
Qed.

(** X18.  Calls on the same array add up: after [n] calls with a user
    message in the last slot, that message carries [n] copies of the JSON
    instruction after its original content. *)
Theorem generateJSONResponse_repeated :
  forall generateText JSON_parse messages options n w r m,
    nth_error messages (length messages - 1) = Some r ->
    deref (store w) r = Some m -> role m = user ->
    exists m',
      deref
        (store
           (callAgain n
              (generateJSONResponse generateText JSON_parse messages options)
              w)) r
      = Some m'
      /\ role m' = user
      /\ content m' = content m ++ String.concat "" (repeat jsonInstruction n).
Proof.
  intros generateText JSON_parse messages options n.
  induction n as [|n IH]; intros w r m Hr Hm Hu.
  - exists m. cbn [callAgain repeat String.concat].
    split; [exact Hm|]. split; [exact Hu|].
    now rewrite append_nil_r.
  - cbn [callAgain].
    pose proof (generateJSONResponse_last_user generateText JSON_parse
                  messages options w r m Hr Hm Hu) as H1.
    destruct (IH _ r _ Hr H1 eq_refl) as (m' & E & Hu' & Hc).
    exists m'. split; [exact E|]. split; [exact Hu'|].
    rewrite Hc. cbn [content]. rewrite append_assoc. f_equal.
    clear. induction n as [|n IH]; [reflexivity|].
    change (repeat jsonInstruction (S (S n)))
      with (jsonInstruction :: repeat jsonInstruction (S n)).
    cbn [repeat String.concat] in *.
    destruct n; [reflexivity|]. reflexivity.
Qed.

Lemma generateJSONResponse_repeated_witness :
  exists m',
    deref
      (store
         (callAgain 2
            (generateJSONResponse (fun _ => Ok "{}") (fun _ => Some (VObj []))
               [0] {| temperature := None; maxTokens := None |})
            sampleWorld)) 0
    = Some m'
    /\ role m' = user
    /\ content m'
       = content {| role := user; content := "List three colours" |}
         ++ String.concat "" (repeat jsonInstruction 2).
Proof.
  exact (generateJSONResponse_repeated (fun _ => Ok "{}")
           (fun _ => Some (VObj [])) [0]
           {| temperature := None; maxTokens := None |} 2 sampleWorld 0
           {| role := user; content := "List three colours" |}
           eq_refl eq_refl eq_refl).
Defined.

(** X19.  A JSON call on distinct message objects with a user message
    last: the provider is sent the messages before the last as
    [generateLLMResponse] sends them, and then the last message with the
    JSON instruction after its content; the call ends as the provider's
    reply decides, in the world where the last object carries the
    instruction. *)
Theorem generateJSONResponse_request :
  forall generateText JSON_parse init r options w ms m,
    ~ In r init ->
    derefAll (store w) init = Ok ms ->
    deref (store w) r = Some m -> role m = user ->
    let w' :=
      {| store := assign (store w) r
                    {| role := user; content := content m ++ jsonInstruction |};
         console := console w |} in
    generateJSONResponse generateText JSON_parse (init ++ [r])%list options w
    = match
        generateText
          {| req_system :=
               option_map content
                 (find (fun m => Role_eqb (role m) system) ms);
             req_messages :=
               (map (fun m => (role m, content m))
                  (filter (fun m => negb (Role_eqb (role m) system)) ms)
                ++ [(user, (content m ++ jsonInstruction)%string)])%list;
             req_temperature := default (temperature options) (7 # 10)%Q;
             req_maxTokens := default (maxTokens options) 4096%Z |}
      with
      | Ok response => parseResponse JSON_parse response w'
      | Throw e => (Throw e, w')
      end.
Proof.
  intros generateText JSON_parse init r options w ms m Hfresh Hms Hm Hu w'.
  unfold generateJSONResponse, addJsonInstruction.
  rewrite last_slot, Hm, Hu. cbn [Role_eqb]. fold w'.
  unfold generateLLMResponse.
  rewrite derefAll_app. subst w'. cbn [store].
  rewrite derefAll_assign_fresh by exact Hfresh. rewrite Hms.
  cbn [bind derefAll]. rewrite (deref_assign _ _ m) by exact Hm.
  cbn [bind].
  rewrite filter_app, map_app. cbn [filter role Role_eqb negb map content].
  replace (find (fun m0 => Role_eqb (role m0) system)
             (ms ++ [{| role := user;
                        content := (content m ++ jsonInstruction)%string |}])%list)
    with (find (fun m0 => Role_eqb (role m0) system) ms).
  - reflexivity.
  - clear. induction ms as [|x ms IH]; [reflexivity|].
    cbn [app find]. now destruct (Role_eqb (role x) system).
Qed.

Lemma generateJSONResponse_request_witness :
  generateJSONResponse (fun req => Ok (default (req_system req) ""))
    (fun _ => Some (VObj [])) ([0] ++ [1])%list
    {| temperature := None; maxTokens := Some 16000%Z |} samplePair
  = (Ok (VObj []),
     {| store := [ {| role := system; content := "You design courses." |};
                   {| role := user;
                      content := "Design a course." ++ jsonInstruction |} ];
        console := [] |}).
Proof.
  refine (eq_trans
            (generateJSONResponse_request
               (fun req => Ok (default (req_system req) ""))
               (fun _ => Some (VObj [])) [0] 1
               {| temperature := None; maxTokens := Some 16000%Z |} samplePair
               [ {| role := system; content := "You design courses." |} ]
               {| role := user; content := "Design a course." |}
               _ eq_refl eq_refl eq_refl)
            eq_refl).
  cbn. intros [H|[]]. discriminate H.
Defined.

(** ** The cleaned reply *)

Lemma trimStart_head (s : string) :
  trimStart s = ""
  \/ exists c rest, trimStart s = String c rest /\ isWhiteSpace c = false.
Proof.
  induction s as [|c s IH]; [now left|].
  cbn [trimStart]. destruct (isWhiteSpace c) eqn:E; [exact IH|].
  right. now exists c, s.
Qed.

Lemma trim_idempotent (s : string) : trim (trim s) = trim s.
Proof.
  destruct (trimStart_head s) as [E | (c & rest & E & Hc)].
  - unfold trim. rewrite E. reflexivity.
  - destruct (trim_head c rest Hc) as [t Et].
    assert (Es : trim s = String c t).
    { rewrite <- Et. unfold trim. rewrite E. cbn [trimStart]. now rewrite Hc. }
    exact (trim_idempotent_on s c t Es Hc).
Qed.

(** X20.  The text handed to [JSON.parse] is trimmed: trimming it again
    changes nothing, so it neither begins nor ends with white space.  A
    reply that, once trimmed, neither begins nor ends with three
    backquotes is handed over trimmed and otherwise as it is. *)
Theorem cleanResponse_trimmed :
  forall response,
    trim (cleanResponse response) = cleanResponse response
    /\ (startsWith "```" (trim response) = false ->
        endsWith "```" (trim response) = false ->
        cleanResponse response = trim response).
Proof.
  intros response. split.
  - unfold cleanResponse. apply trim_idempotent.
  - intros Hs He. unfold cleanResponse.
    assert (Hj : startsWith "```json" (trim response) = false).
    { unfold startsWith in *. destruct (trim response) as [|a [|b [|c s]]];
        try reflexivity.
      - cbn [prefix]. now destruct (ascii_dec "`" a).
      - rewrite prefix_cons. destruct (Ascii.eqb "`" a); [|reflexivity].
        cbn [andb]. rewrite prefix_cons. rewrite andb_comm. reflexivity.
      - change "```json" with ("```" ++ "json").
        change "```" with (String "`" (String "`" (String "`" ""))) in *.
        cbn [append]. rewrite !prefix_cons in *.
        destruct (Ascii.eqb "`" a); [|reflexivity].
        destruct (Ascii.eqb "`" b); [|reflexivity].
        destruct (Ascii.eqb "`" c); [|reflexivity].
        cbn [andb] in Hs. destruct s; discriminate Hs. }
    rewrite Hj, Hs, He. apply trim_idempotent.
Qed.

(** ** The prompts *)

Lemma includes_join_sep (sep x : string) (parts : list string) :
  In x parts -> includes x (join sep parts) = true.
Proof.
  unfold join. induction parts as [|p ps IH]; intros Hin; [easy|].
  cbn [String.concat]. destruct ps as [|q ps].
  - destruct Hin as [->|[]]. apply includes_refl.
  - destruct Hin as [->|Hin].
    + apply includes_head.
    + do 2 apply includes_append_r. exact (IH Hin).
Qed.

Ltac in_list := repeat (first [left; reflexivity | right]).

Ltac same_answers a H ids :=
  repeat match goal with
         | |- context [getAnswer a ?id] =>
             rewrite (H id) by (unfold ids; cbn [In]; in_list)
         end.

(** X21.  A user prompt depends on the answers only through the question
    ids it names: two forms whose answers to those questions read the
    same give the same prompt, whatever else they hold.  The full-course
    prompt names 23 ids, the structure prompt 9 and the module prompt 4. *)
Theorem prompts_read_named_answers_only :
  forall answers answers',
    ((forall id, In id canvasQuestionIds ->
                 getAnswer answers id = getAnswer answers' id) ->
     buildCanvasGenerationUserPrompt answers
     = buildCanvasGenerationUserPrompt answers')
    /\ ((forall id, In id structureQuestionIds ->
                    getAnswer answers id = getAnswer answers' id) ->
        buildCourseStructureUserPrompt answers
        = buildCourseStructureUserPrompt answers')
    /\ ((forall id, In id moduleQuestionIds ->
                    getAnswer answers id = getAnswer answers' id) ->
        forall moduleStructure courseTitle,
          buildModuleContentUserPrompt answers moduleStructure courseTitle
          = buildModuleContentUserPrompt answers' moduleStructure courseTitle).
Proof.
  intros a a'. split; [|split].
  - intros H. unfold buildCanvasGenerationUserPrompt.
    same_answers a H canvasQuestionIds. reflexivity.
  - intros H. unfold buildCourseStructureUserPrompt.
    same_answers a H structureQuestionIds. reflexivity.
  - intros H ms title. unfold buildModuleContentUserPrompt.
    same_answers a H moduleQuestionIds. reflexivity.
Qed.

Ltac find_part :=
  repeat first [ apply includes_head | apply includes_refl
               | apply includes_append_r ].

Lemma canvas_prompt_includes_getAnswer (answers : Answers) (id : string) :
  In id canvasQuestionIds ->
  includes (getAnswer answers id) (buildCanvasGenerationUserPrompt answers)
  = true.
Proof.
  unfold canvasQuestionIds. cbn [In]. intros H.
  unfold buildCanvasGenerationUserPrompt.
  repeat (destruct H as [<- | H]; [find_part|]).
  destruct H.
Qed.

(** X22.  The full-course prompt carries every answer to a question it
    names as it was given, with nothing escaped or cut: a text answer is
    a substring of the prompt, and so is each choice of a list answer. *)
Theorem canvas_prompt_carries_answers :
  forall answers id,
    In id canvasQuestionIds ->
    (forall val, answers id = Some (Text val) ->
                 includes val (buildCanvasGenerationUserPrompt answers) = true)
    /\ (forall val choice,
           answers id = Some (Choices val) -> In choice val ->
           includes choice (buildCanvasGenerationUserPrompt answers) = true).
Proof.
  intros answers id Hid.
  pose proof (canvas_prompt_includes_getAnswer answers id Hid) as H.
  unfold getAnswer in H. split.
  - intros val E. rewrite E in H.
    destruct (String.eqb val "") eqn:Ev; [|exact H].
    apply String.eqb_eq in Ev. now subst val.
  - intros val choice E Hin. rewrite E in H.
    exact (includes_trans _ _ _ (includes_join_sep ", " choice val Hin) H).
Qed.

Lemma canvas_prompt_carries_answers_witness :
  includes "Logic" (buildCanvasGenerationUserPrompt sampleAnswers) = true
  /\ includes "Quizzes" (buildCanvasGenerationUserPrompt sampleAnswers) = true.
Proof.
  split.
  - refine (proj1 (canvas_prompt_carries_answers sampleAnswers "course-title" _)
              "Logic" eq_refl).
    unfold canvasQuestionIds. cbn [In]. in_list.
  - refine (proj2 (canvas_prompt_carries_answers sampleAnswers
                     "assignment-types" _)
              ["Essays"; "Quizzes"] "Quizzes" eq_refl _).
    + unfold canvasQuestionIds. cbn [In]. in_list.
    + cbn [In]. in_list.
Defined.

Lemma map_itemLine_same (items items' : list StructureItem) :
  map (fun i => (structure_item_title i, structure_item_type i)) items
  = map (fun i => (structure_item_title i, structure_item_type i)) items' ->
  map itemLine items = map itemLine items'.
Proof.
  revert items'; induction items as [|i items IH]; intros [|i' items'] H;
    try discriminate H; [reflexivity|].
  cbn [map] in *. injection H as Ht Hy Hrest.
  unfold itemLine at 1 3. rewrite Ht, Hy. f_equal. now apply IH.
Qed.

(** X23.  The module prompt lists each item of the module as a line of
    its title and type, and carries the module's id, name and position
    and the course title.  Of the items it uses titles and types only:
    two structures that differ in the ids or positions of their items
    give the same prompt, so no item id reaches the model. *)
Theorem module_prompt_lists_titles_and_types :
  forall answers moduleStructure courseTitle,
    let prompt :=
      buildModuleContentUserPrompt answers moduleStructure courseTitle in
    (forall item,
        In item (structure_items moduleStructure) ->
        includes
          ("- " ++ structure_item_title item ++ " ("
           ++ structure_item_type item ++ ")") prompt = true)
    /\ includes (Number_toString (structure_position moduleStructure)) prompt
       = true
    /\ includes (structure_name moduleStructure) prompt = true
    /\ includes (structure_id moduleStructure) prompt = true
    /\ includes courseTitle prompt = true
    /\ (forall moduleStructure',
           structure_id moduleStructure' = structure_id moduleStructure ->
           structure_name moduleStructure' = structure_name moduleStructure ->
           structure_position moduleStructure'
           = structure_position moduleStructure ->
           map (fun i => (structure_item_title i, structure_item_type i))
             (structure_items moduleStructure')
           = map (fun i => (structure_item_title i, structure_item_type i))
               (structure_items moduleStructure) ->
           buildModuleContentUserPrompt answers moduleStructure' courseTitle
           = prompt).
Proof.
  intros answers ms title prompt. subst prompt.
  unfold buildModuleContentUserPrompt.
  repeat split; try (find_part; fail).
  - intros item Hin.
    apply (includes_trans _ (join nl (map itemLine (structure_items ms)))).
    + apply includes_join_sep. exact (in_map itemLine _ _ Hin).
    + find_part.
  - intros ms' Hid Hname Hpos Hitems.
    rewrite Hid, Hname, Hpos, (map_itemLine_same _ _ Hitems). reflexivity.
Qed.

(** ** The route handler *)

Lemma ToString_VArr (elems : list value) :
  ToString (VArr elems) = array_join "," elems.
Proof. reflexivity. Qed.

Lemma elementTexts_strings (elems : list value) :
  forallb isString elems = true -> elementTexts elems = Ok (stringsOf elems).
Proof.
  induction elems as [|x xs IH]; [reflexivity|].
  cbn [forallb]. intros H. apply andb_true_iff in H as [Hx Hxs].
  destruct x; try discriminate Hx.
  cbn [elementTexts]. rewrite (IH Hxs). reflexivity.
Qed.

Lemma str_or_empty (s : string) : (if String.eqb s "" then "" else s) = s.
Proof. destruct (String.eqb_spec s ""); congruence. Qed.

Lemma getAnswer_value_typed (answers : value) (id : string) :
  wellTyped (field answers id) = true ->
  getAnswer_value answers id = Ok (getAnswer (typedAnswers answers) id).
Proof.
  unfold getAnswer_value, getAnswer, typedAnswers.
  destruct (field answers id) as [| | | |s|elems|]; try discriminate; intros H.
  - reflexivity.
  - unfold js_or. cbn [truthy]. rewrite str_or_empty.
    destruct (String.eqb_spec s "") as [->|]; reflexivity.
  - cbn [wellTyped] in H. unfold array_join.
    rewrite (elementTexts_strings _ H). reflexivity.
Qed.

Lemma readAnswers_typed (answers : value) (ids : list string) :
  (forall id, In id ids -> wellTyped (field answers id) = true) ->
  readAnswers answers ids
  = Ok (map (fun id => (id, Text (getAnswer (typedAnswers answers) id))) ids).
Proof.
  induction ids as [|id ids IH]; intros H; [reflexivity|].
  cbn [readAnswers map].
  rewrite getAnswer_value_typed by (apply H; now left).
  rewrite IH by (intros i Hi; apply H; now right). reflexivity.
Qed.

Lemma answersOf_texts (f : string -> string) (ids : list string) (id : string) :
  answersOf (map (fun i => (i, Text (f i))) ids) id
  = if existsb (String.eqb id) ids then Some (Text (f id)) else None.
Proof.
  induction ids as [|k ids IH]; [reflexivity|].
  cbn [map answersOf existsb]. rewrite IH.
  destruct (existsb (String.eqb id) ids).
  - now rewrite orb_true_r.
  - rewrite orb_false_r, (String.eqb_sym k id).
    destruct (String.eqb_spec id k) as [->|]; reflexivity.
Qed.

Lemma getAnswer_texts (f : string -> string) (ids : list string) (id : string) :
  In id ids ->
  getAnswer (answersOf (map (fun i => (i, Text (f i))) ids)) id = f id.
Proof.
  intros Hin. unfold getAnswer. rewrite answersOf_texts.
  replace (existsb (String.eqb id) ids) with true.
  - apply str_or_empty.
  - symmetry. apply existsb_exists. exists id. split; [exact Hin|].
    apply String.eqb_refl.
Qed.

(** X24.  On a body whose answers have the declared type, a string or an
    array of strings or nothing, for each question the full-course prompt
    names, the prompt that the handler builds from the parsed body is the
    prompt of the typed answers, and building it does not throw. *)
Theorem userPromptOf_typed :
  forall answers,
    (forall id, In id canvasQuestionIds ->
                wellTyped (field answers id) = true) ->
    userPromptOf answers
    = Ok (buildCanvasGenerationUserPrompt (typedAnswers answers)).
Proof.
  intros answers H. unfold userPromptOf.
  rewrite (readAnswers_typed _ _ H). cbn [bind]. f_equal.
  set (a := answersOf _).
  assert (Ha : forall id, In id canvasQuestionIds ->
                          getAnswer a id = getAnswer (typedAnswers answers) id).
  { intros id Hid. subst a.
    exact (getAnswer_texts (getAnswer (typedAnswers answers)) _ id Hid). }
  clearbody a. unfold buildCanvasGenerationUserPrompt.
  same_answers a Ha canvasQuestionIds. reflexivity.
Qed.

Lemma userPromptOf_typed_witness :
  userPromptOf (field sampleBody "answers")
  = Ok (buildCanvasGenerationUserPrompt
          (typedAnswers (field sampleBody "answers"))).
Proof.
  apply userPromptOf_typed.
  unfold canvasQuestionIds. cbn [In]. intros id H.
  repeat (destruct H as [<- | H]; [reflexivity|]). destruct H.
Defined.

Lemma POST_call (generateText : GenerateTextRequest -> result string)
    (JSON_parse : string -> option value) (userPrompt : string) :
  generateJSONResponse generateText JSON_parse [0; 1]
    {| temperature := Some (7 # 10)%Q; maxTokens := Some 16000%Z |}
    {| store := [ {| role := system;
                     content := buildCanvasGenerationSystemPrompt |};
                  {| role := user; content := userPrompt |} ];
       console := [] |}
  = match generateText (courseRequest userPrompt) with
    | Ok response => parseResponse JSON_parse response (courseWorld userPrompt)
    | Throw e => (Throw e, courseWorld userPrompt)
    end.
Proof. reflexivity. Qed.

(** The handler once the answers passed the check and the prompt was
    built: one call of the provider decides the rest. *)
Lemma POST_after_prompt (generateText : GenerateTextRequest -> result string)
    (JSON_parse : string -> option value) (typeErrorMessage : string)
    (body : value) (userPrompt : string) :
  nullish body = false ->
  truthy (field body "answers") = true ->
  typeofObject (field body "answers") = true ->
  userPromptOf (field body "answers") = Ok userPrompt ->
  tryPOST generateText JSON_parse (Ok body)
  = match generateText (courseRequest userPrompt) with
    | Throw e => (Throw e, [])
    | Ok response =>
        match JSON_parse (cleanResponse response) with
        | None =>
            (Throw (Error "LLM response was not valid JSON"),
             [("Failed to parse LLM response as JSON:", LoggedText response)])
        | Some course =>
            match normalizeCourse course with
            | Throw e => (Throw e, [])
            | Ok modules =>
                (Ok {| status := 200;
                       body := VObj [("course", withModules course modules)] |},
                 [])
            end
        end
    end.
Proof.
  intros Hb Ht Ho Hp. unfold tryPOST.
  rewrite (get_field _ _ Hb), Ht, Ho, Hp. cbn [negb orb].
  rewrite POST_call.
  destruct (generateText (courseRequest userPrompt)) as [response|e];
    [|reflexivity].
  unfold parseResponse.
  destruct (JSON_parse (cleanResponse response)) as [course|]; [|reflexivity].
  cbn [console courseWorld map].
  destruct (normalizeCourse course); reflexivity.
Qed.

(** X25.  The handler answers 400 exactly when the body was read, is
    neither [undefined] nor [null], and its [answers] is falsy or is not
    an object or array.  The response then says that the required field
    is missing, nothing is logged, and the outcome does not depend on
    the provider or on the parser: neither is called. *)
Theorem POST_rejects_missing_answers :
  forall generateText JSON_parse typeErrorMessage requestJson,
    let out := POST generateText JSON_parse typeErrorMessage requestJson in
    (status (fst out) = 400%Z
     <-> exists body,
           requestJson = Ok body /\ nullish body = false
           /\ (truthy (field body "answers") = false
               \/ typeofObject (field body "answers") = false))
    /\ (status (fst out) = 400%Z ->
        out = ({| status := 400;
                  body := errorBody "Missing required field: answers" |}, [])).
Proof.
  intros generateText JSON_parse typeErrorMessage requestJson out.
  assert (Hyes : forall body,
             requestJson = Ok body -> nullish body = false ->
             truthy (field body "answers") = false
             \/ typeofObject (field body "answers") = false ->
             out = ({| status := 400;
                       body := errorBody "Missing required field: answers" |},
                    [])).
  { intros body -> Hb Hc. subst out. unfold POST, tryPOST.
    rewrite (get_field _ _ Hb).
    destruct Hc as [-> | ->]; [reflexivity|].
    now rewrite orb_true_r. }
  assert (Hno : status (fst out) = 400%Z ->
                exists body,
                  requestJson = Ok body /\ nullish body = false
                  /\ (truthy (field body "answers") = false
                      \/ typeofObject (field body "answers") = false)).
  { subst out. unfold POST, tryPOST.
    destruct requestJson as [body|e]; [|discriminate].
    destruct (nullish body) eqn:Hb.
    { destruct body; try discriminate Hb; discriminate. }
    rewrite (get_field _ _ Hb).
    destruct (truthy (field body "answers")) eqn:Ht;
      [|intros _; exists body; auto].
    destruct (typeofObject (field body "answers")) eqn:Ho;
      [|intros _; exists body; auto].
    cbn [negb orb].
    destruct (userPromptOf (field body "answers")) as [userPrompt|e];
      [|discriminate].
    destruct (generateJSONResponse generateText JSON_parse [0; 1] _ _)
      as [[course|e] w']; [|discriminate].
    destruct (normalizeCourse course); discriminate. }
  split; [split|].
  - exact Hno.
  - intros (body & E & Hb & Hc). now rewrite (Hyes body E Hb Hc).
  - intros H. destruct (Hno H) as (body & E & Hb & Hc). exact (Hyes body E Hb Hc).
Qed.

(** X26.  The handler end to end on a good run.  With answers that pass
    the check and a prompt that builds, the provider is sent the system
    prompt, the user prompt followed by the JSON instruction, the
    temperature 0.7 and the limit of 16000 tokens.  When its reply, once
    cleaned, parses to a course with a title whose modules and items have
    the shapes that the normalizer takes, the response is 200 and holds
    that course with its modules replaced by their normalization, and
    nothing is logged. *)
Theorem POST_success :
  forall generateText JSON_parse typeErrorMessage body userPrompt response
         course,
    nullish body = false ->
    truthy (field body "answers") = true ->
    typeofObject (field body "answers") = true ->
    userPromptOf (field body "answers") = Ok userPrompt ->
    generateText (courseRequest userPrompt) = Ok response ->
    JSON_parse (cleanResponse response) = Some course ->
    courseOk course = true ->
    exists modules,
      normalizeCourse course = Ok modules
      /\ POST generateText JSON_parse typeErrorMessage (Ok body)
         = ({| status := 200;
               body := VObj [("course", withModules course modules)] |}, []).
Proof.
  intros generateText JSON_parse typeErrorMessage body userPrompt response
    course Hb Ht Ho Hp Hr Hj Hc.
  destruct (proj1 (normalizeCourse_returns course) Hc) as [modules Hm].
  exists modules. split; [exact Hm|].
  unfold POST.
  rewrite (POST_after_prompt _ _ typeErrorMessage body userPrompt Hb Ht Ho Hp).
  rewrite Hr, Hj, Hm. reflexivity.
Qed.

Lemma POST_success_witness :
  exists modules,
    normalizeCourse sampleReplyCourse = Ok modules
    /\ POST sampleProvider sampleJsonParse "t" (Ok sampleBody)
       = ({| status := 200;
             body := VObj [("course", withModules sampleReplyCourse modules)] |},
          []).
Proof.
  refine (POST_success sampleProvider sampleJsonParse "t" sampleBody
            (buildCanvasGenerationUserPrompt
               (typedAnswers (field sampleBody "answers")))
            sampleReply sampleReplyCourse eq_refl eq_refl eq_refl _ eq_refl _
            eq_refl).
  - vm_compute. reflexivity.
  - vm_compute. reflexivity.
Defined.
Lemma normalizeCourse_invalid (course : value) :
  nullish course = false ->
  truthy (field course "title") = false
  \/ isArray (field course "modules") = false ->
  normalizeCourse course
  = Throw (Error "Invalid course structure returned from LLM").
Proof.
  intros Hn H. unfold normalizeCourse. rewrite !(get_field _ _ Hn).
  cbn [bind]. destruct H as [-> | ->]; [reflexivity|].
  now rewrite orb_true_r.
Qed.

(** X27.  The handler end to end on a bad run, with answers that pass
    the check and a prompt that builds.  An error of the provider, a
    reply that does not parse and a parsed reply without a title or
    without an array of modules each give a 500 response: with the
    provider's message, or a fixed text when that message is empty; with
    the not-valid-JSON message, the raw reply being logged first; and
    with the invalid-structure message.  The error is logged each time. *)
Theorem POST_failures :
  forall generateText JSON_parse typeErrorMessage body userPrompt,
    nullish body = false ->
    truthy (field body "answers") = true ->
    typeofObject (field body "answers") = true ->
    userPromptOf (field body "answers") = Ok userPrompt ->
    let out := POST generateText JSON_parse typeErrorMessage (Ok body) in
    (forall text,
        generateText (courseRequest userPrompt) = Throw (Error text) ->
        out
        = ({| status := 500;
              body := errorBody (if String.eqb text ""
                                 then "Course generation failed" else text) |},
           [("Canvas generation error:", LoggedError (Error text))]))
    /\ (forall response,
           generateText (courseRequest userPrompt) = Ok response ->
           JSON_parse (cleanResponse response) = None ->
           out
           = ({| status := 500;
                 body := errorBody "LLM response was not valid JSON" |},
              [("Failed to parse LLM response as JSON:", LoggedText response);
               ("Canvas generation error:",
                LoggedError (Error "LLM response was not valid JSON"))]))
    /\ (forall response course,
           generateText (courseRequest userPrompt) = Ok response ->
           JSON_parse (cleanResponse response) = Some course ->
           nullish course = false ->
           truthy (field course "title") = false
           \/ isArray (field course "modules") = false ->
           out
           = ({| status := 500;
                 body := errorBody "Invalid course structure returned from LLM" |},
              [("Canvas generation error:",
                LoggedError
                  (Error "Invalid course structure returned from LLM"))])).
Proof.
  intros generateText JSON_parse typeErrorMessage body userPrompt Hb Ht Ho Hp
    out.
  subst out. unfold POST.
  rewrite (POST_after_prompt _ _ typeErrorMessage body userPrompt Hb Ht Ho Hp).
  split; [|split].
  - intros text ->. unfold errorBody, js_or. cbn [truthy message].
    destruct (String.eqb text ""); reflexivity.
  - intros response -> ->. reflexivity.
  - intros response course -> -> Hn Hc.
    rewrite (normalizeCourse_invalid _ Hn Hc). reflexivity.
Qed.

Lemma POST_failures_witness :
  POST (fun _ => Throw (Error "")) sampleJsonParse "t" (Ok sampleBody)
  = ({| status := 500; body := errorBody "Course generation failed" |},
     [("Canvas generation error:", LoggedError (Error ""))]).
Proof.
  refine (proj1 (POST_failures (fun _ => Throw (Error "")) sampleJsonParse "t"
                   sampleBody
                   (buildCanvasGenerationUserPrompt
                      (typedAnswers (field sampleBody "answers")))
                   eq_refl eq_refl eq_refl _) "" eq_refl).
  vm_compute. reflexivity.
Defined.

(** X28.  A 200 response is never given without a course: the body was
    read, the provider replied, the cleaned reply parsed, the parsed
    course passed the validation and the normalization, and the response
    holds that course with the normalized modules.  Nothing was logged. *)
Theorem POST_ok_only_with_course :
  forall generateText JSON_parse typeErrorMessage requestJson,
    let out := POST generateText JSON_parse typeErrorMessage requestJson in
    status (fst out) = 200%Z ->
    exists body userPrompt response course modules,
      requestJson = Ok body
      /\ userPromptOf (field body "answers") = Ok userPrompt
      /\ generateText (courseRequest userPrompt) = Ok response
      /\ JSON_parse (cleanResponse response) = Some course
      /\ normalizeCourse course = Ok modules
      /\ out
         = ({| status := 200;
               body := VObj [("course", withModules course modules)] |}, []).
Proof.
  intros generateText JSON_parse typeErrorMessage requestJson out. subst out.
  destruct requestJson as [body|e]; [|discriminate].
  destruct (nullish body) eqn:Hb.
  { destruct body; try discriminate Hb; discriminate. }
  destruct (truthy (field body "answers")) eqn:Ht.
  2:{ unfold POST, tryPOST. rewrite (get_field _ _ Hb), Ht. discriminate. }
  destruct (typeofObject (field body "answers")) eqn:Ho.
  2:{ unfold POST, tryPOST. rewrite (get_field _ _ Hb), Ht, Ho. discriminate. }
  destruct (userPromptOf (field body "answers")) as [userPrompt|e] eqn:Hp.
  2:{ unfold POST, tryPOST. rewrite (get_field _ _ Hb), Ht, Ho, Hp.
      discriminate. }
  unfold POST.
  rewrite (POST_after_prompt _ _ typeErrorMessage body userPrompt Hb Ht Ho Hp).
  destruct (generateText (courseRequest userPrompt)) as [response|e] eqn:Hr;
    [|discriminate].
  destruct (JSON_parse (cleanResponse response)) as [course|] eqn:Hj;
    [|discriminate].
  destruct (normalizeCourse course) as [modules|e] eqn:Hm; [|discriminate].
  intros _. exists body, userPrompt, response, course, modules.
  repeat split; assumption.
Qed.

Lemma POST_ok_only_with_course_witness :
  exists body userPrompt response course modules,
    Ok sampleBody = Ok body
    /\ userPromptOf (field body "answers") = Ok userPrompt
    /\ sampleProvider (courseRequest userPrompt) = Ok response
    /\ sampleJsonParse (cleanResponse response) = Some course
    /\ normalizeCourse course = Ok modules
    /\ POST sampleProvider sampleJsonParse "t" (Ok sampleBody)
       = ({| status := 200;
             body := VObj [("course", withModules course modules)] |}, []).
Proof.
  apply (POST_ok_only_with_course sampleProvider sampleJsonParse "t"
           (Ok sampleBody)).
  vm_compute. reflexivity.
Defined.

(** ** References inside the manifest *)

Lemma itemLeafXml_ref (item : CanvasModuleItem) :
  includes
    (T "<item identifier='" ++ ("item_" ++ item_id item)
     ++ T "' identifierref='" ++ ("res_" ++ item_id item) ++ T "'>")
    (itemLeafXml item) = true.
Proof.
  unfold itemLeafXml, moduleItemXml.
  apply includes_spec.
  exists (T "
          "), ("
            <title>" ++ escapeXml (item_title item) ++ "</title>
          </item>").
  rewrite !append_assoc. vm_compute. reflexivity.
Qed.

Lemma itemResourceXml_decl (item : CanvasModuleItem) :
  includes
    (T "<resource identifier='" ++ ("res_" ++ item_id item) ++ T "' type='"
     ++ fst (resourceTypeAndHref item) ++ T "' href='" ++ itemPath item
     ++ T "'>")
    (itemResourceXml item) = true.
Proof.
  unfold itemResourceXml, resourceXml. rewrite resourceTypeAndHref_itemPath.
  apply includes_spec.
  exists (T "
    "), (T "
      <file href='" ++ itemPath item ++ T "'/>
    </resource>").
  rewrite !append_assoc. vm_compute. reflexivity.
Qed.

Lemma overviewXml_refs (overviewId : string) :
  includes
    (T "<item identifier='overview_item' identifierref='" ++ overviewId
     ++ T "'>") (overviewItemXml overviewId) = true
  /\ includes
       (T "<resource identifier='" ++ overviewId
        ++ T "' type='webcontent' href='course_overview.html'>")
       (overviewResourceXml overviewId) = true.
Proof.
  unfold overviewItemXml, overviewResourceXml. split.
  - apply includes_between; vm_compute; reflexivity.
  - apply includes_between; vm_compute; reflexivity.
Qed.

(** X29.  Every reference inside the manifest has its target: each item
    of the organization, [item_] and the item's id, refers to the
    resource [res_] and the same id, and the manifest declares a resource
    of that identifier, with the type of the item's kind and the path of
    the item's file.  The overview item refers to the overview resource
    in the same way. *)
Theorem manifest_references_are_declared :
  forall overviewId manifestId course,
    let manifest := generateManifest overviewId manifestId course in
    (includes
       (T "<item identifier='overview_item' identifierref='" ++ overviewId
        ++ T "'>") manifest = true
     /\ includes
          (T "<resource identifier='" ++ overviewId
           ++ T "' type='webcontent' href='course_overview.html'>") manifest
        = true)
    /\ forall m item,
         In m (course_modules course) -> In item (module_items m) ->
         includes
           (T "<item identifier='" ++ ("item_" ++ item_id item)
            ++ T "' identifierref='" ++ ("res_" ++ item_id item) ++ T "'>")
           manifest = true
         /\ includes
              (T "<resource identifier='" ++ ("res_" ++ item_id item)
               ++ T "' type='" ++ fst (resourceTypeAndHref item)
               ++ T "' href='" ++ itemPath item ++ T "'>") manifest = true.
Proof.
  intros overviewId manifestId course manifest. subst manifest.
  rewrite generateManifest_in_order. unfold manifestInOrder.
  destruct (overviewXml_refs overviewId) as [Ho1 Ho2].
  split; [split|].
  - apply (includes_trans _ _ _ Ho1). apply manifestXml_item. now left.
  - apply (includes_trans _ _ _ Ho2). apply manifestXml_resource. now left.
  - intros m item Hm Hi. split.
    + apply (includes_trans _ _ _ (itemLeafXml_ref item)).
      apply (includes_trans _ _ _ (moduleNodeXml_leaf m item Hi)).
      apply manifestXml_item. right. now apply in_map.
    + apply (includes_trans _ _ _ (itemResourceXml_decl item)).
      apply manifestXml_resource. right.
      apply in_map. exact (allItems_In _ _ _ Hm Hi).
Qed.
